(** * Resume_Analyzer: the matching and scoring engine

    A shallow embedding of the scoring code of the repository
    (utils/skill_extract.py, utils/education_extract.py, utils/exper_test.py
    and the aggregation in app.py) together with the properties its
    specification states about it.

    Conventions of the embedding.
    - Python [str] is [string] (a sequence of bytes); [lower], [strip] and the
      word characters of the regular expressions are the ASCII ones.
    - Python numbers are exact rationals [Q]; the two-decimal [round] is
      round-half-even on the exact value.  Results of [round] are kept in
      lowest terms, so concrete scores can be compared with [=].
    - A Python set of strings is a [gset string], a dict keyed by level
      names is a [gmap string _].
    - Code that can raise returns in the [exn] monad; [try_except] is the
      [try: ... except Exception: ...] statement.
    - A Python list used as a stack has its top at the head of the list. *)

From Stdlib Require Import QArith Qround Qabs ZArith Lia Ascii.
From stdpp Require Import base option list strings gmap.

(** ** Python built-ins used by the engine *)

Module Py.

(** The double quote character. *)
Definition dq : ascii := "034"%char.

(** [quoted s] is [s] between two double quotes. *)
Definition quoted (s : string) : string := String dq (s +:+ String dq "").

Definition is_upper (c : ascii) : bool :=
  (65 <=? nat_of_ascii c)%nat && (nat_of_ascii c <=? 90)%nat.

Definition is_lower (c : ascii) : bool :=
  (97 <=? nat_of_ascii c)%nat && (nat_of_ascii c <=? 122)%nat.

Definition is_digit (c : ascii) : bool :=
  (48 <=? nat_of_ascii c)%nat && (nat_of_ascii c <=? 57)%nat.

(** [\w] of the [re] module, on ASCII. *)
Definition is_word_char (c : ascii) : bool :=
  is_upper c || is_lower c || is_digit c || bool_decide (c = "_"%char).

(** The characters [str.strip()] removes: tab, line feed, vertical tab, form
    feed, carriage return, the four separators 28-31, and space. *)
Definition is_space (c : ascii) : bool :=
  let n := nat_of_ascii c in
  ((9 <=? n)%nat && (n <=? 13)%nat) || ((28 <=? n)%nat && (n <=? 32)%nat).

Definition lower_char (c : ascii) : ascii :=
  if is_upper c then ascii_of_nat (nat_of_ascii c + 32) else c.

(** [s.lower()] *)
Fixpoint lower (s : string) : string :=
  match s with
  | EmptyString => EmptyString
  | String c r => String (lower_char c) (lower r)
  end.

Fixpoint lstrip (p : ascii → bool) (s : string) : string :=
  match s with
  | EmptyString => EmptyString
  | String c r => if p c then lstrip p r else s
  end.

Fixpoint rstrip (p : ascii → bool) (s : string) : string :=
  match s with
  | EmptyString => EmptyString
  | String c r =>
      match rstrip p r with
      | EmptyString => if p c then EmptyString else String c EmptyString
      | r' => String c r'
      end
  end.

(** [s.strip()] when [p] is [is_space], [s.strip(c)] when [p] tests for [c]. *)
Definition strip_by (p : ascii → bool) (s : string) : string :=
  rstrip p (lstrip p s).

Definition strip (s : string) : string := strip_by is_space s.

Definition strip_char (c : ascii) (s : string) : string :=
  strip_by (λ x, bool_decide (x = c)) s.

(** [s.startswith(p)] *)
Fixpoint startswith (p s : string) : bool :=
  match p, s with
  | EmptyString, _ => true
  | String a p', String b s' => bool_decide (a = b) && startswith p' s'
  | String _ _, EmptyString => false
  end.

(** [s.endswith(c)] for a one-character suffix. *)
Fixpoint endswith_char (c : ascii) (s : string) : bool :=
  match s with
  | EmptyString => false
  | String a EmptyString => bool_decide (a = c)
  | String _ r => endswith_char c r
  end.

(** [needle in hay] on strings: [needle] occurs as a substring. *)
Fixpoint contains (needle hay : string) : bool :=
  startswith needle hay ||
  match hay with
  | EmptyString => false
  | String _ r => contains needle r
  end.

(** [s.replace(c, '')] for a single character [c]. *)
Fixpoint remove_char (c : ascii) (s : string) : string :=
  match s with
  | EmptyString => EmptyString
  | String a r => if bool_decide (a = c) then remove_char c r else String a (remove_char c r)
  end.

(** Truthiness of a string: [if s] holds for the non-empty ones. *)
Definition truthy (s : string) : bool := negb (bool_decide (s = EmptyString)).

(** *** Exceptions *)

Inductive exception : Type :=
  | ValueError (msg : string)
  | TypeError (msg : string)
  | FloatNoneComparisonError (msg : string).

Inductive exn (A : Type) : Type :=
  | Ok (a : A)
  | Raise (e : exception).
Arguments Ok {A} a.
Arguments Raise {A} e.

#[global] Instance exn_ret : MRet exn := λ A, Ok.
#[global] Instance exn_bind : MBind exn := λ A B f m,
  match m with
  | Ok a => f a
  | Raise e => Raise e
  end.

(** [try: body  except Exception as e: handler(e)] *)
Definition try_except {A} (body : exn A) (handler : exception → exn A) : exn A :=
  match body with
  | Ok a => Ok a
  | Raise e => handler e
  end.

Definition raises {A} (m : exn A) : Prop := ∃ e, m = Raise e.

(** *** Numbers *)

(** Nearest integer, ties to the even one. *)
Definition round_half_even (x : Q) : Z :=
  let f := Qfloor x in
  match (x - inject_Z f ?= 1 # 2)%Q with
  | Lt => f
  | Gt => (f + 1)%Z
  | Eq => if Z.even f then f else (f + 1)%Z
  end.

(** [round(x, 2)] *)
Definition round2 (x : Q) : Q := Qred (round_half_even (x * 100) # 100).

Definition Qlt_bool (x y : Q) : bool := negb (Qle_bool y x).

(** [min(x, y)]: the first of the two unless the second is smaller. *)
Definition py_min (x y : Q) : Q := if Qlt_bool y x then y else x.

(** A Python number: the [int]s and the [float]s are told apart because the
    text of a [TypeError] names the type. *)
Inductive pynum : Type :=
  | PyInt (z : Z)
  | PyFloat (q : Q).

Definition value_of (n : pynum) : Q :=
  match n with
  | PyInt z => inject_Z z
  | PyFloat q => q
  end.

Definition type_name (n : pynum) : string :=
  match n with
  | PyInt _ => "int"
  | PyFloat _ => "float"
  end.

(** What [float(s)] returns of a text: a number, an infinity (the texts
    [inf] and [infinity], with or without a sign, or a number too large), or
    [nan]. *)
Inductive pyfloat : Type :=
  | Number (q : Q)
  | Inf (negative : bool)
  | NaN.

(** [len(c)] of a list or a set, as a number. *)
Definition num (n : nat) : Q := inject_Z (Z.of_nat n).

End Py.

(** ** utils/skill_extract.py *)

Module SkillExtract.
Import Py.

(** *** The two regular expressions of [evaluate_resume]

    [re.findall] scans the text from left to right; at each position it tries
    the alternatives in order, and after a match it resumes at the end of the
    match.  Every match here is non-empty and no alternative backtracks into
    another, so one pass with a count of characters still covered by the last
    match gives the same list. *)

(** The text up to the first double quote, when there is one. *)
Fixpoint until_quote (s : string) : option string :=
  match s with
  | EmptyString => None
  | String c r =>
      if bool_decide (c = dq) then Some EmptyString
      else match until_quote r with
           | Some content => Some (String c content)
           | None => None
           end
  end.

(** A quote, one or more characters other than a quote, a quote: the text
    between the quotes of such a match at the start of [s]. *)
Definition match_literal (s : string) : option string :=
  match s with
  | String c r =>
      if bool_decide (c = dq) then
        match until_quote r with
        | Some (String a content) => Some (String a content)
        | _ => None
        end
      else None
  | EmptyString => None
  end.

(** The first [n] characters of [s], when it has that many. *)
Fixpoint take_chars (n : nat) (s : string) : option string :=
  match n, s with
  | O, _ => Some EmptyString
  | S k, String c r =>
      match take_chars k r with
      | Some t => Some (String c t)
      | None => None
      end
  | S _, EmptyString => None
  end.

Fixpoint drop_chars (n : nat) (s : string) : string :=
  match n, s with
  | O, _ => s
  | S k, String _ r => drop_chars k r
  | S _, EmptyString => EmptyString
  end.

(** One keyword between word boundaries, letters of either case: the matched
    text.  [prev_word] tells whether the character before [s] is a word
    character (false at the start of the text). *)
Definition match_one_keyword (kw : string) (prev_word : bool) (s : string) : option string :=
  match take_chars (String.length kw) s with
  | Some t =>
      if bool_decide (lower t = kw) && negb prev_word &&
         match drop_chars (String.length kw) s with
         | EmptyString => true
         | String c _ => negb (is_word_char c)
         end
      then Some t else None
  | None => None
  end.

Definition match_keyword (prev_word : bool) (s : string) : option string :=
  match match_one_keyword "and" prev_word s with
  | Some t => Some t
  | None =>
      match match_one_keyword "or" prev_word s with
      | Some t => Some t
      | None => match_one_keyword "not" prev_word s
      end
  end.

(** The token pattern at the start of [s]: a quoted literal (quotes kept), a
    parenthesis, or a keyword. *)
Definition match_token (prev_word : bool) (s : string) : option string :=
  match match_literal s with
  | Some content => Some (quoted content)
  | None =>
      if startswith "(" s then Some "("
      else if startswith ")" s then Some ")"
      else match_keyword prev_word s
  end.

(** [re.findall] of a pattern given by its matcher at a position; [skip]
    counts the characters still covered by the last match. *)
Fixpoint findall (matcher : bool → string → option (string * nat))
    (prev_word : bool) (skip : nat) (s : string) : list string :=
  match s with
  | EmptyString => []
  | String c r =>
      match skip with
      | S k => findall matcher (is_word_char c) k r
      | O =>
          match matcher prev_word s with
          | Some (found, width) => found :: findall matcher (is_word_char c) (width - 1) r
          | None => findall matcher (is_word_char c) 0 r
          end
      end
  end.

(** [re.findall] of the first pattern of [evaluate_resume] (a quote, a group of
    one or more characters that are no quote, a quote): the list of the groups,
    the texts between the quotes. *)
Definition findall_quoted (s : string) : list string :=
  findall (λ _ t, match match_literal t with
                  | Some content => Some (content, 2 + String.length content)
                  | None => None
                  end) false 0 s.

(** [re.findall] of the token pattern with [re.IGNORECASE]: a quoted literal,
    or an opening parenthesis, or a closing one, or [\b(?:and|or|not)\b]. *)
Definition findall_tokens (s : string) : list string :=
  findall (λ prev_word t, match match_token prev_word t with
                          | Some tok => Some (tok, String.length tok)
                          | None => None
                          end) false 0 s.

(** *** evaluate_resume *)

(** The skill of a quoted token or of a group: quotes stripped, trimmed,
    lower case. *)
Definition normalize_skill (token : string) : string :=
  lower (strip (strip_char dq token)).

(** The set comprehension of line 59: [normalize_skill token] for each group
    [token] whose stripped text is not empty. *)
Definition required_skills_of (skills_expression : string) : gset string :=
  list_to_set
    (normalize_skill <$>
       filter (λ token, strip (strip_char dq token) ≠ EmptyString)
              (findall_quoted skills_expression)).

(** [{skill.strip().lower() for skill in resume_skills if skill and isinstance(skill, str)}] *)
Definition normalize_resume_skills (resume_skills : gset string) : gset string :=
  set_map (λ skill, lower (strip skill))
          (filter (λ skill, skill ≠ EmptyString) resume_skills).

Definition normalize_token (token : string) : string :=
  if startswith (String dq EmptyString) token && endswith_char dq token
  then normalize_skill token
  else lower token.

Definition normalized_tokens_of (skills_expression : string) : list string :=
  normalize_token <$> findall_tokens skills_expression.

Definition is_operator (token : string) : bool :=
  bool_decide (token = "and") || bool_decide (token = "or") || bool_decide (token = "not").

(** [precedence.get(op, 0)] with [precedence = {'not': 3, 'and': 2, 'or': 1}] *)
Definition precedence (op : string) : nat :=
  if bool_decide (op = "not") then 3
  else if bool_decide (op = "and") then 2
  else if bool_decide (op = "or") then 1
  else 0.

Definition apply_operator (op : string) (operand_stack : list bool) : exn (list bool) :=
  if bool_decide (op = "not") then
    match operand_stack with
    | [] => Raise (ValueError "Operand stack empty for 'not' operator")
    | operand :: rest => Ok (negb operand :: rest)
    end
  else
    match operand_stack with
    | right_ :: left_ :: rest =>
        if bool_decide (op = "and") then Ok ((left_ && right_) :: rest)
        else if bool_decide (op = "or") then Ok ((left_ || right_) :: rest)
        else Ok rest
    | _ => Raise (ValueError ("Insufficient operands for '" +:+ op +:+ "' operator"))
    end.

(** The two stacks. *)
Record stacks : Type := Stacks { operand_stack : list bool; operator_stack : list string }.

(** [while operator_stack and keep_popping(operator_stack[-1]):
       apply_operator(operator_stack.pop())] *)
Fixpoint apply_while (keep_popping : string → bool) (operators : list string)
    (operands : list bool) : exn stacks :=
  match operators with
  | [] => Ok (Stacks operands [])
  | top :: rest =>
      if keep_popping top then
        operands' ← apply_operator top operands;
        apply_while keep_popping rest operands'
      else Ok (Stacks operands operators)
  end.

Definition not_open_paren (op : string) : bool := negb (bool_decide (op = "(")).

(** The body of the loop over the normalized tokens. *)
Definition step (resume_skills : gset string) (st : stacks) (token : string) : exn stacks :=
  if is_operator token then
    st' ← apply_while
            (λ top, not_open_paren top && (precedence token <=? precedence top)%nat)
            (operator_stack st) (operand_stack st);
    Ok (Stacks (operand_stack st') (token :: operator_stack st'))
  else if bool_decide (token = "(") then
    Ok (Stacks (operand_stack st) (token :: operator_stack st))
  else if bool_decide (token = ")") then
    st' ← apply_while not_open_paren (operator_stack st) (operand_stack st);
    match operator_stack st' with
    | _ :: rest => Ok (Stacks (operand_stack st') rest)
    | [] => Raise (ValueError "Mismatched parentheses")
    end
  else
    Ok (Stacks (bool_decide (token ∈ resume_skills) :: operand_stack st) (operator_stack st)).

Fixpoint run (resume_skills : gset string) (tokens : list string) (st : stacks) : exn stacks :=
  match tokens with
  | [] => Ok st
  | token :: rest => st' ← step resume_skills st token; run resume_skills rest st'
  end.

(** [while operator_stack: if top is an open parenthesis raise, else apply] *)
Fixpoint apply_remaining (operators : list string) (operands : list bool) : exn (list bool) :=
  match operators with
  | [] => Ok operands
  | top :: rest =>
      if bool_decide (top = "(") then Raise (ValueError "Mismatched parentheses")
      else operands' ← apply_operator top operands; apply_remaining rest operands'
  end.

(** The boolean value of the token list: lines 84 to 144. *)
Definition evaluate_tokens (resume_skills : gset string) (tokens : list string) : exn bool :=
  st ← run resume_skills tokens (Stacks [] []);
  operands ← apply_remaining (operator_stack st) (operand_stack st);
  match operands with
  | [] => Raise (ValueError "No result after evaluation")
  | result :: _ => Ok result
  end.

(** [len(required & resume) / len(required) * 100 if required else 0.0] *)
Definition match_percentage (required_skills resume_skills : gset string) : Q :=
  if bool_decide (required_skills = ∅) then 0
  else (num (size (required_skills ∩ resume_skills)) / num (size required_skills) * 100)%Q.

(** What stands inside the [try] of [evaluate_resume]. *)
Definition evaluate_resume_body (skills_expression : string) (resume_skills : gset string)
    : exn (bool * Q) :=
  let required_skills := required_skills_of skills_expression in
  let resume_skills := normalize_resume_skills resume_skills in
  let skills_tokens := findall_tokens skills_expression in
  match skills_tokens with
  | [] => Ok (false, 0%Q)
  | _ =>
      result ← evaluate_tokens resume_skills (normalize_token <$> skills_tokens);
      Ok (result, round2 (match_percentage required_skills resume_skills))
  end.

Definition evaluate_resume (skills_expression : string) (resume_skills : gset string)
    : exn (bool * Q) :=
  if bool_decide (skills_expression = EmptyString) || bool_decide (skills_expression = "False")
  then Ok (false, 0%Q)
  else try_except (evaluate_resume_body skills_expression resume_skills)
                  (λ _, Ok (false, 0%Q)).

(** *** extract_skills_from_expression and calculate_match_score *)

Definition extract_skills_from_expression (expression : string) : gset string :=
  if bool_decide (expression = EmptyString) then ∅
  else
    list_to_set
      (normalize_skill <$>
         filter (λ token, strip (strip_char dq token) ≠ EmptyString)
                (findall_quoted expression)).

(** The error of an integer division by zero; [calculate_match_score] has no
    [try] around its division. *)
Inductive arithmetic_error : Type :=
  | ZeroDivisionError (msg : string).

Definition calculate_match_score (required_skills resume_skills : gset string)
    : arithmetic_error + Q :=
  if bool_decide (required_skills = ∅) then inr 0%Q
  else
    let required_skills := normalize_resume_skills required_skills in
    let resume_skills := normalize_resume_skills resume_skills in
    let matched_skills := required_skills ∩ resume_skills in
    if bool_decide (size required_skills = 0)
    then inl (ZeroDivisionError "division by zero")
    else inr (round2 (num (size matched_skills) / num (size required_skills) * 100)).

End SkillExtract.

(** ** difflib.SequenceMatcher

    The similarity ratio of Python's standard library, which the repository
    calls and does not define.  It is modelled from the library's
    documentation: [find_longest_match] returns the longest block common to
    both sequences, the one starting earliest in the first sequence among
    the longest, and among those the one starting earliest in the second;
    the matching blocks are that block and, recursively, those of the pieces
    to its left and to its right; [ratio()] is [2.0 * M / T] with [M] the
    total size of the matching blocks and [T] the sum of both lengths, and
    [1.0] when both sequences are empty.  No junk is declared
    ([isjunk = None]); the automatic junk heuristic, which only concerns
    second sequences of 200 elements or more, is left out. *)

Module Difflib.

Fixpoint common_prefix (a b : string) : nat :=
  match a, b with
  | String x a', String y b' => if bool_decide (x = y) then S (common_prefix a' b') else 0
  | _, _ => 0
  end.

(** A block: its start in the first sequence, its start in the second, its size. *)
Record block : Type := Block { in_a : nat; in_b : nat; size : nat }.

Fixpoint longest_from (a : string) (i : nat) (b : string) (j : nat) (best : block) : block :=
  match b with
  | EmptyString => best
  | String _ b' =>
      let k := common_prefix a b in
      longest_from a i b' (S j) (if (size best <? k)%nat then Block i j k else best)
  end.

Fixpoint longest_over (a : string) (i : nat) (b : string) (best : block) : block :=
  match a with
  | EmptyString => best
  | String _ a' => longest_over a' (S i) b (longest_from a i b 0 best)
  end.

Definition find_longest_match (a b : string) : block := longest_over a 0 b (Block 0 0 0).

Definition take_str (n : nat) (s : string) : string := String.substring 0 n s.
Definition drop_str (n : nat) (s : string) : string := String.substring n (String.length s - n) s.

(** The total size of the matching blocks; every recursive call is on a
    strictly shorter piece of [a], so [S (length a)] steps are enough. *)
Fixpoint matches (steps : nat) (a b : string) : nat :=
  match steps with
  | O => 0
  | S steps' =>
      let m := find_longest_match a b in
      if (size m =? 0)%nat then 0
      else size m
           + matches steps' (take_str (in_a m) a) (take_str (in_b m) b)
           + matches steps' (drop_str (in_a m + size m) a) (drop_str (in_b m + size m) b)
  end.

(** [SequenceMatcher(None, a, b).ratio()] *)
Definition ratio (a b : string) : Q :=
  let total := (String.length a + String.length b)%nat in
  if (total =? 0)%nat then 1
  else (2 * Py.num (matches (S (String.length a)) a b) / Py.num total)%Q.

End Difflib.

(** ** utils/exper_test.py *)

Module ExperTest.
Import Py.

(** What a dict holds under a key: nothing, [None], or a value. *)
Inductive slot (A : Type) : Type :=
  | Missing
  | PyNone
  | Val (a : A).
Arguments Missing {A}.
Arguments PyNone {A}.
Arguments Val {A} a.

(** [d.get(key, default)]: [None] when the key holds [None]. *)
Definition get {A} (s : slot A) (default : A) : option A :=
  match s with
  | Missing => Some default
  | PyNone => None
  | Val a => Some a
  end.

(** The experience requirement of a job description, a dict with the keys
    [required], [min_years], [max_years] and [fields]; [upload] passes the
    empty dict when the extracted data has no experience part. *)
Record jd_experience : Type := JdExperience {
  required : slot bool;
  min_years : slot pynum;
  max_years : slot pynum;
  fields : slot (list string)
}.

(** [{}] *)
Definition empty_dict : jd_experience := JdExperience Missing Missing Missing Missing.

(** [not jd_exp]: the dict has no key. *)
Definition is_empty (jd_exp : jd_experience) : bool :=
  match required jd_exp, min_years jd_exp, max_years jd_exp, fields jd_exp with
  | Missing, Missing, Missing, Missing => true
  | _, _, _, _ => false
  end.

(** The truth value of [jd_exp.get("required", False)]. *)
Definition is_required (jd_exp : jd_experience) : bool :=
  match required jd_exp with
  | Val b => b
  | _ => false
  end.

(** [jd_exp.get("fields", [])], with [None] read as the empty list: the code
    only tests its truth value before it loops over it. *)
Definition fields_of (jd_exp : jd_experience) : list string :=
  match fields jd_exp with
  | Val l => l
  | _ => []
  end.

(** One entry of the resume's experience list. *)
Record experience_entry : Type := ExperienceEntry {
  title : option string;
  years : slot pynum;
  field : option string
}.

(** [x + y].  The sum of two [int]s is exact in Python; a sum with a
    [float] in it is rounded there to the nearest double, and it is written
    here as the exact sum: the two are the same number whenever the exact
    sum is a double.  The statements that turn on such a sum say for which
    years they are made (see [short_binary_years]). *)
Definition py_add (x y : pynum) : pynum :=
  match x, y with
  | PyInt a, PyInt b => PyInt (a + b)
  | _, _ => PyFloat (value_of x + value_of y)
  end.

(** [sum(exp.get("years", 0) for exp in resume_exp)], from the accumulator
    [acc]; adding [None] raises. *)
Fixpoint sum_years (acc : pynum) (resume_exp : list experience_entry) : exn pynum :=
  match resume_exp with
  | [] => Ok acc
  | exp :: rest =>
      match get (years exp) (PyInt 0) with
      | Some y => sum_years (py_add acc y) rest
      | None =>
          Raise (TypeError ("unsupported operand type(s) for +: '" +:+ type_name acc
                            +:+ "' and 'NoneType'"))
      end
  end.

(** An ordering comparison [x op y] of a number with a number or [None];
    [test] decides it on the values. *)
Definition py_compare (op : string) (test : Q → Q → bool) (x : pynum) (y : option pynum)
    : exn bool :=
  match y with
  | Some y => Ok (test (value_of x) (value_of y))
  | None =>
      Raise (TypeError ("'" +:+ op +:+ "' not supported between instances of '"
                        +:+ type_name x +:+ "' and 'NoneType'"))
  end.

Definition py_lt := py_compare "<" Qlt_bool.
Definition py_ge := py_compare ">=" (λ x y, Qle_bool y x).

(** [jd_max] once [None] and the missing key have both become
    [float('inf')]. *)
Inductive bound : Type :=
  | Finite (n : pynum)
  | Infinity.

Definition jd_max_of (s : slot pynum) : bound :=
  match s with
  | Val n => Finite n
  | _ => Infinity
  end.

(** [total_exp > jd_max] *)
Definition exceeds (total_exp : pynum) (jd_max : bound) : bool :=
  match jd_max with
  | Finite m => Qlt_bool (value_of m) (value_of total_exp)
  | Infinity => false
  end.

Definition normalize_field_name (field : option string) : string :=
  match field with
  | Some f => if truthy f then lower f else EmptyString
  | None => EmptyString
  end.

Definition similar (a b : string) : Q := Difflib.ratio (lower a) (lower b).

Definition threshold : Q := 7 # 10.

Definition fields_similar (field1 field2 : string) : bool :=
  if negb (truthy field1) || negb (truthy field2) then false
  else Qlt_bool threshold (similar field1 field2).

(** The test of the inner loop of [evaluate_experience]. *)
Definition field_found (use_fuzzy_matching : bool) (jd_field : string) (entry : experience_entry)
    : bool :=
  let res_field := normalize_field_name (field entry) in
  if use_fuzzy_matching then fields_similar jd_field res_field
  else contains (lower jd_field) res_field.

Definition evaluate_experience (jd_exp : jd_experience)
    (resume_exp : list experience_entry) (use_fuzzy_matching : bool) : exn bool :=
  if is_empty jd_exp then Ok false
  else if negb (is_required jd_exp) then Ok true
  else
    match resume_exp with
    | [] => Ok false
    | _ =>
        let jd_min := get (min_years jd_exp) (PyInt 0) in
        let jd_max := jd_max_of (max_years jd_exp) in
        let jd_fields := fields_of jd_exp in
        total_exp ← sum_years (PyInt 0) resume_exp;
        below ← py_lt total_exp jd_min;
        if below || exceeds total_exp jd_max then Ok false
        else
          match jd_fields with
          | [] => Ok true
          | _ =>
              Ok (existsb (λ jd_field,
                    existsb (field_found use_fuzzy_matching jd_field) resume_exp)
                  jd_fields)
          end
    end.

(** The test of the inner loop of [score_experience_match]: the fuzzy test
    when it is enabled, and the substring test whenever that one fails. *)
Definition field_matched (use_fuzzy_matching : bool) (jd_field : string) (exp : experience_entry)
    : bool :=
  let exp_field := normalize_field_name (field exp) in
  if use_fuzzy_matching && fields_similar jd_field exp_field then true
  else contains (lower jd_field) exp_field.

(** [matched_fields] after the loop over [jd_fields]. *)
Definition matched_fields (use_fuzzy_matching : bool) (jd_fields : list string)
    (resume_exp : list experience_entry) : nat :=
  length (filter (λ jd_field, existsb (field_matched use_fuzzy_matching jd_field) resume_exp = true)
                 jd_fields).

(** The points of the first component, inside the [try].  The product
    [jd_min * 0.8] is written as the exact product by eight tenths; Python
    multiplies by the double next to 0.8 and rounds (see
    [short_binary_minimum] for where the comparison comes out the same). *)
Definition years_points (total_exp : pynum) (jd_min : option pynum) (jd_max : bound) : exn Q :=
  meets_min ← py_ge total_exp jd_min;
  let meets_max := negb (exceeds total_exp jd_max) in
  if meets_min && meets_max then Ok 30%Q
  else if exceeds total_exp jd_max then Ok 20%Q
  else
    is_close ← py_compare ">=" (λ x y, Qle_bool (y * (8 # 10)) x) total_exp jd_min;
    if (is_close : bool) then Ok 15%Q else Ok 0%Q.

(** The [except TypeError] clause of [score_experience_match]. *)
Definition on_type_error (e : exception) : exn Q :=
  match e with
  | TypeError msg =>
      if contains "not supported between instances of 'float' and 'NoneType'" msg
      then Raise (FloatNoneComparisonError
                    "Unable to compare experience years due to missing or invalid data in JD or resume.")
      else Raise e
  | _ => Raise e
  end.

Definition fields_points (use_fuzzy_matching : bool) (jd_fields : list string)
    (resume_exp : list experience_entry) : Q :=
  match jd_fields with
  | [] => 70
  | _ => (num (matched_fields use_fuzzy_matching jd_fields resume_exp)
          / num (length jd_fields) * 70)%Q
  end.

Definition score_experience_match (jd_exp : jd_experience)
    (resume_exp : list experience_entry) (use_fuzzy_matching : bool) : exn Q :=
  if is_empty jd_exp then Ok 0%Q
  else
    match resume_exp with
    | [] => Ok 0%Q
    | _ =>
        let jd_min := get (min_years jd_exp) (PyInt 0) in
        let jd_max := jd_max_of (max_years jd_exp) in
        let jd_fields := fields_of jd_exp in
        total_exp ← sum_years (PyInt 0) resume_exp;
        score ← try_except (years_points total_exp jd_min jd_max) on_type_error;
        let score := (score + fields_points use_fuzzy_matching jd_fields resume_exp)%Q in
        Ok (round2 (py_min score 100))
    end.

(** *** normalize_jd_experience and normalize_resume_experience *)

(** [float(n)] of a number. *)
Definition to_float (n : pynum) : pynum := PyFloat (value_of n).

(** [[field.lower().strip() for field in fields if field]] *)
Definition normalize_fields (jd_fields : list string) : list string :=
  (λ field, strip (lower field)) <$> filter (λ field, field ≠ EmptyString) jd_fields.

(** The argument is [None] when no dict could be read from the answer of the
    model.  On a dict with keys, the fields are rewritten when the key is
    there (iterating over [None] raises), [min_years] becomes a float, or the
    integer 0 when it is [None] or missing, and [max_years] a float, or
    [None]. *)
Definition normalize_jd_experience (jd_exp : option jd_experience)
    : exn (option jd_experience) :=
  match jd_exp with
  | None => Ok None
  | Some jd =>
      if is_empty jd then Ok (Some jd)
      else
        jd_fields ← match fields jd with
                    | Missing => Ok Missing
                    | PyNone => Raise (TypeError "'NoneType' object is not iterable")
                    | Val l => Ok (Val (normalize_fields l))
                    end;
        let jd_min := match min_years jd with
                      | Val n => to_float n
                      | _ => PyInt 0
                      end in
        let jd_max := match max_years jd with
                      | Val n => Val (to_float n)
                      | _ => PyNone
                      end in
        Ok (Some (JdExperience (required jd) (Val jd_min) jd_max jd_fields))
  end.

(** [entry[key] = entry[key].lower().strip()] when [entry.get(key)] is
    true. *)
Definition normalize_text (text : option string) : option string :=
  match text with
  | Some t => if truthy t then Some (strip (lower t)) else Some t
  | None => None
  end.

Definition normalize_entry (entry : experience_entry) : experience_entry :=
  ExperienceEntry
    (normalize_text (title entry))
    (match years entry with
     | Val n => Val (to_float n)
     | _ => Val (PyFloat 0)
     end)
    (normalize_text (field entry)).

Definition normalize_resume_experience (resume_exp : list experience_entry)
    : list experience_entry :=
  normalize_entry <$> resume_exp.

(** *** match_experience

    [field_years] is a dict; its items are kept in the order of insertion,
    each key once. *)

(** [d[key] = value] *)
Definition dict_set (key : string) (value : pynum) (d : list (string * pynum))
    : list (string * pynum) :=
  if bool_decide (key ∈ d.*1)
  then (λ item, if bool_decide (item.1 = key) then (key, value) else item) <$> d
  else d ++ [(key, value)].

(** [{field.lower(): 0 for field in required_fields}] *)
Definition initial_field_years (required_fields : list string) : list (string * pynum) :=
  foldl (λ d req_field, dict_set (lower req_field) (PyInt 0) d) [] required_fields.

(** [field_years[key] += exp_years]; the key is one of those the
    comprehension has put in the dict.  Adding [None] raises. *)
Definition add_years (key : string) (exp_years : option pynum) (d : list (string * pynum))
    : exn (list (string * pynum)) :=
  mapM (λ item,
          if bool_decide (item.1 = key) then
            match exp_years with
            | Some y => Ok (item.1, py_add item.2 y)
            | None =>
                Raise (TypeError ("unsupported operand type(s) for +=: '"
                                  +:+ type_name item.2 +:+ "' and 'NoneType'"))
            end
          else Ok item)
       d.

(** The inner loop, over the required fields, for one entry of the resume. *)
Fixpoint add_entry (required_fields : list string) (exp_field : string)
    (exp_years : option pynum) (d : list (string * pynum)) : exn (list (string * pynum)) :=
  match required_fields with
  | [] => Ok d
  | req_field :: rest =>
      d' ← (if contains (lower req_field) exp_field
            then add_years (lower req_field) exp_years d
            else Ok d);
      add_entry rest exp_field exp_years d'
  end.

(** The outer loop, over the entries of the resume. *)
Fixpoint accumulate (required_fields : list string) (resume_experience : list experience_entry)
    (d : list (string * pynum)) : exn (list (string * pynum)) :=
  match resume_experience with
  | [] => Ok d
  | exp :: rest =>
      let exp_field := lower (default EmptyString (field exp)) in
      let exp_years := get (years exp) (PyInt 0) in
      d' ← add_entry required_fields exp_field exp_years d;
      accumulate required_fields rest d'
  end.

(** The last loop: [False] at the first field below the minimum. *)
Fixpoint all_fields_meet (jd_min : option pynum) (items : list (string * pynum)) : exn bool :=
  match items with
  | [] => Ok true
  | item :: rest =>
      below ← py_lt item.2 jd_min;
      if (below : bool) then Ok false else all_fields_meet jd_min rest
  end.

Definition match_experience (jd : jd_experience) (resume_experience : list experience_entry)
    : exn bool :=
  required_fields ← match fields jd with
                    | Missing => Ok []
                    | PyNone => Raise (TypeError "'NoneType' object is not iterable")
                    | Val l => Ok l
                    end;
  let jd_min := get (min_years jd) (PyInt 0) in
  field_years ← accumulate required_fields resume_experience
                  (initial_field_years required_fields);
  all_fields_meet jd_min field_years.

(** *** extract_dict_from_text and extract_list_from_text *)

(** [re.sub] of the pattern [(?:python)?] by the empty text: at each
    position the pattern matches the word python when it stands there and
    the empty text otherwise, and every match is replaced by nothing; so the
    occurrences of the word, found from left to right, are removed.  [skip]
    counts the characters still covered by the last match. *)
Fixpoint sub_python (skip : nat) (text : string) : string :=
  match text with
  | EmptyString => EmptyString
  | String c r =>
      match skip with
      | S k => sub_python k r
      | O =>
          if startswith "python" text then sub_python 5 r
          else String c (sub_python 0 r)
      end
  end.

(** The text up to the first [close], that character included. *)
Fixpoint through_first (close : ascii) (s : string) : option string :=
  match s with
  | EmptyString => None
  | String c r =>
      if bool_decide (c = close) then Some (String c EmptyString)
      else match through_first close r with
           | Some t => Some (String c t)
           | None => None
           end
  end.

(** [re.search] of the pattern made of the character [opening], any
    characters, as few as possible, and the character [close]: the text of
    the leftmost match. *)
Fixpoint search_lazy (opening close : ascii) (s : string) : option string :=
  match s with
  | EmptyString => None
  | String c r =>
      if bool_decide (c = opening) then
        match through_first close r with
        | Some t => Some (String c t)
        | None => search_lazy opening close r
        end
      else search_lazy opening close r
  end.

(** The first line of both functions; replacing the empty text by the empty
    text leaves a text as it is. *)
Definition cleaned_text (text : string) : string := strip (sub_python 0 text).

Section LiteralEval.

(** [ast.literal_eval], of the standard library: the value of a literal, or
    an error. *)
Context {A : Type} (literal_eval : string → exn A).

Definition extract_dict_from_text (text : string) : option A :=
  let cleaned := cleaned_text text in
  match search_lazy "{" "}" cleaned with
  | Some matched =>
      match literal_eval matched with
      | Ok value => Some value
      | Raise _ => None
      end
  | None => None
  end.

Definition extract_list_from_text (text : string) : option A :=
  let cleaned := cleaned_text text in
  match search_lazy "[" "]" cleaned with
  | Some matched =>
      match literal_eval matched with
      | Ok value => Some value
      | Raise _ => None
      end
  | None => None
  end.

End LiteralEval.

End ExperTest.

(** ** utils/education_extract.py *)

Module EducationExtract.
Import Py.

(** [degree_rank], in the order of the dict. *)
Definition degree_rank : list (string * Q) :=
  [("phd", 4); ("mtech", 3); ("msc", 3); ("masters", 3);
   ("btech", 2); ("bsc", 2); ("bachelor", 2);
   ("diploma", 1);
   ("pu", 5 # 10); ("12th", 5 # 10); ("puc", 5 # 10);
   ("10th", 4 # 10); ("sslc", 4 # 10)]%Q.

(** [degree_rank.get(key, 0)] *)
Definition rank_of (key : string) : Q :=
  match find (λ kv, bool_decide (fst kv = key)) degree_rank with
  | Some kv => snd kv
  | None => 0
  end.

Definition normalize_degree_name (degree : option string) : option string :=
  match degree with
  | None => None
  | Some d =>
      if negb (truthy d) then None
      else
        match find (λ kv, contains (fst kv) (lower d)) degree_rank with
        | Some kv => Some (fst kv)
        | None => None
        end
  end.

(** The value under the key [cgpa] of a resume entry: [None] (or no key), a
    number, or a string; a float that is an infinity or [nan] is kept apart
    from the numbers. *)
Inductive cgpa_value : Type :=
  | CgpaNone
  | CgpaNum (n : pynum)
  | CgpaStr (s : string)
  | CgpaInf (negative : bool)
  | CgpaNaN.

(** A float as the value under the key [cgpa]. *)
Definition cgpa_of_float (x : pyfloat) : cgpa_value :=
  match x with
  | Number q => CgpaNum (PyFloat q)
  | Inf negative => CgpaInf negative
  | NaN => CgpaNaN
  end.

(** A level of the job description's education dict.  [required] is the truth
    value of [jd_entry.get("required", False)]. *)
Record jd_entry : Type := JdEntry {
  required : bool;
  jd_degree : option string;
  jd_cgpa : option pynum
}.

(** An entry of the resume's education list. *)
Record resume_entry : Type := ResumeEntry {
  level : string;
  degree : option string;
  cgpa : cgpa_value
}.

Definition get_resume_entry (resume_list : list resume_entry) (level_name : string)
    : option resume_entry :=
  find (λ entry, bool_decide (lower (level entry) = lower level_name)) resume_list.

Definition USE_FUZZY_MATCHING : bool := true.

Definition similar (a b : string) : Q := Difflib.ratio (lower a) (lower b).

Definition degrees_similar (degree1 degree2 : option string) : bool :=
  match degree1, degree2 with
  | Some d1, Some d2 =>
      if negb (truthy d1) || negb (truthy d2) then false
      else Qlt_bool (7 # 10) (similar d1 d2)
  | _, _ => false
  end.

(** [resume_cgpa < jd_cgpa] once [resume_cgpa] is known not to be [None]:
    minus infinity is below every number, plus infinity below none, and
    every comparison with [nan] is false. *)
Definition cgpa_below (resume_cgpa : cgpa_value) (jd_cgpa : pynum) : exn bool :=
  match resume_cgpa with
  | CgpaNum n => Ok (Qlt_bool (value_of n) (value_of jd_cgpa))
  | CgpaStr _ =>
      Raise (TypeError ("'<' not supported between instances of 'str' and '"
                        +:+ type_name jd_cgpa +:+ "'"))
  | CgpaInf negative => Ok negative
  | CgpaNaN => Ok false
  | CgpaNone => Ok false
  end.

Definition education_level_match (jd : jd_entry) (resume : option resume_entry)
    (level_name : string) : exn bool :=
  if negb (required jd) then Ok true
  else
    match resume with
    | None => Ok false
    | Some resume_entry =>
        let degrees_ok :=
          if bool_decide (level_name = "UG") || bool_decide (level_name = "PG") then
            match normalize_degree_name (jd_degree jd),
                  normalize_degree_name (degree resume_entry) with
            | Some jd_key, Some resume_key =>
                if Qlt_bool (rank_of resume_key) (rank_of jd_key) then false
                else
                  match jd_degree jd with
                  | Some d =>
                      if truthy d then
                        if USE_FUZZY_MATCHING
                        then degrees_similar (jd_degree jd) (degree resume_entry)
                        else
                          match degree resume_entry with
                          | Some r => contains (lower d) (lower r)
                          | None => false
                          end
                      else true
                  | None => true
                  end
            | _, _ => false
            end
          else true in
        if negb degrees_ok then Ok false
        else
          match jd_cgpa jd with
          | None => Ok true
          | Some minimum =>
              match cgpa resume_entry with
              | CgpaNone => Ok false
              | resume_cgpa =>
                  below ← cgpa_below resume_cgpa minimum;
                  Ok (negb below)
              end
          end
    end.

Definition EDUCATION_LEVEL_WEIGHTS : list (string * Q) :=
  [("10th", 1 # 10); ("PU", 2 # 10); ("UG", 5 # 10); ("PG", 2 # 10)]%Q.

Section Parsing.

(** [float(s)] on a string, a built-in of Python: the float that the text
    spells, or a [ValueError]. *)
Context (py_float : string → exn pyfloat).

(** What stands inside the [try] of [parse_cgpa]: the float read in the text
    of the value. *)
Definition parse_cgpa_body (cgpa : cgpa_value) : exn (option pyfloat) :=
  match cgpa with
  | CgpaNone => Ok None
  | CgpaNum n => Ok (Some (Number (value_of n)))
  | CgpaStr s =>
      x ← py_float (remove_char "%" (strip s));
      Ok (Some x)
  | CgpaInf negative => Ok (Some (Inf negative))
  | CgpaNaN => Ok (Some NaN)
  end.

(** [not cgpa]: [None], a zero and the empty string. *)
Definition cgpa_falsy (cgpa : cgpa_value) : bool :=
  match cgpa with
  | CgpaNone => true
  | CgpaNum n => Qeq_bool (value_of n) 0
  | CgpaStr s => negb (truthy s)
  | CgpaInf _ | CgpaNaN => false
  end.

Definition parse_cgpa (cgpa : cgpa_value) : exn (option pyfloat) :=
  if cgpa_falsy cgpa then Ok None
  else try_except (parse_cgpa_body cgpa) (λ _, Ok None).

End Parsing.

(** *** preprocess_resume_data and preprocess_jd_data of this file *)

(** [entry[key] = entry[key].lower()] when [entry.get(key)] is true. *)
Definition lower_if_set (text : option string) : option string :=
  match text with
  | Some t => if truthy t then Some (lower t) else Some t
  | None => None
  end.

Section Preprocessing.

Context (py_float : string → exn pyfloat).

(** Every entry has its [cgpa] replaced by the parsed one, and its degree
    and its level put in lower case. *)
Definition preprocess_resume_data (resume_data : list resume_entry) : exn (list resume_entry) :=
  mapM (λ entry,
          parsed ← parse_cgpa py_float (cgpa entry);
          Ok (ResumeEntry
                (if truthy (level entry) then lower (level entry) else level entry)
                (lower_if_set (degree entry))
                (match parsed with Some x => cgpa_of_float x | None => CgpaNone end)))
       resume_data.

End Preprocessing.

(** Every entry of the dict has its degree put in lower case. *)
Definition preprocess_jd_data (jd_data : gmap string jd_entry) : gmap string jd_entry :=
  (λ entry, JdEntry (required entry) (lower_if_set (jd_degree entry)) (jd_cgpa entry))
    <$> jd_data.

End EducationExtract.

(** ** app.py: the education score and the aggregation of [upload] *)

Module App.
Import Py.
Import EducationExtract.

Definition EDUCATION_LEVEL_WEIGHTS : list (string * Q) :=
  [("10th", 1 # 10); ("PU", 2 # 10); ("UG", 5 # 10); ("PG", 2 # 10)]%Q.

Definition get_resume_entry (resume_list : list resume_entry) (level_name : string)
    : option resume_entry :=
  find (λ entry, bool_decide (lower (level entry) = lower level_name)) resume_list.

(** [jd_education.get(level, {"required": False})] *)
Definition jd_entry_of (jd_education : gmap string jd_entry) (level_name : string) : jd_entry :=
  default (JdEntry false None None) (jd_education !! level_name).

Section Parsing.

Context (py_float : string → exn pyfloat).

Definition parse_cgpa (cgpa : cgpa_value) : exn (option pyfloat) :=
  if cgpa_falsy cgpa then Ok None
  else try_except (parse_cgpa_body py_float cgpa) (λ _, Ok None).

(** The value stored back under the key [cgpa]. *)
Definition parsed_cgpa (cgpa : cgpa_value) : cgpa_value :=
  match parse_cgpa cgpa with
  | Ok (Some x) => cgpa_of_float x
  | _ => CgpaNone
  end.

(** [preprocess_resume_data]: every entry has its [cgpa] replaced by the
    parsed one. *)
Definition preprocess_resume_data (resume_data : list resume_entry) : exn (list resume_entry) :=
  mapM (λ entry,
          parsed ← parse_cgpa (cgpa entry);
          Ok (ResumeEntry (level entry) (degree entry)
                (match parsed with Some x => cgpa_of_float x | None => CgpaNone end)))
       resume_data.

(** The loop over [EDUCATION_LEVEL_WEIGHTS.items()]; the state is
    [(score, total_weight)]. *)
Fixpoint weigh (jd_education : gmap string jd_entry) (resume_education : list resume_entry)
    (weights : list (string * Q)) (acc : Q * Q) : exn (Q * Q) :=
  match weights with
  | [] => Ok acc
  | (level_name, weight) :: rest =>
      let jd := jd_entry_of jd_education level_name in
      let resume := get_resume_entry resume_education level_name in
      let total_weight := (snd acc + weight)%Q in
      matched ← education_level_match jd resume level_name;
      weigh jd_education resume_education rest
            (if (matched : bool) then (fst acc + weight)%Q else fst acc, total_weight)
  end.

Definition evaluate_education_score (jd_education : gmap string jd_entry)
    (resume_education : list resume_entry) : exn Q :=
  try_except
    (resume_education ← preprocess_resume_data resume_education;
     '(score, total_weight) ← weigh jd_education resume_education EDUCATION_LEVEL_WEIGHTS (0, 0)%Q;
     Ok (if Qlt_bool 0 total_weight then round2 (score / total_weight * 100) else 0%Q))
    (λ _, Ok 0%Q).

End Parsing.

(** [all(education_level_match(...) for level in levels)]: it stops at the
    first level that does not match. *)
Fixpoint all_levels_match (jd_education : gmap string jd_entry)
    (resume_education : list resume_entry) (levels : list string) : exn bool :=
  match levels with
  | [] => Ok true
  | level_name :: rest =>
      matched ← education_level_match (jd_entry_of jd_education level_name)
                  (get_resume_entry resume_education level_name) level_name;
      if (matched : bool) then all_levels_match jd_education resume_education rest
      else Ok false
  end.

Definition education_result_of (jd_education : gmap string jd_entry)
    (resume_education : list resume_entry) : exn bool :=
  all_levels_match jd_education resume_education ["10th"; "PU"; "UG"; "PG"].

(** The experience step of [upload], lines 463 to 479, without its
    [except FloatNoneComparisonError] clause (see [upload_analysis]). *)
Definition experience_step (experience_required : bool)
    (jd_exp : ExperTest.jd_experience) (resume_exp : list ExperTest.experience_entry)
    : exn (bool * option Q) :=
  if experience_required then
    experience_result ← ExperTest.evaluate_experience jd_exp resume_exp true;
    experience_score ← ExperTest.score_experience_match jd_exp resume_exp true;
    Ok (experience_result, Some experience_score)
  else Ok (true, None).

(** [sum(scores)] *)
Definition sum_scores (scores : list Q) : Q := foldl Qplus 0%Q scores.

(** Lines 491 to 494: the verdict and the overall score. *)
Definition overall_result_of (skills_result education_result experience_result : bool) : string :=
  if skills_result && education_result && experience_result then "Pass" else "Fail".

Definition overall_score_of (match_count education_score : Q) (experience_score : option Q) : Q :=
  let scores := omap id [Some match_count; Some education_score; experience_score] in
  match scores with
  | [] => 0
  | _ => (sum_scores scores / num (length scores))%Q
  end.

(** What the analysis hands to the page (and to [save_result]). *)
Record report : Type := Report {
  skills_match : bool;
  skills_score : Q;
  education_match : bool;
  education_score : Q;
  experience_match : option bool;
  experience_score : option Q;
  overall_result : string;
  overall_score : Q
}.

Inductive response : Type :=
  | Analysed (r : report)
  | ExperienceDataError (message : string)
  | AnalysisFailed.

Record jd_data : Type := JdData {
  skills_expression : string;
  jd_education : gmap string jd_entry;
  jd_experience : ExperTest.jd_experience
}.

Record resume_data : Type := ResumeData {
  resume_skills : gset string;
  resume_education : list resume_entry;
  resume_experience : list ExperTest.experience_entry
}.

Section Upload.

Context (py_float : string → exn pyfloat).

(** The analysis of [upload], from the skills step to the combined result. *)
Definition upload_analysis (jd : jd_data) (resume : resume_data) (experience_required : bool)
    : response :=
  match SkillExtract.evaluate_resume (skills_expression jd) (resume_skills resume) with
  | Raise _ => AnalysisFailed
  | Ok (skills_result, match_count) =>
      match experience_step experience_required (jd_experience jd) (resume_experience resume) with
      | Raise (FloatNoneComparisonError message) => ExperienceDataError message
      | Raise _ => AnalysisFailed
      | Ok (experience_result, experience_score) =>
          match education_result_of (jd_education jd) (resume_education resume),
                evaluate_education_score py_float (jd_education jd) (resume_education resume) with
          | Ok education_result, Ok education_score =>
              Analysed (Report skills_result match_count education_result education_score
                          (if experience_required then Some experience_result else None)
                          (if experience_required then experience_score else None)
                          (overall_result_of skills_result education_result experience_result)
                          (overall_score_of match_count education_score experience_score))
          | _, _ => AnalysisFailed
          end
      end
  end.

End Upload.

(** *** allowed_file *)

(** [app.config['ALLOWED_EXTENSIONS']] *)
Definition ALLOWED_EXTENSIONS : gset string := {[ "pdf"; "docx"; "txt" ]}.

(** [s.rsplit(sep, 1)[1]]: the text after the last [sep], when [s] has
    one. *)
Fixpoint after_last (sep : ascii) (s : string) : option string :=
  match s with
  | EmptyString => None
  | String c r =>
      match after_last sep r with
      | Some tail => Some tail
      | None => if bool_decide (c = sep) then Some r else None
      end
  end.

(** The index [1] is only taken when the name has a dot, so that it is
    always there. *)
Definition allowed_file (filename : string) : bool :=
  contains "." filename &&
  match after_last "." filename with
  | Some extension => bool_decide (lower extension ∈ ALLOWED_EXTENSIONS)
  | None => false
  end.

End App.

(** ** utils/db_operations.py: the table of users

    The table [users] has the name as its primary key and the password as its
    other column: it holds at most one password for a name, and it is a
    finite map from names to passwords.  Text is compared byte by byte. *)

Module DbOperations.

(** [INSERT INTO users]: a name that is already there violates the primary
    key, [sqlite3.IntegrityError] is caught and nothing is written. *)
Definition register_user (username password : string) (users : gmap string string)
    : bool * gmap string string :=
  match users !! username with
  | Some _ => (false, users)
  | None => (true, <[username := password]> users)
  end.

(** [SELECT password FROM users WHERE username = ?], then the comparison of
    the row with the password given. *)
Definition verify_user (username password : string) (users : gmap string string) : bool :=
  match users !! username with
  | Some stored => bool_decide (stored = password)
  | None => false
  end.

End DbOperations.

(** * Vocabulary of the specification *)

(** ** Vocabulary of the statements about skill expressions *)

Module SkillSpec.
Import Py SkillExtract.

Fixpoint countb (p : string → bool) (l : list string) : nat :=
  match l with
  | [] => 0
  | x :: r => (if p x then 1 else 0) + countb p r
  end.

Definition is_binary (token : string) : bool :=
  bool_decide (token = "and") || bool_decide (token = "or").

Definition is_open (token : string) : bool := bool_decide (token = "(").

Definition is_close (token : string) : bool := bool_decide (token = ")").

(** A token that is neither an operator nor a parenthesis. *)
Definition is_literal (token : string) : bool :=
  negb (is_operator token) && negb (is_open token) && negb (is_close token).

(** Parentheses are balanced: no closing one without an earlier opening one
    left to close, and none left open at the end. *)
Fixpoint balanced_from (depth : nat) (tokens : list string) : bool :=
  match tokens with
  | [] => bool_decide (depth = 0)
  | token :: rest =>
      if is_open token then balanced_from (S depth) rest
      else if is_close token then
        match depth with
        | O => false
        | S d => balanced_from d rest
        end
      else balanced_from depth rest
  end.

Definition balanced (tokens : list string) : bool := balanced_from 0 tokens.

(** An operand can start at [token]: a literal, an opening parenthesis, or
    the operator [not]. *)
Definition starts_operand (token : string) : bool :=
  is_literal token || is_open token || bool_decide (token = "not").

(** An operand can end at [token]: a literal or a closing parenthesis. *)
Definition ends_operand (token : string) : bool := is_literal token || is_close token.

(** Some operator of the list is left without an operand: no operand starts
    right after it, or it is a binary operator and no operand ends right
    before it.  [previous] is the token before the list, if any. *)
Fixpoint lacks_operand (previous : option string) (tokens : list string) : bool :=
  match tokens with
  | [] => false
  | token :: rest =>
      (is_operator token
       && negb match rest with
               | next :: _ => starts_operand next
               | [] => false
               end)
      || (is_binary token
          && negb match previous with
                  | Some before => ends_operand before
                  | None => false
                  end)
      || lacks_operand (Some token) rest
  end.

(** The ways an expression is malformed: it is empty, it has no token, its
    parentheses do not balance, or one of its operators is left without an
    operand.  The tokens are taken as the evaluator reads them, after their
    normalization. *)
Definition malformed (skills_expression : string) : Prop :=
  let tokens := normalized_tokens_of skills_expression in
  skills_expression = EmptyString
  ∨ tokens = []
  ∨ balanced tokens = false
  ∨ lacks_operand None tokens = true.

(** The score as the specification words it: the share of the required
    skills that the candidate has, as a percentage with two decimals, and
    zero when nothing is required. *)
Definition overlap_score (required candidate : gset string) : Q :=
  round2 (if bool_decide (required = ∅) then 0
          else num (size (required ∩ candidate)) / num (size required) * 100)%Q.

(** A token between quotes, as the normalization of the tokens tests it. *)
Definition is_quoted (token : string) : bool :=
  startswith (String dq EmptyString) token && endswith_char dq token.

(** The normalized literal values of the quoted tokens of the whole
    expression. *)
Definition literal_values (skills_expression : string) : list string :=
  normalize_token <$>
    filter (λ token, is_quoted token = true) (findall_tokens skills_expression).

(** The set of those values that are not empty. *)
Definition quoted_values (skills_expression : string) : gset string :=
  list_to_set (filter (λ value, value ≠ EmptyString) (literal_values skills_expression)).

(** A skill set as the data model wants it: every member in lower case and
    trimmed. *)
Definition normalized_set (skills : gset string) : Prop :=
  ∀ skill, skill ∈ skills → lower (strip skill) = skill.

(** Expressions used in the examples. *)
Definition python_and_java : string := quoted "Python" +:+ " AND " +:+ quoted "Java".

Definition python_and_java_or_go : string :=
  quoted "Python" +:+ " AND (" +:+ quoted "Java" +:+ " OR " +:+ quoted "Go" +:+ ")".

(** A skill named like a keyword: the literal OR. *)
Definition python_and_quoted_or : string := quoted "Python" +:+ " AND " +:+ quoted "OR".

(** An operator without its right operand. *)
Definition python_and : string := quoted "Python" +:+ " AND".

(** A literal that is blank between its quotes. *)
Definition python_or_blank : string := quoted "Python" +:+ " OR " +:+ quoted " ".

(** The operator [not] after its operand, with nothing behind it. *)
Definition python_not : string := quoted "Python" +:+ " NOT".

(** The operator [and] after both of its operands. *)
Definition python_java_and : string := quoted "Python" +:+ " " +:+ quoted "Java" +:+ " AND".

(** Boolean formulas over skill names, and their value for a candidate. *)
Inductive formula : Type :=
  | Lit (skill : string)
  | Not (a : formula)
  | And (a b : formula)
  | Or (a b : formula).

Fixpoint holds (skills : gset string) (f : formula) : bool :=
  match f with
  | Lit skill => bool_decide (skill ∈ skills)
  | Not a => negb (holds skills a)
  | And a b => holds skills a && holds skills b
  | Or a b => holds skills a || holds skills b
  end.

(** The binding strength of the outermost connective. *)
Definition level_of (f : formula) : nat :=
  match f with
  | Lit _ => 4
  | Not _ => 3
  | And _ _ => 2
  | Or _ _ => 1
  end.

Definition parens (wrap : bool) (tokens : list string) : list string :=
  if wrap then "(" :: tokens ++ [")"] else tokens.

(** The formula written in infix with the usual conventions: [or] binds
    less than [and], which binds less than [not]; binary operators group to
    the left; parentheses go around a part that binds less than its place
    requires ([level] is what the place requires). *)
Fixpoint infix (level : nat) (f : formula) : list string :=
  parens (level_of f <? level)%nat
    match f with
    | Lit skill => [skill]
    | Not a => "not" :: infix 4 a
    | And a b => infix 2 a ++ "and" :: infix 3 b
    | Or a b => infix 1 a ++ "or" :: infix 2 b
    end.

(** Every skill name of the formula is a literal token: it does not spell
    an operator or a parenthesis. *)
Fixpoint named (f : formula) : bool :=
  match f with
  | Lit skill => is_literal skill
  | Not a => named a
  | And a b | Or a b => named a && named b
  end.

(** The skill names of a formula, from left to right. *)
Fixpoint names (f : formula) : list string :=
  match f with
  | Lit skill => [skill]
  | Not a => names a
  | And a b | Or a b => names a ++ names b
  end.

Fixpoint no_quote (s : string) : bool :=
  match s with
  | EmptyString => true
  | String c r => negb (bool_decide (c = dq)) && no_quote r
  end.

(** A skill name as the data model has it: not empty, without a double
    quote, in lower case and trimmed. *)
Definition plain_name (s : string) : Prop :=
  s ≠ EmptyString ∧ no_quote s = true ∧ lower (strip s) = s.

(** A token as it is written in an expression: a literal between quotes,
    an operator or a parenthesis as it is. *)
Definition written (token : string) : string :=
  if is_literal token then quoted token else token.

(** The text of a token list: each token as it is written, followed by a
    space. *)
Fixpoint text_of (tokens : list string) : string :=
  match tokens with
  | [] => EmptyString
  | token :: rest => written token +:+ " " +:+ text_of rest
  end.

(** A token of a well-written expression: an operator, a parenthesis, or a
    plain skill name. *)
Definition token_ok (token : string) : Prop :=
  is_literal token = false ∨ plain_name token.

(** Whether a text ends in a word character, [before] telling it for the
    empty text. *)
Fixpoint ends_in_word (before : bool) (s : string) : bool :=
  match s with
  | EmptyString => before
  | String c r => ends_in_word (is_word_char c) r
  end.

(** The top of the operator stack lets a part of binding strength [level]
    start: the stack is empty, or its top is an opening parenthesis or an
    operator that binds less. *)
Definition admits (level : nat) (operators : list string) : Prop :=
  match operators with
  | [] => True
  | top :: _ => top = "(" ∨ (is_operator top = true ∧ precedence top < level)
  end.

(** Running [tokens] from the stacks [operands] and [operators] leaves the
    value [v] pending on top of them: some values and some operators, each
    binding at least as much as [level], which once applied leave [v]. *)
Definition leaves (skills : gset string) (tokens : list string) (level : nat)
    (operands : list bool) (operators : list string) (v : bool) : Prop :=
  ∃ pending values,
    run skills tokens (Stacks operands operators)
    = Ok (Stacks (values ++ operands) (pending ++ operators))
    ∧ Forall (λ op, is_operator op = true ∧ level ≤ precedence op) pending
    ∧ ∀ below, apply_remaining pending (values ++ below) = Ok (v :: below).

(** Python, or Java without Go. *)
Definition python_or_java_without_go : formula :=
  Or (Lit "python") (And (Lit "java") (Not (Lit "go"))).

(** The stack invariants of the evaluator. *)
Definition operators_only (operators : list string) : Prop :=
  Forall (λ op, is_operator op = true ∨ op = "(") operators.

Definition surplus (st : stacks) : Z :=
  Z.of_nat (length (operand_stack st)) - Z.of_nat (countb is_binary (operator_stack st)).

End SkillSpec.

(** ** Vocabulary of the statements about experience *)

Module ExperSpec.
Import Py ExperTest.

(** The years of an entry as a number: zero when the key is missing. *)
Definition years_of (entry : experience_entry) : Q :=
  match years entry with
  | Val n => value_of n
  | _ => 0
  end.

(** The sum of all records' years. *)
Definition total_years (resume_exp : list experience_entry) : Q :=
  foldr (λ entry acc, years_of entry + acc)%Q 0%Q resume_exp.

(** No record holds [None] for its years. *)
Definition numeric_years (resume_exp : list experience_entry) : Prop :=
  Forall (λ entry, years entry ≠ PyNone) resume_exp.

(** The minimum of the requirement, zero when the key is missing. *)
Definition minimum_of (jd_exp : jd_experience) : Q :=
  match min_years jd_exp with
  | Val n => value_of n
  | _ => 0
  end.

(** *** Years that floating point adds without rounding

    Python computes with doubles, the development with exact rationals.  A
    float with at most ten binary places (a multiple of 1/1024: 2.5 and 0.75
    are such, 2.3 and 0.7 are not) and below 2^30 is a double with bits to
    spare, and so is every sum of such numbers that stays below 2^30: doubles
    hold 53 bits, these need at most 40.  On them [sum] and [+=] round
    nothing, with or without compensated summation, and the exact total is
    the total that Python computes. *)

(** At most ten binary places: a multiple of 1/1024. *)
Definition ten_binary_places (q : Q) : bool :=
  Qeq_bool (inject_Z (Qfloor (q * 1024))) (q * 1024).

(** The sizes of all records' years, added up. *)
Definition total_size (resume_exp : list experience_entry) : Q :=
  foldr (λ entry acc, Qabs (years_of entry) + acc)%Q 0%Q resume_exp.

(** Years that are added without rounding. *)
Definition short_binary_years (resume_exp : list experience_entry) : Prop :=
  Forall (λ entry, ten_binary_places (years_of entry) = true) resume_exp
  ∧ (total_size resume_exp < 1073741824)%Q.

(** A minimum whose eight tenths are compared without error with a total of
    at most ten binary places: when the exact product has ten binary places
    itself, the rounded product [jd_min * 0.8] is that number; when it has
    not, it lies at least 1/5120 away from every such total, and the rounded
    product less than 2^-22 away from it, on the same side of each of
    them. *)
Definition short_binary_minimum (jd_exp : jd_experience) : Prop :=
  ten_binary_places (minimum_of jd_exp) = true
  ∧ (Qabs (minimum_of jd_exp) < 1073741824)%Q.

(** [total] lies in the closed range of the requirement; a missing or [None]
    maximum leaves the range unbounded. *)
Definition within_range (jd_exp : jd_experience) (total : Q) : Prop :=
  (minimum_of jd_exp <= total)%Q
  ∧ match max_years jd_exp with
    | Val m => (total <= value_of m)%Q
    | _ => True
    end.

(** [total] is above a maximum that is there. *)
Definition above_maximum (jd_exp : jd_experience) (total : Q) : Prop :=
  match max_years jd_exp with
  | Val m => (value_of m < total)%Q
  | _ => False
  end.

(** [a] occurs in [b] as a substring. *)
Definition substring_of (a b : string) : Prop := ∃ before after, b = before +:+ a +:+ after.

(** Both texts are there and their similarity ratio is above 0.7. *)
Definition fuzzy_similar (a b : string) : Prop :=
  a ≠ EmptyString ∧ b ≠ EmptyString ∧ (7 # 10 < Difflib.ratio (lower a) (lower b))%Q.

(** The field of a record as the matchers read it: in lower case, empty
    when there is none. *)
Definition field_text (entry : experience_entry) : string :=
  match field entry with
  | Some f => lower f
  | None => EmptyString
  end.

(** A required field and a record's field match for the pass/fail decision. *)
Definition passes_with (use_fuzzy_matching : bool) (jd_field : string)
    (entry : experience_entry) : Prop :=
  if use_fuzzy_matching then fuzzy_similar jd_field (field_text entry)
  else substring_of (lower jd_field) (field_text entry).

(** A required field and a record's field match for the score. *)
Definition scores_with (use_fuzzy_matching : bool) (jd_field : string)
    (entry : experience_entry) : Prop :=
  (use_fuzzy_matching = true ∧ fuzzy_similar jd_field (field_text entry))
  ∨ substring_of (lower jd_field) (field_text entry).

(** The years component of the score, as the specification gives it. *)
Definition years_component (jd_exp : jd_experience) (total : Q) : Q :=
  if Qle_bool (minimum_of jd_exp) total
     && match max_years jd_exp with
        | Val m => Qle_bool total (value_of m)
        | _ => true
        end
  then 30
  else if match max_years jd_exp with
          | Val m => Qlt_bool (value_of m) total
          | _ => false
          end
  then 20
  else if Qle_bool ((8 # 10) * minimum_of jd_exp) total then 15
  else 0.

(** The years component follows the rule of the specification: 30 inside
    the range, else 20 above a maximum that is there, else 15 from eight
    tenths of the minimum on, else 0. *)
Definition years_rule (jd_exp : jd_experience) (total points : Q) : Prop :=
  (within_range jd_exp total ∧ points = 30%Q)
  ∨ (¬ within_range jd_exp total ∧ above_maximum jd_exp total ∧ points = 20%Q)
  ∨ (¬ within_range jd_exp total ∧ ¬ above_maximum jd_exp total
     ∧ ((8 # 10) * minimum_of jd_exp <= total)%Q ∧ points = 15%Q)
  ∨ (¬ within_range jd_exp total ∧ ¬ above_maximum jd_exp total
     ∧ ¬ ((8 # 10) * minimum_of jd_exp <= total)%Q ∧ points = 0%Q).

(** [counts P l n]: exactly [n] positions of [l] hold an element with [P]. *)
Inductive counts (P : string → Prop) : list string → nat → Prop :=
  | counts_nil : counts P [] 0
  | counts_yes x l n : P x → counts P l n → counts P (x :: l) (S n)
  | counts_no x l n : ¬ P x → counts P l n → counts P (x :: l) n.

(** The fields component: the share of the required fields that match some
    record, times 70; 70 when no field is required. *)
Definition fields_component (jd_fields : list string) (matched : nat) : Q :=
  match jd_fields with
  | [] => 70
  | _ => (num matched / num (length jd_fields) * 70)%Q
  end.

(** The score the specification gives: both components, capped at 100 and
    rounded to two decimals. *)
Definition capped_score (years_points fields_points : Q) : Q :=
  round2 (py_min (years_points + fields_points) 100).

(** Requirements and records used in the examples. *)
Definition two_to_five_years_python : jd_experience :=
  JdExperience (Val true) (Val (PyInt 2)) (Val (PyInt 5)) (Val ["python"]).

Definition three_years_python : list experience_entry :=
  [ExperienceEntry None (Val (PyInt 3)) (Some "python")].

(** A record whose years are [None]. *)
Definition years_unknown : list experience_entry :=
  [ExperienceEntry (Some "developer") PyNone (Some "python")].

(** A requirement without a minimum ([None]) that is not marked required. *)
Definition minimum_unknown : jd_experience :=
  JdExperience (Val false) PyNone Missing (Val ["python"]).

(** A required field that is a short substring of the record's field. *)
Definition requires_py : jd_experience :=
  JdExperience (Val true) (Val (PyInt 1)) Missing (Val ["py"]).

Definition python_developer : list experience_entry :=
  [ExperienceEntry None (Val (PyFloat 3)) (Some "Python developer")].

End ExperSpec.

(** ** Vocabulary of the statements about education *)

Module EducationSpec.
Import Py EducationExtract.

(** The four levels. *)
Definition levels : list string := ["10th"; "PU"; "UG"; "PG"].

(** The entry as [preprocess_resume_data] of app.py leaves it: the parsed
    CGPA under the key [cgpa]. *)
Definition preprocessed (py_float : string → exn pyfloat) (entry : resume_entry)
    : resume_entry :=
  ResumeEntry (level entry) (degree entry) (App.parsed_cgpa py_float (cgpa entry)).

(** A CGPA that [parse_cgpa] keeps: [None], or a float or an integer other
    than zero; not a text. *)
Definition already_parsed (c : cgpa_value) : Prop :=
  match c with
  | CgpaStr _ => False
  | CgpaNum n => ¬ (value_of n == 0)%Q
  | _ => True
  end.

(** The weights of the satisfied levels over the total weight, as a
    percentage with two decimals. *)
Definition weighted_share (satisfied : string → bool) : Q :=
  round2 (((if satisfied "10th" then 1 # 10 else 0)
           + (if satisfied "PU" then 2 # 10 else 0)
           + (if satisfied "UG" then 5 # 10 else 0)
           + (if satisfied "PG" then 2 # 10 else 0)) / 1 * 100)%Q.

(** A text without white space and without a percent sign. *)
Fixpoint plain (s : string) : bool :=
  match s with
  | EmptyString => true
  | String c r => negb (is_space c) && negb (bool_decide (c = "%"%char)) && plain r
  end.

(** A reader of unsigned decimal numbers, digits with an optional fraction,
    and of the texts [nan], [inf] and [infinity] in either case, standing in
    for [float] in the examples. *)
Fixpoint digits_value (acc : Z) (s : string) : option (Z * nat) :=
  match s with
  | EmptyString => Some (acc, 0)
  | String c r =>
      if is_digit c then
        match digits_value (acc * 10 + Z.of_nat (nat_of_ascii c - 48)) r with
        | Some (v, n) => Some (v, S n)
        | None => None
        end
      else None
  end.

Fixpoint split_at_dot (s : string) : string * option string :=
  match s with
  | EmptyString => (EmptyString, None)
  | String c r =>
      if bool_decide (c = "."%char) then (EmptyString, Some r)
      else let '(whole, fraction) := split_at_dot r in (String c whole, fraction)
  end.

Definition decimal_float (s : string) : exn pyfloat :=
  let failed := Raise (ValueError ("could not convert string to float: '" +:+ s +:+ "'")) in
  if bool_decide (lower (strip s) = "nan") then Ok NaN
  else if bool_decide (lower (strip s) = "inf") || bool_decide (lower (strip s) = "infinity")
  then Ok (Inf false)
  else
    match split_at_dot (strip s) with
    | (EmptyString, _) => failed
    | (whole, None) =>
        match digits_value 0 whole with
        | Some (v, _) => Ok (Number (inject_Z v))
        | None => failed
        end
    | (whole, Some fraction) =>
        match digits_value 0 whole, digits_value 0 fraction with
        | Some (v, _), Some (f, n) =>
            Ok (Number (Qred (inject_Z v + inject_Z f / inject_Z (10 ^ Z.of_nat n))))
        | _, _ => failed
        end
    end.

(** The float [x] is at least the number [minimum]. *)
Definition float_at_least (x : pyfloat) (minimum : pynum) : Prop :=
  match x with
  | Number q => (value_of minimum <= q)%Q
  | Inf negative => negative = false
  | NaN => False
  end.

(** Requirements and records used in the examples: a required level with a
    minimum CGPA of 7. *)
Definition requires_cgpa_7 : jd_entry := JdEntry true None (Some (PyInt 7)).

(** A record of the tenth class whose CGPA is the text nan. *)
Definition tenth_with_nan : resume_entry := ResumeEntry "10th" None (CgpaStr "nan").

Definition ug_with_85_percent : resume_entry := ResumeEntry "UG" (Some "btech") (CgpaStr "8.5%").

(** A level that is not marked required and still names a minimum CGPA, and a
    record of that level without a CGPA. *)
Definition prefers_cgpa_8 : jd_entry := JdEntry false None (Some (PyInt 8)).

Definition ug_without_cgpa : resume_entry := ResumeEntry "UG" (Some "btech") CgpaNone.

End EducationSpec.

(** ** Vocabulary of the statements about the aggregation *)

Module AggregateSpec.
Import Py.

(** The arithmetic mean of the scores that are there. *)
Definition mean_of_present (skills_score education_score : Q) (experience_score : option Q) : Q :=
  match experience_score with
  | Some x => ((skills_score + education_score + x) / 3)%Q
  | None => ((skills_score + education_score) / 2)%Q
  end.

(** A job description and a resume used in the examples: no education and no
    experience requirement, Python and Java asked of a candidate who knows
    Python. *)
Definition sample_jd : App.jd_data :=
  App.JdData SkillSpec.python_and_java ∅ ExperTest.empty_dict.

Definition sample_resume : App.resume_data := App.ResumeData {[ "python" ]} [] [].

End AggregateSpec.

(** ** Vocabulary of further statements about skill expressions *)

Module SkillFacts.
Import Py SkillExtract.

(** Two outcomes agree up to [P]: two results that [P] relates, or twice the
    same error. *)
Definition agree {A} (P : A → A → Prop) (m1 m2 : exn A) : Prop :=
  match m1, m2 with
  | Ok a, Ok b => P a b
  | Raise e1, Raise e2 => e1 = e2
  | _, _ => False
  end.

(** Two states of the evaluator with the same operator stack and operand
    stacks related position by position; [with_not] holds when the operator
    [not] may be on the stack. *)
Definition similar_stacks (R : bool → bool → Prop) (with_not : Prop) (st1 st2 : stacks) : Prop :=
  Forall2 R (operand_stack st1) (operand_stack st2)
  ∧ operator_stack st1 = operator_stack st2
  ∧ Forall (λ op, op = "not" → with_not) (operator_stack st1).

(** No token is the operator [not]. *)
Definition not_free (tokens : list string) : Prop :=
  Forall (λ token, token ≠ "not") tokens.

(** One truth value is at least the other. *)
Definition at_least (a b : bool) : Prop := a = true → b = true.

(** A text of ASCII characters only: on these [lower], [is_word_char] and
    [is_space] are [str.lower()], [\w] and the white space of Python, which
    on other characters know more letters and more case pairs. *)
Fixpoint ascii_text (s : string) : bool :=
  match s with
  | EmptyString => true
  | String c r => (nat_of_ascii c <? 128)%nat && ascii_text r
  end.

End SkillFacts.

(** ** Vocabulary of further statements about experience *)

Module ExperFacts.
Import Py ExperTest ExperSpec.

(** The years of the entries whose field, in lower case, contains [key]. *)
Definition years_in_field (key : string) (resume_exp : list experience_entry) : Q :=
  foldr (λ exp acc, if contains key (field_text exp) then (years_of exp + acc)%Q else acc)
        0%Q resume_exp.

(** How many of the required fields are [key] once in lower case. *)
Definition occurrences (key : string) (jd_fields : list string) : nat :=
  length (filter (λ jd_field, lower jd_field = key) jd_fields).

(** The dict [after] has the keys of the dict [before], in the same order,
    each total grown by [delta] of its key. *)
Definition grown (delta : string → Q) (before after : list (string * pynum)) : Prop :=
  Forall2 (λ item item', item'.1 = item.1
                         ∧ (value_of item'.2 == value_of item.2 + delta item.1)%Q)
          before after.

(** Years that [+=] adds without rounding in the totals by field: they have
    at most ten binary places, and the total of a field, to which a record
    adds its years once for each required field that it matches, stays below
    2^30. *)
Definition short_binary_field_years (jd : jd_experience)
    (resume_exp : list experience_entry) : Prop :=
  Forall (λ entry, ten_binary_places (years_of entry) = true) resume_exp
  ∧ (num (length (fields_of jd)) * total_size resume_exp < 1073741824)%Q.

(** A requirement of two years in each of Python and SQL, and a resume with
    three years of both in one entry and one more year of SQL. *)
Definition python_and_sql_two_years : jd_experience :=
  JdExperience (Val true) (Val (PyInt 2)) Missing (Val ["Python"; "SQL"]).

Definition python_sql_entries : list experience_entry :=
  [ExperienceEntry None (Val (PyInt 3)) (Some "Python, SQL");
   ExperienceEntry None (Val (PyFloat 1)) (Some "sql")].

End ExperFacts.

(** ** Vocabulary of the statements about texts, files and users *)

Module TextFacts.
Import Py.

(** The character [c] does not occur in [s]. *)
Fixpoint lacks (c : ascii) (s : string) : bool :=
  match s with
  | EmptyString => true
  | String a r => negb (bool_decide (a = c)) && lacks c r
  end.

(** The keys of [degree_rank], in the order of the dict. *)
Definition degree_keys : list string := EducationExtract.degree_rank.*1.

(** A sequence of registrations, each with a name and a password, run one
    after the other on a table of users. *)
Definition register_all (calls : list (string * string)) (users : gmap string string)
    : gmap string string :=
  foldl (λ users call, (DbOperations.register_user call.1 call.2 users).2) users calls.

(** The password of the first registration under [username]. *)
Definition first_password (username : string) (calls : list (string * string)) : option string :=
  snd <$> find (λ call, bool_decide (call.1 = username)) calls.

End TextFacts.

(** ** Vocabulary of further statements about the analysis *)

Module UploadFacts.
Import Py EducationExtract.

(** No entry of the list holds a string for its CGPA. *)
Definition cgpa_without_text (resume_education : list resume_entry) : Prop :=
  ∀ entry s, entry ∈ resume_education → cgpa entry ≠ CgpaStr s.

(** A score is a percentage. *)
Definition percentage (score : Q) : Prop := (0 <= score <= 100)%Q.

(** A job description that asks for a CGPA of 7 at the tenth class, and a
    resume that gives its CGPA there as a text. *)
Definition asks_tenth_cgpa : App.jd_data :=
  App.JdData SkillSpec.python_and_java {[ "10th" := JdEntry true None (Some (PyInt 7)) ]}
    ExperTest.empty_dict.

Definition tenth_cgpa_as_text : App.resume_data :=
  App.ResumeData {[ "python" ]} [ResumeEntry "10th" None (CgpaStr "8.5")] [].

End UploadFacts.

(** * Properties *)

(** Closes a comparison between the precedences of the three operators. *)
Ltac precedences :=
  change (SkillExtract.precedence "not") with 3 in *;
  change (SkillExtract.precedence "and") with 2 in *;
  change (SkillExtract.precedence "or") with 1 in *;
  simpl in *; lia.

(** ** The skill expression engine *)

Section SkillEngine.
Import Py SkillExtract SkillSpec.

Lemma bind_ok {A B} (m : exn A) (f : A → exn B) (b : B) :
  m ≫= f = Ok b → ∃ a, m = Ok a ∧ f a = Ok b.
Proof. destruct m as [a|e]; simpl; [eauto | discriminate]. Qed.

Lemma is_operator_cases op :
  is_operator op = true → op = "and" ∨ op = "or" ∨ op = "not".
Proof.
  unfold is_operator. rewrite !orb_true_iff, !bool_decide_eq_true. tauto.
Qed.

Lemma apply_operator_surplus op operands operands' :
  is_operator op = true →
  apply_operator op operands = Ok operands' →
  Z.of_nat (length operands') =
    (Z.of_nat (length operands) - (if is_binary op then 1 else 0))%Z.
Proof.
  intros Hop Happ. apply is_operator_cases in Hop as [-> | [-> | ->]];
    unfold apply_operator in Happ; simpl in Happ.
  - destruct operands as [|r [|l rest]]; simplify_eq/=. lia.
  - destruct operands as [|r [|l rest]]; simplify_eq/=. lia.
  - destruct operands as [|x rest]; simplify_eq/=. lia.
Qed.

Lemma apply_while_invariant keep ops operands st :
  operators_only ops →
  (∀ op, keep op = true → op ≠ "(") →
  apply_while keep ops operands = Ok st →
  operators_only (operator_stack st)
  ∧ surplus st = surplus (Stacks operands ops)
  ∧ countb is_open (operator_stack st) = countb is_open ops
  ∧ match operator_stack st with
    | [] => True
    | top :: _ => keep top = false
    end.
Proof.
  intros Hwf Hkeep. revert operands.
  induction Hwf as [|op ops Hop Hwf IH]; intros operands Hrun; simpl in Hrun.
  - simplify_eq/=. repeat split; constructor.
  - destruct (keep op) eqn:Hk.
    + apply bind_ok in Hrun as (operands' & Happ & Hrun).
      destruct Hop as [Hop | ->]; [| by apply Hkeep in Hk].
      destruct (IH _ Hrun) as (Hwf' & Hs & Ho & Htop).
      repeat split; [done | | | done].
      * rewrite Hs. unfold surplus. simpl.
        apply apply_operator_surplus in Happ; [|done].
        destruct (is_binary op); lia.
      * rewrite Ho. simpl. unfold is_open.
        apply is_operator_cases in Hop as [-> | [-> | ->]]; done.
    + simplify_eq/=. repeat split; [by constructor | done].
Qed.

Lemma precedence_operator token top :
  is_operator token = true →
  not_open_paren top && (precedence token <=? precedence top)%nat = true →
  top ≠ "(".
Proof.
  intros _ H ->. done.
Qed.

(** One token keeps the operator stack made of operators and opening
    parentheses, moves the surplus of operands by one for a literal (up) and
    for a binary operator (down), and follows the depth of the
    parentheses. *)
Lemma step_invariant skills st token st' :
  operators_only (operator_stack st) →
  step skills st token = Ok st' →
  operators_only (operator_stack st')
  ∧ surplus st' = (surplus st + (if is_literal token then 1 else 0)
                   - (if is_binary token then 1 else 0))%Z
  ∧ (if is_close token
     then S (countb is_open (operator_stack st')) = countb is_open (operator_stack st)
     else countb is_open (operator_stack st')
          = (if is_open token then 1 else 0) + countb is_open (operator_stack st)).
Proof.
  intros Hwf Hstep. unfold step in Hstep.
  destruct (is_operator token) eqn:Hop.
  - apply bind_ok in Hstep as (st1 & Hrun & Hstep). simplify_eq/=.
    apply apply_while_invariant in Hrun as (Hwf' & Hs & Ho & _); [|done|].
    2:{ intros op H. by eapply precedence_operator. }
    assert (is_literal token = false) as -> by (unfold is_literal; by rewrite Hop).
    assert (is_close token = false ∧ is_open token = false) as [-> ->].
    { apply is_operator_cases in Hop as [-> | [-> | ->]]; done. }
    repeat split.
    + constructor; auto.
    + unfold surplus in *. simpl in *. destruct (is_binary token); lia.
    + simpl. by rewrite Ho.
  - case_bool_decide as Ho; [subst token|].
    { simplify_eq/=. repeat split; [constructor; auto | unfold surplus; simpl; lia]. }
    case_bool_decide as Hc; [subst token|].
    { apply bind_ok in Hstep as (st1 & Hrun & Hstep).
      apply apply_while_invariant in Hrun as (Hwf' & Hs & Hopen & Htop); [|done|].
      2:{ intros op H ->. done. }
      destruct (operator_stack st1) as [|top rest] eqn:Hstack; [done|].
      simplify_eq/=. unfold not_open_paren in Htop.
      apply negb_false_iff, bool_decide_eq_true in Htop as ->.
      repeat split.
      - by inversion Hwf'.
      - unfold surplus in *. simpl in *. rewrite Hstack in Hs. simpl in Hs. lia.
      - rewrite <- Hopen. done. }
    simplify_eq/=.
    assert (is_literal token = true) as ->.
    { unfold is_literal, is_open, is_close. rewrite Hop. simpl.
      rewrite !bool_decide_eq_false_2; done. }
    assert (is_binary token = false) as ->.
    { unfold is_binary. unfold is_operator in Hop.
      apply orb_false_iff in Hop as [Hop _]. done. }
    assert (is_close token = false) as -> by (by apply bool_decide_eq_false_2).
    assert (is_open token = false) as -> by (by apply bool_decide_eq_false_2).
    repeat split; [done | unfold surplus; simpl; lia].
Qed.

Lemma run_invariant skills tokens : ∀ st st',
  operators_only (operator_stack st) →
  run skills tokens st = Ok st' →
  operators_only (operator_stack st')
  ∧ surplus st' = (surplus st + Z.of_nat (countb is_literal tokens)
                   - Z.of_nat (countb is_binary tokens))%Z
  ∧ balanced_from (countb is_open (operator_stack st)) tokens
    = bool_decide (countb is_open (operator_stack st') = 0).
Proof.
  induction tokens as [|token rest IH]; intros st st' Hwf Hrun; simpl in Hrun.
  - simplify_eq/=. repeat split; [done | lia].
  - apply bind_ok in Hrun as (st1 & Hstep & Hrun).
    apply step_invariant in Hstep as (Hwf1 & Hs1 & Hd1); [|done].
    destruct (IH _ _ Hwf1 Hrun) as (Hwf' & Hs' & Hb').
    repeat split; [done | |].
    + rewrite Hs', Hs1. simpl.
      destruct (is_literal token), (is_binary token); lia.
    + simpl. rewrite <- Hb'.
      destruct (is_open token) eqn:Hopen.
      * assert (is_close token = false) as Hclose.
        { unfold is_open, is_close in *. apply bool_decide_eq_true in Hopen as ->. done. }
        rewrite Hclose in Hd1. by rewrite Hd1.
      * destruct (is_close token).
        -- by rewrite <- Hd1.
        -- by rewrite Hd1.
Qed.

Lemma apply_remaining_invariant ops : ∀ operands operands',
  operators_only ops →
  apply_remaining ops operands = Ok operands' →
  countb is_open ops = 0
  ∧ Z.of_nat (length operands') = surplus (Stacks operands ops).
Proof.
  induction ops as [|op ops IH]; intros operands operands' Hwf Hrun; simpl in Hrun.
  - simplify_eq/=. unfold surplus. simpl. split; [done | lia].
  - case_bool_decide as Hopen; [done|].
    apply bind_ok in Hrun as (operands1 & Happ & Hrun).
    inversion Hwf as [|? ? [Hop | ?] Hwf']; [|done]. subst.
    destruct (IH _ _ Hwf' Hrun) as [Ho Hlen].
    apply apply_operator_surplus in Happ; [|done].
    split.
    + simpl. unfold is_open at 1. by rewrite bool_decide_eq_false_2.
    + rewrite Hlen. unfold surplus. simpl. destruct (is_binary op); lia.
Qed.

(** A token list that evaluates to a boolean has balanced parentheses and
    more literals than binary operators. *)
Lemma evaluate_tokens_ok skills tokens result :
  evaluate_tokens skills tokens = Ok result →
  balanced tokens = true ∧ countb is_binary tokens < countb is_literal tokens.
Proof.
  unfold evaluate_tokens. intros Hrun.
  apply bind_ok in Hrun as (st & Hrun & Hrest).
  apply bind_ok in Hrest as (operands & Hrem & Hres).
  apply run_invariant in Hrun as (Hwf & Hs & Hb); [|constructor].
  apply apply_remaining_invariant in Hrem as [Ho Hlen]; [|done].
  simpl in Hb. unfold balanced. rewrite Hb, Ho. split; [done|].
  destruct operands as [|? ?]; [done|].
  unfold surplus in *. simpl in *.
  destruct st as [operands0 ops0]. simpl in *. lia.
Qed.

Lemma evaluate_tokens_nil skills : evaluate_tokens skills [] = Raise (ValueError "No result after evaluation").
Proof. reflexivity. Qed.

(** [evaluate_resume] returns a pair on every input: whatever is raised
    inside its [try] is turned into the pair of [False] and [0.0]. *)
Lemma evaluate_resume_never_raises skills_expression resume_skills :
  ∃ result score, evaluate_resume skills_expression resume_skills = Ok (result, score).
Proof.
  unfold evaluate_resume. destruct (_ || _); [eauto|].
  unfold try_except. destruct (evaluate_resume_body _ _) as [[b q]|e]; eauto.
Qed.

Lemma evaluate_resume_error skills_expression resume_skills :
  raises (evaluate_tokens (normalize_resume_skills resume_skills)
            (normalized_tokens_of skills_expression)) →
  evaluate_resume skills_expression resume_skills = Ok (false, 0%Q).
Proof.
  intros [e He]. unfold evaluate_resume. destruct (_ || _); [done|].
  unfold evaluate_resume_body, normalized_tokens_of in *.
  destruct (findall_tokens skills_expression) as [|token rest]; [done|].
  by rewrite He.
Qed.

(** No result comes out of an expression that is empty, has no token, has
    unbalanced parentheses, or has no more literals than binary operators. *)
Lemma evaluate_resume_rejects skills_expression resume_skills :
  skills_expression = EmptyString
  ∨ normalized_tokens_of skills_expression = []
  ∨ balanced (normalized_tokens_of skills_expression) = false
  ∨ countb is_literal (normalized_tokens_of skills_expression)
    ≤ countb is_binary (normalized_tokens_of skills_expression) →
  evaluate_resume skills_expression resume_skills = Ok (false, 0%Q).
Proof.
  intros Hbad.
  destruct (evaluate_tokens (normalize_resume_skills resume_skills)
              (normalized_tokens_of skills_expression)) as [result|e] eqn:Heval.
  - apply evaluate_tokens_ok in Heval as [Hbalanced Hcount].
    destruct Hbad as [-> | [Hnone | [Hunbalanced | Hfew]]].
    + reflexivity.
    + rewrite Hnone in Hcount. simpl in Hcount. lia.
    + congruence.
    + lia.
  - apply evaluate_resume_error. by exists e.
Qed.

(** C3, on the code: [evaluate_resume] returns a pair on every input, no
    exception reaches the caller; and it returns [(False, 0.0)] for the empty
    expression, for one without tokens, for one with unbalanced parentheses
    and for one with no more literals than binary operators.  But an operator
    left without an operand is not always found out: the operators are
    applied late, to whatever the operand stack holds by then, so that an
    operator written after its operands gets them.  Python NOT, where nothing
    follows the operator, is true for a candidate without the skill, and
    Python Java AND is true, with score 100, for a candidate with both. *)
Theorem trailing_operator_is_evaluated :
  (∀ skills_expression resume_skills,
     ∃ result score, evaluate_resume skills_expression resume_skills = Ok (result, score))
  ∧ (∀ skills_expression resume_skills,
       skills_expression = EmptyString
       ∨ normalized_tokens_of skills_expression = []
       ∨ balanced (normalized_tokens_of skills_expression) = false
       ∨ countb is_literal (normalized_tokens_of skills_expression)
         ≤ countb is_binary (normalized_tokens_of skills_expression) →
       evaluate_resume skills_expression resume_skills = Ok (false, 0%Q))
  ∧ normalized_tokens_of python_not = ["python"; "not"]
  ∧ malformed python_not
  ∧ evaluate_resume python_not ∅ = Ok (true, 0%Q)
  ∧ normalized_tokens_of python_java_and = ["python"; "java"; "and"]
  ∧ malformed python_java_and
  ∧ evaluate_resume python_java_and {[ "python"; "java" ]} = Ok (true, 100%Q).
Proof.
  split; [apply evaluate_resume_never_raises|].
  split; [apply evaluate_resume_rejects|].
  split_and!; try (vm_compute; reflexivity).
  - right; right; right. vm_compute. reflexivity.
  - right; right; right. vm_compute. reflexivity.
Qed.

Lemma run_app skills tokens1 tokens2 st :
  run skills (tokens1 ++ tokens2) st = run skills tokens1 st ≫= run skills tokens2.
Proof.
  revert st. induction tokens1 as [|token rest IH]; intros st; simpl; [done|].
  destruct (step skills st token); simpl; [apply IH | done].
Qed.

Lemma step_literal skills operands operators token :
  is_literal token = true →
  step skills (Stacks operands operators) token
  = Ok (Stacks (bool_decide (token ∈ skills) :: operands) operators).
Proof.
  unfold is_literal, is_open, is_close, step.
  rewrite !andb_true_iff, !negb_true_iff. intros [[-> ->] ->]. done.
Qed.

Lemma step_operator skills operands operators token :
  is_operator token = true →
  step skills (Stacks operands operators) token
  = (st' ← apply_while
             (λ top, not_open_paren top && (precedence token <=? precedence top)%nat)
             operators operands;
     Ok (Stacks (operand_stack st') (token :: operator_stack st'))).
Proof. unfold step. by intros ->. Qed.

Lemma step_open skills operands operators :
  step skills (Stacks operands operators) "(" = Ok (Stacks operands ("(" :: operators)).
Proof. reflexivity. Qed.

Lemma step_close skills operands operators :
  step skills (Stacks operands operators) ")"
  = (st' ← apply_while not_open_paren operators operands;
     match operator_stack st' with
     | _ :: rest => Ok (Stacks (operand_stack st') rest)
     | [] => Raise (ValueError "Mismatched parentheses")
     end).
Proof. reflexivity. Qed.

Lemma bind_Ok {A B} (a : A) (f : A → exn B) : Ok a ≫= f = f a.
Proof. reflexivity. Qed.

Lemma run_cons skills token tokens st :
  run skills (token :: tokens) st = step skills st token ≫= run skills tokens.
Proof. reflexivity. Qed.

Lemma run_nil skills st : run skills [] st = Ok st.
Proof. reflexivity. Qed.

Lemma apply_while_stop keep operators operands :
  match operators with
  | [] => True
  | top :: _ => keep top = false
  end →
  apply_while keep operators operands = Ok (Stacks operands operators).
Proof. destruct operators as [|top rest]; simpl; [done|]. by intros ->. Qed.

(** Operators that the loop keeps popping are applied as at the end of the
    input. *)
Lemma apply_while_pending keep pending : ∀ operators operands operands',
  Forall (λ op, keep op = true) pending →
  apply_remaining pending operands = Ok operands' →
  apply_while keep (pending ++ operators) operands = apply_while keep operators operands'.
Proof.
  induction pending as [|op rest IH]; intros operators operands operands' Hkeep Happ;
    simpl in *; [by simplify_eq|].
  inversion Hkeep as [|? ? Hop Hrest]; subst. rewrite Hop.
  case_bool_decide; [done|].
  destruct (apply_operator op operands) as [operands1|]; simpl in *; [|done].
  by apply IH.
Qed.

Lemma apply_remaining_app pending1 pending2 operands :
  apply_remaining (pending1 ++ pending2) operands
  = apply_remaining pending1 operands ≫= apply_remaining pending2.
Proof.
  revert operands. induction pending1 as [|op rest IH]; intros operands; simpl; [done|].
  case_bool_decide; [done|].
  destruct (apply_operator op operands); simpl; [apply IH | done].
Qed.

Lemma admits_mono level level' operators :
  level ≤ level' → admits level operators → admits level' operators.
Proof.
  unfold admits. destruct operators as [|top rest]; [done|].
  intros Hle [-> | [Hop Hlt]]; [by left | right]. split; [done | lia].
Qed.

(** What an operator token does after a part that left [v] pending, when the
    part binds at least as much as the operator and the stack below admits
    the operator: the pending operators are applied and the operator is
    pushed over [v]. *)
Lemma step_after_pending skills token pending values operands operators v :
  is_operator token = true →
  Forall (λ op, is_operator op = true ∧ precedence token ≤ precedence op) pending →
  (∀ below, apply_remaining pending (values ++ below) = Ok (v :: below)) →
  admits (precedence token) operators →
  step skills (Stacks (values ++ operands) (pending ++ operators)) token
  = Ok (Stacks (v :: operands) (token :: operators)).
Proof.
  intros Htoken Hpending Happly Hadmits. rewrite step_operator by done.
  rewrite (apply_while_pending _ pending operators _ (v :: operands)).
  - rewrite apply_while_stop; [done|].
    destruct operators as [|top rest]; [done|].
    destruct Hadmits as [-> | [Hop Hlt]]; [done|].
    apply andb_false_iff. right. apply Nat.leb_gt. done.
  - eapply Forall_impl; [exact Hpending|]. intros op [Hop Hle]. simpl.
    apply andb_true_iff. split; [|by apply Nat.leb_le].
    unfold not_open_paren. apply negb_true_iff, bool_decide_eq_false. intros ->. done.
  - apply Happly.
Qed.

Lemma leaves_literal skills level operands operators skill :
  is_literal skill = true →
  leaves skills [skill] level operands operators (bool_decide (skill ∈ skills)).
Proof.
  intros Hlit. exists [], [bool_decide (skill ∈ skills)]. simpl.
  rewrite step_literal by done. split; [done|]. split; [constructor | done].
Qed.

(** A unary operator before its operand. *)
Lemma leaves_not skills level tokens operands operators v :
  level ≤ 3 → admits level operators →
  leaves skills tokens 4 operands ("not" :: operators) v →
  leaves skills ("not" :: tokens) level operands operators (negb v).
Proof.
  intros Hlevel Hadmits (pending & values & Hrun & Hpending & Happly).
  exists (pending ++ ["not"]), values. split; [|split].
  - simpl. rewrite step_operator by done.
    rewrite apply_while_stop.
    + simpl. rewrite Hrun. by rewrite <- app_assoc.
    + destruct operators as [|top rest]; [done|].
      destruct Hadmits as [-> | [Hop Hlt]]; [done|].
      apply andb_false_iff. right. apply Nat.leb_gt.
      change (precedence "not") with 3. lia.
  - apply Forall_app. split.
    + eapply Forall_impl; [exact Hpending|]. intros op [Hop Hle]. split; [done | lia].
    + constructor; [|constructor]. split; [done|]. change (precedence "not") with 3. lia.
  - intros below. rewrite apply_remaining_app, Happly. done.
Qed.

(** A binary operator between its operands: the left one binds at least as
    much as the operator, the right one more. *)
Lemma leaves_binary skills op combine level tokens1 tokens2 operands operators v1 v2 :
  is_binary op = true →
  (∀ right_ left_ rest, apply_operator op (right_ :: left_ :: rest)
                        = Ok (combine left_ right_ :: rest)) →
  level ≤ precedence op → admits level operators →
  leaves skills tokens1 (precedence op) operands operators v1 →
  (∀ operands', leaves skills tokens2 (S (precedence op)) operands' (op :: operators) v2) →
  leaves skills (tokens1 ++ op :: tokens2) level operands operators (combine v1 v2).
Proof.
  intros Hbinary Hcombine Hlevel Hadmits (pending1 & values1 & Hrun1 & Hpending1 & Happly1) H2.
  assert (is_operator op = true) as Hop.
  { unfold is_binary, is_operator in *. apply orb_true_iff in Hbinary as [-> | ->]; [done|].
    by rewrite orb_true_r. }
  destruct (H2 (v1 :: operands)) as (pending2 & values2 & Hrun2 & Hpending2 & Happly2).
  exists (pending2 ++ [op]), (values2 ++ [v1]). split; [|split].
  - rewrite run_app, Hrun1. simpl.
    rewrite (step_after_pending skills op pending1 values1 operands operators v1); try done.
    + simpl. rewrite Hrun2. by rewrite <- !app_assoc.
    + by eapply admits_mono.
  - apply Forall_app. split.
    + eapply Forall_impl; [exact Hpending2|]. intros o [Ho Hle]. split; [done | lia].
    + constructor; [|constructor]. split; [done | lia].
  - intros below. rewrite apply_remaining_app, <- app_assoc. simpl.
    rewrite Happly2. simpl.
    assert (op ≠ "(") as Hne by (intros ->; done).
    rewrite bool_decide_eq_false_2 by done. by rewrite Hcombine.
Qed.

(** Parentheses: what is between them is evaluated on its own, and its value
    is left with nothing pending. *)
Lemma leaves_parens skills level level' tokens operands operators v :
  leaves skills tokens level' operands ("(" :: operators) v →
  leaves skills ("(" :: tokens ++ [")"]) level operands operators v.
Proof.
  intros (pending & values & Hrun & Hpending & Happly).
  exists [], [v]. split; [|split; [constructor | done]].
  rewrite run_cons, step_open, bind_Ok, run_app, Hrun, bind_Ok, run_cons, step_close.
  cbn [operand_stack operator_stack].
  rewrite (apply_while_pending _ pending ("(" :: operators) _ (v :: operands)).
  - done.
  - eapply Forall_impl; [exact Hpending|]. intros op [Hop _]. simpl.
    unfold not_open_paren. apply negb_true_iff, bool_decide_eq_false. intros ->. done.
  - apply Happly.
Qed.

Lemma leaves_weaken skills tokens level level' operands operators v :
  level ≤ level' →
  leaves skills tokens level' operands operators v →
  leaves skills tokens level operands operators v.
Proof.
  intros Hle (pending & values & Hrun & Hpending & Happly).
  exists pending, values. split; [done|]. split; [|done].
  eapply Forall_impl; [exact Hpending|]. intros op [Hop Hp]. split; [done | lia].
Qed.

(** The evaluator computes the value of a formula from its infix form,
    wherever the form stands. *)
Lemma infix_leaves skills f : ∀ level operands operators,
  named f = true → admits level operators →
  leaves skills (infix level f) level operands operators (holds skills f).
Proof.
  induction f as [skill | a IHa | a IHa b IHb | a IHa b IHb];
    intros level operands operators Hnamed Hadmits; simpl in *.
  - destruct (4 <? level)%nat.
    + apply (leaves_parens _ _ 4). by apply leaves_literal.
    + by apply leaves_literal.
  - assert (∀ level operands operators, level ≤ 3 → admits level operators →
            leaves skills ("not" :: infix 4 a) level operands operators
              (negb (holds skills a))) as Hbody.
    { intros l os ops Hl Ha. apply leaves_not; try done.
      apply IHa; [done|]. right. split; [done | precedences]. }
    destruct (3 <? level)%nat eqn:Hwrap.
    + apply (leaves_parens _ _ 3). apply Hbody; [done | by left].
    + apply Nat.ltb_ge in Hwrap. by apply Hbody.
  - apply andb_true_iff in Hnamed as [Ha Hb].
    assert (∀ level operands operators, level ≤ 2 → admits level operators →
            leaves skills (infix 2 a ++ "and" :: infix 3 b) level operands operators
              (holds skills a && holds skills b)) as Hbody.
    { intros l os ops Hl Hadm.
      apply (leaves_binary skills "and" andb); try done.
      - change (precedence "and") with 2. apply IHa; [done|]. by eapply admits_mono.
      - intros os'. change (precedence "and") with 2.
        apply IHb; [done|]. right. split; [done | precedences]. }
    destruct (2 <? level)%nat eqn:Hwrap.
    + apply (leaves_parens _ _ 2). apply Hbody; [done | by left].
    + apply Nat.ltb_ge in Hwrap. by apply Hbody.
  - apply andb_true_iff in Hnamed as [Ha Hb].
    assert (∀ level operands operators, level ≤ 1 → admits level operators →
            leaves skills (infix 1 a ++ "or" :: infix 2 b) level operands operators
              (holds skills a || holds skills b)) as Hbody.
    { intros l os ops Hl Hadm.
      apply (leaves_binary skills "or" orb); try done.
      - change (precedence "or") with 1. apply IHa; [done|]. by eapply admits_mono.
      - intros os'. change (precedence "or") with 1.
        apply IHb; [done|]. right. split; [done | precedences]. }
    destruct (1 <? level)%nat eqn:Hwrap.
    + apply (leaves_parens _ _ 1). apply Hbody; [done | by left].
    + apply Nat.ltb_ge in Hwrap. by apply Hbody.
Qed.

(** The two-stack evaluation gives a formula in infix notation its value:
    [not] before [and] before [or], left to right, parentheses first. *)
Lemma evaluate_tokens_infix skills f level :
  named f = true → evaluate_tokens skills (infix level f) = Ok (holds skills f).
Proof.
  intros Hnamed. unfold evaluate_tokens.
  destruct (infix_leaves skills f level [] [] Hnamed I)
    as (pending & values & Hrun & _ & Happly).
  rewrite Hrun. simpl. rewrite !app_nil_r. specialize (Happly []).
  rewrite app_nil_r in Happly. by rewrite Happly.
Qed.

(** *** The tokenizer on a well-written expression *)

Lemma append_cons c r s : String c r +:+ s = String c (r +:+ s).
Proof. reflexivity. Qed.

Lemma append_assoc s1 s2 s3 : (s1 +:+ s2) +:+ s3 = s1 +:+ s2 +:+ s3.
Proof. induction s1 as [|c r IH]; [done|]. by rewrite !append_cons, IH. Qed.

Lemma append_empty s : s +:+ EmptyString = s.
Proof. induction s as [|c r IH]; [done|]. by rewrite append_cons, IH. Qed.

Lemma length_append s1 s2 :
  String.length (s1 +:+ s2) = String.length s1 + String.length s2.
Proof. induction s1 as [|c r IH]; [done|]. rewrite append_cons. simpl. by rewrite IH. Qed.

(** [findall] passes over the characters that the last match covered. *)
Lemma findall_skip matcher s1 : ∀ before s2,
  findall matcher before (String.length s1) (s1 +:+ s2)
  = findall matcher (ends_in_word before s1) 0 s2.
Proof.
  induction s1 as [|c r IH]; intros before s2; [done|].
  rewrite append_cons. simpl. apply IH.
Qed.

Lemma findall_found matcher before c r rest found :
  matcher before (String c r +:+ rest) = Some (found, S (String.length r)) →
  findall matcher before 0 (String c r +:+ rest)
  = found :: findall matcher (ends_in_word before (String c r)) 0 rest.
Proof.
  intros Hfound. rewrite append_cons in *. simpl. rewrite Hfound.
  replace (S (String.length r) - 1) with (String.length r) by lia.
  f_equal. apply findall_skip.
Qed.

Lemma until_quote_name s rest :
  no_quote s = true → until_quote (s +:+ String dq rest) = Some s.
Proof.
  induction s as [|c r IH]; simpl.
  - done.
  - rewrite andb_true_iff, negb_true_iff. intros [-> Hr]. by rewrite (IH Hr).
Qed.

Lemma match_literal_quoted s rest :
  s ≠ EmptyString → no_quote s = true → match_literal (quoted s +:+ rest) = Some s.
Proof.
  intros Hne Hs. unfold quoted. rewrite append_cons, append_assoc, append_cons.
  unfold match_literal. rewrite bool_decide_eq_true_2 by done.
  rewrite until_quote_name by done. by destruct s.
Qed.

Lemma is_literal_false token :
  is_literal token = false →
  token = "and" ∨ token = "or" ∨ token = "not" ∨ token = "(" ∨ token = ")".
Proof.
  unfold is_literal, is_operator, is_open, is_close.
  repeat case_bool_decide; simpl; try done; auto 6.
Qed.

Lemma match_one_keyword_other kw before c rest :
  kw ≠ EmptyString → (∀ t, lower (String c t) ≠ kw) →
  match_one_keyword kw before (String c rest) = None.
Proof.
  intros Hkw Hother. unfold match_one_keyword.
  destruct kw as [|k kw']; [done|]. cbn [String.length take_chars].
  destruct (take_chars (String.length kw') rest) as [t|]; [|done].
  by rewrite bool_decide_eq_false_2.
Qed.

Lemma match_keyword_space before rest : match_keyword before (String " " rest) = None.
Proof.
  unfold match_keyword.
  rewrite !match_one_keyword_other; try done; intros t H; discriminate H.
Qed.

Lemma written_not_empty token : token_ok token → written token ≠ EmptyString.
Proof.
  unfold written. destruct (is_literal token) eqn:Hlit; [done|].
  intros _. apply is_literal_false in Hlit as [-> | [-> | [-> | [-> | ->]]]]; done.
Qed.

Lemma match_token_written token rest :
  token_ok token →
  match_token false (written token +:+ " " +:+ rest) = Some (written token).
Proof.
  unfold written. destruct (is_literal token) eqn:Hlit.
  - intros [? | (Hne & Hq & _)]; [congruence|].
    unfold match_token. by rewrite match_literal_quoted.
  - intros _. apply is_literal_false in Hlit as [-> | [-> | [-> | [-> | ->]]]]; reflexivity.
Qed.

Lemma length_written_literal token :
  String.length (quoted token) = 2 + String.length token.
Proof. unfold quoted. simpl. rewrite length_append. simpl. lia. Qed.

Lemma ends_in_word_space before s : ends_in_word before (s +:+ " ") = false.
Proof.
  revert before. induction s as [|c r IH]; intros before; [done|].
  rewrite append_cons. simpl. apply IH.
Qed.

(** A written token and the space after it: the token is found, and the scan
    goes on after the space. *)
Lemma findall_written (matcher : bool → string → option (string * nat)) token found rest :
  written token ≠ EmptyString →
  matcher false (written token +:+ " " +:+ rest)
  = Some (found, String.length (written token)) →
  (∀ before, matcher before (String " " rest) = None) →
  findall matcher false 0 (written token +:+ " " +:+ rest)
  = found :: findall matcher false 0 rest.
Proof.
  intros Hne Hfound Hspace.
  destruct (written token) as [|c r] eqn:Hw; [done|].
  rewrite (findall_found matcher false c r _ found) by exact Hfound. f_equal.
  change (" " +:+ rest) with (String " " rest). simpl. by rewrite Hspace.
Qed.

Lemma findall_tokens_text tokens :
  Forall token_ok tokens → findall_tokens (text_of tokens) = written <$> tokens.
Proof.
  unfold findall_tokens. induction 1 as [|token rest Hok _ IH]; [done|].
  simpl. rewrite (findall_written _ token (written token)).
  - by rewrite IH.
  - by apply written_not_empty.
  - by rewrite match_token_written.
  - intros before. unfold match_token. simpl. by rewrite match_keyword_space.
Qed.

Lemma rstrip_quote s :
  no_quote s = true → rstrip (λ x, bool_decide (x = dq)) (s +:+ String dq "") = s.
Proof.
  induction s as [|c r IH]; [done|].
  rewrite append_cons. simpl. rewrite andb_true_iff, negb_true_iff.
  intros [Hc Hr]. rewrite (IH Hr). rewrite Hc. by destruct r.
Qed.

Lemma rstrip_no_quote s :
  no_quote s = true → rstrip (λ x, bool_decide (x = dq)) s = s.
Proof.
  induction s as [|c r IH]; [done|].
  simpl. rewrite andb_true_iff, negb_true_iff.
  intros [Hc Hr]. rewrite (IH Hr). rewrite Hc. by destruct r.
Qed.

Lemma lstrip_no_quote s rest :
  s ≠ EmptyString → no_quote s = true →
  lstrip (λ x, bool_decide (x = dq)) (s +:+ rest) = s +:+ rest.
Proof.
  destruct s as [|c r]; [done|]. intros _. simpl.
  rewrite andb_true_iff, negb_true_iff. by intros [-> _].
Qed.

Lemma strip_char_quoted s :
  s ≠ EmptyString → no_quote s = true → strip_char dq (quoted s) = s.
Proof.
  intros Hne Hs. unfold strip_char, strip_by, quoted. simpl.
  rewrite lstrip_no_quote by done. by apply rstrip_quote.
Qed.

Lemma strip_char_name s :
  s ≠ EmptyString → no_quote s = true → strip_char dq s = s.
Proof.
  intros Hne Hs. unfold strip_char, strip_by.
  rewrite <- (append_empty s) at 1.
  rewrite lstrip_no_quote by done. rewrite append_empty. by apply rstrip_no_quote.
Qed.

Lemma endswith_quoted s : endswith_char dq (s +:+ String dq "") = true.
Proof.
  induction s as [|c r IH]; [done|].
  rewrite append_cons. simpl. rewrite IH. by destruct (r +:+ String dq "").
Qed.

Lemma normalize_token_written token :
  token_ok token → normalize_token (written token) = token.
Proof.
  unfold written. destruct (is_literal token) eqn:Hlit.
  - intros [? | (Hne & Hq & Hnorm)]; [congruence|].
    unfold normalize_token, normalize_skill.
    assert (startswith (String dq EmptyString) (quoted token)
            && endswith_char dq (quoted token) = true) as ->.
    { unfold quoted. simpl.
      pose proof (endswith_quoted token) as H.
      by destruct (token +:+ String dq ""). }
    by rewrite strip_char_quoted.
  - intros _. apply is_literal_false in Hlit as [-> | [-> | [-> | [-> | ->]]]]; reflexivity.
Qed.

(** The tokenizer and the normalization give back the tokens of a
    well-written expression. *)
Lemma normalized_tokens_of_text tokens :
  Forall token_ok tokens → normalized_tokens_of (text_of tokens) = tokens.
Proof.
  intros Hok. unfold normalized_tokens_of. rewrite findall_tokens_text by done.
  induction Hok as [|token rest Hok _ IH]; [done|].
  rewrite !fmap_cons. by rewrite normalize_token_written, IH.
Qed.

Lemma findall_quoted_text tokens :
  Forall token_ok tokens →
  findall_quoted (text_of tokens) = filter (λ token, is_literal token = true) tokens.
Proof.
  unfold findall_quoted. induction 1 as [|token rest Hok _ IH]; [done|].
  cbn [text_of]. destruct (is_literal token) eqn:Hlit.
  - rewrite filter_cons_True by done.
    destruct Hok as [? | (Hne & Hq & Hnorm)]; [congruence|].
    rewrite (findall_written _ token token).
    + by rewrite IH.
    + by apply written_not_empty; right.
    + unfold written. rewrite Hlit, match_literal_quoted by done.
      by rewrite length_written_literal.
    + done.
  - rewrite filter_cons_False by congruence. rewrite <- IH. unfold written. rewrite Hlit.
    apply is_literal_false in Hlit as [-> | [-> | [-> | [-> | ->]]]]; reflexivity.
Qed.

Lemma plain_name_normalized s :
  plain_name s → strip (strip_char dq s) ≠ EmptyString ∧ normalize_skill s = s.
Proof.
  intros (Hne & Hq & Hnorm). unfold normalize_skill.
  rewrite strip_char_name by done. split; [|done].
  intros Hempty. rewrite Hempty in Hnorm. by subst.
Qed.

(** The required skills of a well-written expression are its literals. *)
Lemma required_skills_of_text tokens :
  Forall token_ok tokens →
  required_skills_of (text_of tokens)
  = list_to_set (filter (λ token, is_literal token = true) tokens).
Proof.
  intros Hok. unfold required_skills_of. rewrite findall_quoted_text by done.
  f_equal. induction Hok as [|token rest Hok _ IH]; [done|].
  destruct (is_literal token) eqn:Hlit.
  - rewrite filter_cons_True by done.
    destruct Hok as [? | Hplain]; [congruence|].
    destruct (plain_name_normalized token Hplain) as [Hkept Hsame].
    rewrite filter_cons_True by done. rewrite fmap_cons, Hsame. by rewrite IH.
  - by rewrite filter_cons_False by congruence.
Qed.

Lemma infix_tokens_ok f : ∀ level,
  named f = true → Forall plain_name (names f) → Forall token_ok (infix level f).
Proof.
  assert (∀ wrap tokens, Forall token_ok tokens → Forall token_ok (parens wrap tokens))
    as Hparens.
  { intros [|] tokens H; simpl; [|done].
    constructor; [by left|]. apply Forall_app. split; [done|].
    constructor; [by left | constructor]. }
  induction f as [skill | a IHa | a IHa b IHb | a IHa b IHb];
    intros level Hnamed Hplain; cbn [infix]; apply Hparens; simpl in *.
  - constructor; [|constructor]. right. by inversion Hplain.
  - constructor; [by left | by apply IHa].
  - apply andb_true_iff in Hnamed as [Ha Hb]. apply Forall_app in Hplain as [Hpa Hpb].
    apply Forall_app. split; [by apply IHa|]. constructor; [by left | by apply IHb].
  - apply andb_true_iff in Hnamed as [Ha Hb]. apply Forall_app in Hplain as [Hpa Hpb].
    apply Forall_app. split; [by apply IHa|]. constructor; [by left | by apply IHb].
Qed.

Lemma infix_literals f : ∀ level,
  named f = true → filter (λ token, is_literal token = true) (infix level f) = names f.
Proof.
  assert (∀ wrap tokens,
            filter (λ token, is_literal token = true) (parens wrap tokens)
            = filter (λ token, is_literal token = true) tokens) as Hparens.
  { intros [|] tokens; simpl; [|done].
    rewrite filter_cons_False by done. rewrite filter_app.
    rewrite (filter_cons_False _ ")") by done. by rewrite app_nil_r. }
  induction f as [skill | a IHa | a IHa b IHb | a IHa b IHb];
    intros level Hnamed; cbn [infix]; rewrite Hparens; simpl in *.
  - by rewrite filter_cons_True.
  - rewrite filter_cons_False by done. by apply IHa.
  - apply andb_true_iff in Hnamed as [Ha Hb].
    rewrite filter_app, filter_cons_False by done. by rewrite IHa, IHb.
  - apply andb_true_iff in Hnamed as [Ha Hb].
    rewrite filter_app, filter_cons_False by done. by rewrite IHa, IHb.
Qed.

(** When the tokens evaluate, [evaluate_resume] returns their value and the
    overlap score. *)
Lemma evaluate_resume_evaluated skills_expression resume_skills result :
  evaluate_tokens (normalize_resume_skills resume_skills)
    (normalized_tokens_of skills_expression) = Ok result →
  evaluate_resume skills_expression resume_skills
  = Ok (result, overlap_score (required_skills_of skills_expression)
                  (normalize_resume_skills resume_skills)).
Proof.
  intros Heval. unfold evaluate_resume.
  assert (skills_expression ≠ EmptyString) as Hne by (intros ->; done).
  assert (skills_expression ≠ "False") as Hnf by (intros ->; done).
  rewrite !bool_decide_eq_false_2 by done. simpl.
  unfold evaluate_resume_body, normalized_tokens_of in *.
  destruct (findall_tokens skills_expression) as [|token rest] eqn:Htokens; [done|].
  rewrite Heval. reflexivity.
Qed.

(** The engine on a well-written expression: for a formula over plain skill
    names, written in infix with quotes around the names, [evaluate_resume]
    returns the value of the formula for the normalized candidate skills,
    and the share of the formula's names among them. *)
Lemma evaluate_resume_infix f resume_skills :
  named f = true → Forall plain_name (names f) →
  evaluate_resume (text_of (infix 1 f)) resume_skills
  = Ok (holds (normalize_resume_skills resume_skills) f,
        overlap_score (list_to_set (names f)) (normalize_resume_skills resume_skills)).
Proof.
  intros Hnamed Hplain.
  pose proof (infix_tokens_ok f 1 Hnamed Hplain) as Hok.
  rewrite (evaluate_resume_evaluated _ _ (holds (normalize_resume_skills resume_skills) f)).
  - by rewrite required_skills_of_text, infix_literals.
  - rewrite normalized_tokens_of_text by done. by apply evaluate_tokens_infix.
Qed.

Lemma trailing_operator_witness :
  countb is_literal (normalized_tokens_of python_and)
  ≤ countb is_binary (normalized_tokens_of python_and)
  ∧ evaluate_resume python_and {[ "python" ]} = Ok (false, 0%Q).
Proof.
  assert (countb is_literal (normalized_tokens_of python_and)
          ≤ countb is_binary (normalized_tokens_of python_and)) as Hfew.
  { vm_compute. lia. }
  split; [exact Hfew|].
  apply (proj1 (proj2 trailing_operator_is_evaluated)). by right; right; right.
Defined.

(** C1: on a well-written expression (a formula over plain skill names in
    infix notation, the names between quotes) [evaluate_resume] returns the
    value of the formula, [not] binding more than [and], [and] more than
    [or], parentheses first, each name standing for its membership in the
    normalized candidate skills.  But a quoted literal that spells a keyword
    is no literal for the evaluator: the skill OR, between quotes, comes out
    of the normalization as the token [or], is taken for the operator, and
    the evaluation fails for want of operands, although the candidate has
    both skills. *)
Theorem quoted_keyword_is_taken_for_operator :
  (∀ f resume_skills,
     named f = true → Forall plain_name (names f) →
     evaluate_resume (text_of (infix 1 f)) resume_skills
     = Ok (holds (normalize_resume_skills resume_skills) f,
           overlap_score (list_to_set (names f)) (normalize_resume_skills resume_skills)))
  ∧ findall_tokens python_and_quoted_or = [quoted "Python"; "AND"; quoted "OR"]
  ∧ normalized_tokens_of python_and_quoted_or = ["python"; "and"; "or"]
  ∧ evaluate_tokens {[ "python"; "or" ]} ["python"; "and"; "or"]
    = Raise (ValueError "Insufficient operands for 'and' operator")
  ∧ evaluate_resume python_and_quoted_or {[ "python"; "or" ]} = Ok (false, 0%Q).
Proof.
  split; [apply evaluate_resume_infix|].
  repeat split; vm_compute; reflexivity.
Qed.

Lemma quoted_keyword_witness :
  text_of (infix 1 python_or_java_without_go)
  = quoted "python" +:+ " or " +:+ quoted "java" +:+ " and not " +:+ quoted "go" +:+ " "
  ∧ evaluate_resume (text_of (infix 1 python_or_java_without_go)) {[ "Java"; " SQL " ]}
    = Ok (true, 33.33%Q).
Proof.
  split; [reflexivity|].
  rewrite (proj1 quoted_keyword_is_taken_for_operator).
  - vm_compute. reflexivity.
  - reflexivity.
  - repeat constructor; discriminate.
Defined.

Lemma lower_length s : String.length (lower s) = String.length s.
Proof. induction s as [|c s IH]; simpl; congruence. Qed.

Lemma lower_empty s : lower s = EmptyString → s = EmptyString.
Proof. by destruct s. Qed.

Lemma required_skills_nonempty skills_expression skill :
  skill ∈ required_skills_of skills_expression → skill ≠ EmptyString.
Proof.
  unfold required_skills_of. rewrite elem_of_list_to_set, list_elem_of_fmap.
  intros (token & -> & Hin) Hempty.
  apply list_elem_of_filter in Hin as [Hne _].
  apply Hne. by apply lower_empty.
Qed.

(** On a skill set that is already in lower case and trimmed, the
    normalization of [evaluate_resume] leaves the overlap with the required
    skills as it is. *)
Lemma normalized_overlap skills_expression resume_skills :
  normalized_set resume_skills →
  required_skills_of skills_expression ∩ normalize_resume_skills resume_skills
  = required_skills_of skills_expression ∩ resume_skills.
Proof.
  intros Hnorm. apply set_eq. intros skill.
  rewrite !elem_of_intersection. unfold normalize_resume_skills.
  rewrite elem_of_map. split.
  - intros [Hreq (y & -> & Hy)]. apply elem_of_filter in Hy as [_ Hy].
    split; [done|]. by rewrite (Hnorm y Hy).
  - intros [Hreq Hin]. split; [done|]. exists skill. split; [by rewrite Hnorm|].
    apply elem_of_filter. split; [|done]. by eapply required_skills_nonempty.
Qed.

Lemma lower_char_quote c : bool_decide (lower_char c = dq) = bool_decide (c = dq).
Proof. by destruct c as [[] [] [] [] [] [] [] []]. Qed.


Lemma no_quote_lower s : no_quote (lower s) = no_quote s.
Proof.
  induction s as [|c s IH]; simpl; [done|]. by rewrite lower_char_quote, IH.
Qed.


Lemma until_quote_no_quote s : ∀ content,
  until_quote s = Some content → no_quote content = true.
Proof.
  induction s as [|c s IH]; intros content; simpl; [done|].
  case_bool_decide as Hc; [by intros [= <-]|].
  destruct (until_quote s) as [rest|]; [|done].
  intros [= <-]. simpl. rewrite bool_decide_eq_false_2 by done. simpl. by apply IH.
Qed.

Lemma findall_Forall (P : string → Prop) matcher :
  (∀ before s found width, matcher before s = Some (found, width) → P found) →
  ∀ s before skip, Forall P (findall matcher before skip s).
Proof.
  intros Hmatcher. induction s as [|c s IH]; intros before skip; simpl; [done|].
  destruct skip; [|apply IH].
  destruct (matcher before (String c s)) as [[found width]|] eqn:Hm; [|apply IH].
  constructor; [by eapply Hmatcher|apply IH].
Qed.


Lemma take_chars_split n : ∀ s t,
  take_chars n s = Some t → s = t +:+ drop_chars n s ∧ String.length t = n.
Proof.
  induction n as [|n IH]; intros s t; simpl.
  - by intros [= <-].
  - destruct s as [|c r]; [done|].
    destruct (take_chars n r) as [t'|] eqn:Ht; [|done].
    intros [= <-]. destruct (IH _ _ Ht) as [Hr Hlen].
    split; [by rewrite append_cons, <- Hr | simpl; by rewrite Hlen].
Qed.

Lemma match_one_keyword_found kw before s t :
  match_one_keyword kw before s = Some t →
  lower t = kw ∧ ∃ rest, s = t +:+ rest.
Proof.
  unfold match_one_keyword.
  destruct (take_chars (String.length kw) s) as [t'|] eqn:Ht; [|done].
  destruct (bool_decide (lower t' = kw)) eqn:Hkw; simpl; [|done].
  destruct (negb before); simpl; [|done].
  destruct (match drop_chars _ s with EmptyString => true | String c _ => negb (is_word_char c) end);
    [|done].
  intros [= <-]. apply bool_decide_eq_true in Hkw.
  split; [done|]. apply take_chars_split in Ht as [Hs _]. eauto.
Qed.

Lemma match_keyword_found before s t :
  match_keyword before s = Some t →
  t ≠ EmptyString ∧ no_quote t = true ∧ ∃ rest, s = t +:+ rest.
Proof.
  unfold match_keyword.
  assert (∀ kw, kw = "and" ∨ kw = "or" ∨ kw = "not" →
                match_one_keyword kw before s = Some t →
                t ≠ EmptyString ∧ no_quote t = true ∧ ∃ rest, s = t +:+ rest) as Hone.
  { intros kw Hkw Hm. apply match_one_keyword_found in Hm as [Hlower Hrest].
    split; [|split; [|done]].
    - intros ->. simpl in Hlower. destruct Hkw as [-> | [-> | ->]]; discriminate.
    - rewrite <- no_quote_lower, Hlower. by destruct Hkw as [-> | [-> | ->]]. }
  destruct (match_one_keyword "and" before s) as [a|] eqn:Ha.
  { intros [= <-]. apply (Hone "and"); auto. }
  destruct (match_one_keyword "or" before s) as [o|] eqn:Ho.
  { intros [= <-]. apply (Hone "or"); auto. }
  intros Hn. apply (Hone "not"); auto.
Qed.

Lemma match_literal_found s content :
  match_literal s = Some content → content ≠ EmptyString ∧ no_quote content = true.
Proof.
  unfold match_literal. destruct s as [|c r]; [done|].
  case_bool_decide; [|done].
  destruct (until_quote r) as [[|a rest]|] eqn:Hu; [done| |done].
  intros [= <-]. split; [done|]. by eapply until_quote_no_quote.
Qed.

Lemma match_literal_no_quote c r :
  c ≠ dq → match_literal (String c r) = None.
Proof. intros Hc. unfold match_literal. by rewrite bool_decide_eq_false_2. Qed.

Lemma is_quoted_quoted content : is_quoted (quoted content) = true.
Proof.
  unfold is_quoted, quoted. simpl.
  pose proof (endswith_quoted content) as H.
  by destruct (content +:+ String dq "").
Qed.

Lemma is_quoted_no_quote t : no_quote t = true → is_quoted t = false.
Proof.
  unfold is_quoted. destruct t as [|c r]; [done|]. simpl.
  rewrite andb_true_iff, negb_true_iff, bool_decide_eq_false. intros [Hc _].
  rewrite bool_decide_eq_false_2; [done|]. congruence.
Qed.

(** The two patterns find the same quoted literals: what the token pattern
    matches besides them has no quote in it, so that the scan for the
    literals alone passes over it one character at a time. *)
Lemma findall_quoted_tokens s : ∀ before skip skip',
  skip' = skip
  ∨ (skip' = 0 ∧ ∃ t rest, s = t +:+ rest ∧ String.length t = skip ∧ no_quote t = true) →
  filter (λ token, is_quoted token = true)
    (findall (λ prev_word t, match match_token prev_word t with
                             | Some tok => Some (tok, String.length tok)
                             | None => None
                             end) before skip s)
  = quoted <$>
      findall (λ _ t, match match_literal t with
                      | Some content => Some (content, 2 + String.length content)
                      | None => None
                      end) before skip' s.
Proof.
  induction s as [|c r IH]; intros before skip skip' Hskip; [done|].
  destruct skip as [|k].
  - assert (skip' = 0) as -> by (destruct Hskip as [-> | [-> _]]; done). clear Hskip.
    cbn [findall]. unfold match_token.
    destruct (match_literal (String c r)) as [content|] eqn:Hlit.
    + rewrite filter_cons_True by apply is_quoted_quoted.
      rewrite fmap_cons. f_equal. apply IH. left.
      rewrite length_written_literal. done.
    + destruct (startswith "(" (String c r)).
      { rewrite filter_cons_False by done. apply IH. by left. }
      destruct (startswith ")" (String c r)).
      { rewrite filter_cons_False by done. apply IH. by left. }
      destruct (match_keyword before (String c r)) as [t|] eqn:Hkw; [|apply IH; by left].
      apply match_keyword_found in Hkw as (Hne & Hq & rest & Hrest).
      rewrite filter_cons_False by (rewrite is_quoted_no_quote; done).
      apply IH. right. split; [done|].
      destruct t as [|a t']; [done|]. rewrite append_cons in Hrest.
      injection Hrest as _ ->. exists t', rest. simpl in *.
      apply andb_true_iff in Hq as [_ Hq]. split; [done|]. split; [lia|done].
  - destruct Hskip as [-> | (-> & t & rest & Hs & Hlen & Hq)].
    + cbn [findall]. apply IH. by left.
    + destruct t as [|a t']; [done|]. rewrite append_cons in Hs.
      injection Hs as <- ->. simpl in Hq, Hlen.
      apply andb_true_iff in Hq as [Hc Hq].
      apply negb_true_iff, bool_decide_eq_false in Hc.
      cbn [findall]. rewrite match_literal_no_quote by done.
      apply IH. right. split; [done|]. exists t', rest. split; [done|]. split; [lia|done].
Qed.

Lemma findall_quoted_contents s :
  Forall (λ content, content ≠ EmptyString ∧ no_quote content = true) (findall_quoted s).
Proof.
  apply findall_Forall. intros before t found width.
  destruct (match_literal t) as [content|] eqn:Hlit; [|done].
  intros [= <- _]. by eapply match_literal_found.
Qed.

Lemma normalize_quoted content :
  content ≠ EmptyString → no_quote content = true →
  normalize_token (quoted content) = lower (strip content)
  ∧ normalize_skill content = lower (strip content).
Proof.
  intros Hne Hq. unfold normalize_token.
  fold (is_quoted (quoted content)). rewrite is_quoted_quoted.
  unfold normalize_skill. by rewrite strip_char_quoted, strip_char_name.
Qed.

(** The required skills of the code are the values of the quoted tokens that
    are not empty. *)
Lemma required_skills_quoted skills_expression :
  required_skills_of skills_expression = quoted_values skills_expression.
Proof.
  unfold required_skills_of, quoted_values, literal_values, findall_tokens.
  rewrite (findall_quoted_tokens skills_expression false 0 0) by (by left).
  fold (findall_quoted skills_expression). f_equal.
  pose proof (findall_quoted_contents skills_expression) as Hall.
  induction Hall as [|content rest [Hne Hq] _ IH]; [done|].
  destruct (normalize_quoted content Hne Hq) as [Htoken Hskill].
  rewrite !fmap_cons, Htoken.
  assert (strip (strip_char dq content) = strip content) as Hstrip
    by (by rewrite strip_char_name).
  rewrite !filter_cons.
  destruct (decide (strip (strip_char dq content) ≠ EmptyString)) as [Hcode | Hcode];
    destruct (decide (lower (strip content) ≠ EmptyString)) as [Hspec | Hspec].
  - by rewrite fmap_cons, Hskill, IH.
  - exfalso. apply Hspec. intros H. apply lower_empty in H. by rewrite Hstrip in Hcode.
  - exfalso. apply Hcode. rewrite Hstrip. intros H. apply Hspec. by rewrite H.
  - exact IH.
Qed.

(** C2, amended: when the expression evaluates without error, the score is
    the share of the required skills found among the normalized candidate
    skills, as a percentage rounded to two decimals, and zero when no skill is
    required; the required skills are the normalized literal values of the
    quoted tokens of the whole expression, whatever branch matched, those
    that are empty left out; when the evaluation fails the score is zero.  In
    particular Python AND Java against the single skill python gives false
    and 50. *)
Theorem skills_score_is_overlap_ratio :
  (∀ skills_expression resume_skills result,
     evaluate_tokens (normalize_resume_skills resume_skills)
       (normalized_tokens_of skills_expression) = Ok result →
     evaluate_resume skills_expression resume_skills
     = Ok (result, overlap_score (quoted_values skills_expression)
                     (normalize_resume_skills resume_skills)))
  ∧ (∀ skills_expression resume_skills,
       normalized_set resume_skills →
       overlap_score (quoted_values skills_expression)
         (normalize_resume_skills resume_skills)
       = overlap_score (quoted_values skills_expression) resume_skills)
  ∧ (∀ skills_expression resume_skills,
       raises (evaluate_tokens (normalize_resume_skills resume_skills)
                 (normalized_tokens_of skills_expression)) →
       evaluate_resume skills_expression resume_skills = Ok (false, 0%Q))
  ∧ evaluate_resume python_and_java {[ "python" ]} = Ok (false, 50%Q).
Proof.
  split; [|split; [|split]].
  - intros e s result Heval. rewrite <- required_skills_quoted.
    by apply evaluate_resume_evaluated.
  - intros e s Hnorm. rewrite <- required_skills_quoted.
    unfold overlap_score. by rewrite normalized_overlap.
  - apply evaluate_resume_error.
  - vm_compute. reflexivity.
Qed.

Lemma skills_score_witness :
  quoted_values python_and_java_or_go = {[ "python"; "java"; "go" ]}
  ∧ evaluate_resume python_and_java_or_go {[ "python"; "go" ]}
    = Ok (true, overlap_score {[ "python"; "java"; "go" ]} {[ "python"; "go" ]}).
Proof.
  assert (quoted_values python_and_java_or_go = {[ "python"; "java"; "go" ]}) as Hvalues.
  { vm_compute. reflexivity. }
  split; [exact Hvalues|]. rewrite <- Hvalues.
  assert (normalize_resume_skills {[ "python"; "go" ]} = {[ "python"; "go" ]}) as Hs.
  { vm_compute. reflexivity. }
  rewrite <- Hs at 2.
  apply (proj1 skills_score_is_overlap_ratio).
  vm_compute. reflexivity.
Defined.

(** The claim C2 as stated fails in two places.  On a malformed expression:
    Python AND, with the operator left without its right operand, scores
    zero against a candidate who has the one required skill, where the
    overlap ratio is 100.  And on a literal that is blank between its
    quotes: in Python OR blank the quoted tokens have the values python and
    the empty text, of which the candidate has one, a ratio of 50; the code
    leaves the empty value out of the required skills and scores 100. *)
Lemma skills_score_counterexample :
  evaluate_resume python_and {[ "python" ]} = Ok (false, 0%Q)
  ∧ overlap_score (quoted_values python_and) (normalize_resume_skills {[ "python" ]}) = 100%Q
  ∧ literal_values python_or_blank = ["python"; EmptyString]
  ∧ overlap_score {[ "python"; EmptyString ]} {[ "python" ]} = 50%Q
  ∧ evaluate_resume python_or_blank {[ "python" ]} = Ok (true, 100%Q).
Proof. split_and!; vm_compute; reflexivity. Qed.

End SkillEngine.

(** ** The experience matcher *)

Section ExperienceMatcher.
Import Py ExperTest ExperSpec.

Lemma Qlt_bool_iff x y : Qlt_bool x y = true ↔ (x < y)%Q.
Proof.
  unfold Qlt_bool. rewrite negb_true_iff. split.
  - intros H. apply Qnot_le_lt. intros Hle. apply Qle_bool_iff in Hle. congruence.
  - intros H. destruct (Qle_bool y x) eqn:Hle; [|done].
    apply Qle_bool_iff in Hle. by apply Qlt_not_le in H.
Qed.

Lemma Qle_bool_false x y : Qle_bool x y = false ↔ ¬ (x <= y)%Q.
Proof.
  rewrite <- Qle_bool_iff. destruct (Qle_bool x y); naive_solver.
Qed.

Lemma Qlt_bool_false x y : Qlt_bool x y = false ↔ ¬ (x < y)%Q.
Proof.
  rewrite <- Qlt_bool_iff. destruct (Qlt_bool x y); naive_solver.
Qed.

#[local] Instance Qlt_bool_proper : Proper (Qeq ==> Qeq ==> eq) Qlt_bool.
Proof. intros x x' Hx y y' Hy. unfold Qlt_bool. by rewrite Hx, Hy. Qed.

Lemma startswith_spec p s : startswith p s = true ↔ ∃ rest, s = p +:+ rest.
Proof.
  revert s. induction p as [|a p IH]; intros s; simpl.
  - split; [eauto | done].
  - destruct s as [|b s].
    + split; [done | by intros [rest ?]].
    + rewrite andb_true_iff, bool_decide_eq_true, IH. split.
      * intros [-> [rest ->]]. by exists rest.
      * intros [rest H]. injection H as -> ->. eauto.
Qed.

Lemma contains_spec a b : contains a b = true ↔ substring_of a b.
Proof.
  unfold substring_of. induction b as [|c b IH]; simpl.
  - rewrite orb_false_r, startswith_spec. split.
    + intros [rest H]. by exists EmptyString, rest.
    + intros ([|? ?] & after & H); [by exists after | done].
  - rewrite orb_true_iff, startswith_spec, IH. split.
    + intros [[rest H] | (before & after & H)].
      * by exists EmptyString, rest.
      * exists (String c before), after. simpl. by rewrite H.
    + intros ([|x before] & after & H).
      * left. by exists after.
      * right. injection H as -> ->. by exists before, after.
Qed.

Lemma truthy_iff s : truthy s = true ↔ s ≠ EmptyString.
Proof. unfold truthy. by rewrite negb_true_iff, bool_decide_eq_false. Qed.

Lemma fields_similar_spec a b : fields_similar a b = true ↔ fuzzy_similar a b.
Proof.
  unfold fields_similar, fuzzy_similar, similar, threshold.
  destruct (truthy a) eqn:Ha, (truthy b) eqn:Hb; simpl;
    rewrite ?Qlt_bool_iff; try apply truthy_iff in Ha; try apply truthy_iff in Hb.
  - tauto.
  - split; [done|]. intros (_ & Hne & _). apply truthy_iff in Hne. congruence.
  - split; [done|]. intros (Hne & _). apply truthy_iff in Hne. congruence.
  - split; [done|]. intros (Hne & _). apply truthy_iff in Hne. congruence.
Qed.

Lemma normalize_field_name_text entry : normalize_field_name (field entry) = field_text entry.
Proof.
  unfold normalize_field_name, field_text. destruct (field entry) as [f|]; [|done].
  destruct (truthy f) eqn:Hf; [done|].
  unfold truthy in Hf. apply negb_false_iff, bool_decide_eq_true in Hf. by subst.
Qed.

Lemma field_found_spec fuzzy jd_field entry :
  field_found fuzzy jd_field entry = true ↔ passes_with fuzzy jd_field entry.
Proof.
  unfold field_found, passes_with. rewrite normalize_field_name_text.
  destruct fuzzy; [apply fields_similar_spec | apply contains_spec].
Qed.

Lemma field_matched_spec fuzzy jd_field entry :
  field_matched fuzzy jd_field entry = true ↔ scores_with fuzzy jd_field entry.
Proof.
  unfold field_matched, scores_with. rewrite normalize_field_name_text.
  destruct fuzzy; simpl.
  - destruct (fields_similar _ _) eqn:Hsim.
    + apply fields_similar_spec in Hsim. split; [auto | done].
    + rewrite contains_spec. split; [auto|]. intros [[_ H] | H]; [|done].
      apply fields_similar_spec in H. congruence.
  - rewrite contains_spec. split; [auto|]. by intros [[? _] | H].
Qed.

(** With no [None] among the years, [sum] returns the total. *)
Lemma sum_years_numeric resume_exp : ∀ acc,
  numeric_years resume_exp →
  ∃ total, sum_years acc resume_exp = Ok total
           ∧ (value_of total == value_of acc + total_years resume_exp)%Q.
Proof.
  induction resume_exp as [|entry rest IH]; intros acc Hnum; simpl.
  - exists acc. split; [done|]. ring.
  - inversion Hnum as [|? ? Hentry Hrest]; subst.
    unfold get, years_of. destruct (years entry) as [| |y] eqn:Hy; [|done|].
    + destruct (IH (py_add acc (PyInt 0)) Hrest) as (total & -> & Hv).
      exists total. split; [done|]. rewrite Hv.
      destruct acc; simpl; [rewrite inject_Z_plus|]; simpl; ring.
    + destruct (IH (py_add acc y) Hrest) as (total & -> & Hv).
      exists total. split; [done|]. rewrite Hv.
      destruct acc, y; simpl; rewrite ?inject_Z_plus; ring.
Qed.

(** [None] among the years makes [sum] raise a [TypeError] about [+]. *)
Lemma sum_years_none resume_exp : ∀ acc,
  ¬ numeric_years resume_exp →
  ∃ kind, sum_years acc resume_exp
          = Raise (TypeError ("unsupported operand type(s) for +: '" +:+ kind
                              +:+ "' and 'NoneType'")).
Proof.
  induction resume_exp as [|entry rest IH]; intros acc Hnum; simpl.
  - destruct Hnum. constructor.
  - destruct (years entry) as [| |y] eqn:Hy; simpl.
    + apply IH. intros H. apply Hnum. constructor; [congruence | done].
    + eauto.
    + apply IH. intros H. apply Hnum. constructor; [congruence | done].
Qed.

Lemma is_required_not_empty jd_exp : is_required jd_exp = true → is_empty jd_exp = false.
Proof. unfold is_required, is_empty. by destruct (required jd_exp). Qed.

Lemma get_minimum jd_exp :
  min_years jd_exp ≠ PyNone →
  ∃ m, get (min_years jd_exp) (PyInt 0) = Some m ∧ (value_of m == minimum_of jd_exp)%Q.
Proof.
  unfold get, minimum_of. destruct (min_years jd_exp) as [| |m]; intros H.
  - by exists (PyInt 0).
  - done.
  - by exists m.
Qed.

Lemma exceeds_spec total_exp jd_exp :
  exceeds total_exp (jd_max_of (max_years jd_exp)) = true
  ↔ above_maximum jd_exp (value_of total_exp).
Proof.
  unfold exceeds, jd_max_of, above_maximum.
  destruct (max_years jd_exp); rewrite ?Qlt_bool_iff; done.
Qed.

Lemma within_range_spec total_exp jd_exp m :
  (value_of m == minimum_of jd_exp)%Q →
  Qle_bool (value_of m) (value_of total_exp)
  && negb (exceeds total_exp (jd_max_of (max_years jd_exp))) = true
  ↔ within_range jd_exp (value_of total_exp).
Proof.
  intros Hm. unfold within_range.
  rewrite andb_true_iff, negb_true_iff, Qle_bool_iff, Hm.
  unfold exceeds, jd_max_of. destruct (max_years jd_exp) as [| |mx].
  - tauto.
  - tauto.
  - rewrite Qlt_bool_false. split; intros [H1 H2]; split; try done.
    + by apply Qnot_lt_le.
    + by apply Qle_not_lt.
Qed.

#[local] Instance within_range_proper jd_exp : Proper (Qeq ==> iff) (within_range jd_exp).
Proof.
  intros x y Hxy. unfold within_range. destruct (max_years jd_exp); by rewrite Hxy.
Qed.

#[local] Instance above_maximum_proper jd_exp : Proper (Qeq ==> iff) (above_maximum jd_exp).
Proof.
  intros x y Hxy. unfold above_maximum. destruct (max_years jd_exp); by rewrite ?Hxy.
Qed.

#[local] Instance years_rule_proper jd_exp : Proper (Qeq ==> eq ==> iff) (years_rule jd_exp).
Proof.
  intros x y Hxy p q ->. unfold years_rule. by rewrite Hxy.
Qed.

Lemma existsb_elem_of {A} (f : A → bool) (l : list A) :
  existsb f l = true ↔ ∃ x, x ∈ l ∧ f x = true.
Proof.
  rewrite existsb_exists. split; intros (x & Hin & Hf); exists x;
    (split; [by apply list_elem_of_In | done]).
Qed.




Lemma years_points_rule jd_exp total_exp :
  min_years jd_exp ≠ PyNone →
  ∃ points,
    years_points total_exp (get (min_years jd_exp) (PyInt 0)) (jd_max_of (max_years jd_exp))
    = Ok points
    ∧ years_rule jd_exp (value_of total_exp) points.
Proof.
  intros Hmin. destruct (get_minimum jd_exp Hmin) as (m & -> & Hm).
  unfold years_points, py_ge, py_compare, years_rule. simpl.
  pose proof (within_range_spec total_exp jd_exp m Hm) as Hrange.
  pose proof (exceeds_spec total_exp jd_exp) as Habove.
  destruct (Qle_bool (value_of m) (value_of total_exp)
            && negb (exceeds total_exp (jd_max_of (max_years jd_exp)))) eqn:Hin.
  { exists 30%Q. split; [done|]. left. split; [by apply Hrange | done]. }
  assert (¬ within_range jd_exp (value_of total_exp)) as Hout.
  { intros H. apply Hrange in H. congruence. }
  destruct (exceeds total_exp (jd_max_of (max_years jd_exp))) eqn:Hex.
  { exists 20%Q. split; [done|]. right; left. split; [done|]. split; [by apply Habove | done]. }
  assert (¬ above_maximum jd_exp (value_of total_exp)) as Hnot.
  { intros H. apply Habove in H. congruence. }
  destruct (Qle_bool (value_of m * (8 # 10)) (value_of total_exp)) eqn:Hclose.
  - exists 15%Q. split; [done|]. right; right; left. repeat split; try done.
    apply Qle_bool_iff in Hclose. by rewrite <- Hm, Qmult_comm.
  - exists 0%Q. split; [done|]. right; right; right. repeat split; try done.
    apply Qle_bool_false in Hclose. by rewrite <- Hm, Qmult_comm.
Qed.

Lemma counts_filter (test : string → bool) (P : string → Prop) l :
  (∀ x, test x = true ↔ P x) →
  counts P l (length (filter (λ x, test x = true) l)).
Proof.
  intros Htest. induction l as [|x l IH]; [constructor|].
  rewrite filter_cons. destruct (decide (test x = true)) as [Hx | Hx].
  - apply counts_yes; [by apply Htest | done].
  - apply counts_no; [by rewrite <- Htest | done].
Qed.

Lemma counts_unique P l n m : counts P l n → counts P l m → n = m.
Proof.
  intros Hn. revert m. induction Hn; intros m Hm; inversion Hm; subst; try done.
  - f_equal. auto.
  - auto.
Qed.




Lemma sum_years_error resume_exp : ∀ acc e,
  sum_years acc resume_exp = Raise e → ∃ msg, e = TypeError msg.
Proof.
  induction resume_exp as [|entry rest IH]; intros acc e; simpl; [done|].
  destruct (get (years entry) (PyInt 0)); [apply IH|].
  intros [= <-]. eauto.
Qed.

Lemma evaluate_experience_error jd_exp resume_exp use_fuzzy_matching e :
  evaluate_experience jd_exp resume_exp use_fuzzy_matching = Raise e →
  ∃ msg, e = TypeError msg.
Proof.
  unfold evaluate_experience. destruct (is_empty jd_exp); [done|].
  destruct (negb (is_required jd_exp)); [done|].
  destruct resume_exp as [|entry rest] eqn:Hresume; [done|]. rewrite <- Hresume. clear Hresume.
  destruct (sum_years (PyInt 0) resume_exp) as [total|e'] eqn:Hsum; simpl.
  - unfold py_lt, py_compare. destruct (get (min_years jd_exp) (PyInt 0)); simpl.
    + destruct (_ || _); [done|]. by destruct (fields_of jd_exp).
    + intros [= <-]. eauto.
  - intros [= <-]. by eapply sum_years_error.
Qed.

(** C4, on the code: [evaluate_experience] never produces the typed error,
    whatever is missing; a record whose years are [None] stops both functions
    at their [sum] with a plain [TypeError], which [upload] reports as a
    failed analysis; only [score_experience_match], comparing a total that
    is a float with a minimum that is [None], produces
    [FloatNoneComparisonError], and with an integer total it re-raises the
    [TypeError]. *)
Theorem missing_years_raise_plain_type_error :
  (∀ jd_exp resume_exp use_fuzzy_matching msg,
     evaluate_experience jd_exp resume_exp use_fuzzy_matching
     ≠ Raise (FloatNoneComparisonError msg))
  ∧ (∀ jd_exp resume_exp use_fuzzy_matching,
       is_empty jd_exp = false → ¬ numeric_years resume_exp →
       ∃ msg, score_experience_match jd_exp resume_exp use_fuzzy_matching
              = Raise (TypeError msg))
  ∧ evaluate_experience two_to_five_years_python years_unknown true
    = Raise (TypeError "unsupported operand type(s) for +: 'int' and 'NoneType'")
  ∧ score_experience_match two_to_five_years_python years_unknown true
    = Raise (TypeError "unsupported operand type(s) for +: 'int' and 'NoneType'")
  ∧ (∀ py_float jd resume,
       App.jd_experience jd = two_to_five_years_python →
       App.resume_experience resume = years_unknown →
       App.upload_analysis py_float jd resume true = App.AnalysisFailed)
  ∧ score_experience_match minimum_unknown python_developer true
    = Raise (FloatNoneComparisonError
               "Unable to compare experience years due to missing or invalid data in JD or resume.")
  ∧ score_experience_match minimum_unknown three_years_python true
    = Raise (TypeError "'>=' not supported between instances of 'int' and 'NoneType'").
Proof.
  split; [|split; [|split; [|split; [|split; [|split]]]]].
  - intros jd_exp resume_exp fuzzy msg H.
    by apply evaluate_experience_error in H as [? ?].
  - intros jd_exp resume_exp fuzzy Hne Hnum. unfold score_experience_match. rewrite Hne.
    destruct resume_exp as [|entry rest] eqn:Hresume; [destruct Hnum; constructor|].
    rewrite <- Hresume in *.
    destruct (sum_years_none resume_exp (PyInt 0) Hnum) as (kind & ->). eauto.
  - vm_compute. reflexivity.
  - vm_compute. reflexivity.
  - intros py_float jd resume Hjd Hresume. unfold App.upload_analysis.
    destruct (evaluate_resume_never_raises (App.skills_expression jd) (App.resume_skills resume))
      as (result & score & ->).
    rewrite Hjd, Hresume. reflexivity.
  - vm_compute. reflexivity.
  - vm_compute. reflexivity.
Qed.

(** C10: with fuzzy matching on, the score counts a required field that is
    contained in a record's field whatever their similarity ratio, while the
    pass/fail check accepts only fuzzy similarity; so py against a record in
    the field Python developer (ratio 2/9) earns the full score of 100 and
    fails the check. *)
Theorem score_accepts_substring_fallback :
  (∀ jd_field entry,
     substring_of (lower jd_field) (field_text entry) →
     field_matched true jd_field entry = true)
  ∧ (∀ jd_field entry,
       field_found true jd_field entry = true ↔ fuzzy_similar jd_field (field_text entry))
  ∧ (Difflib.ratio "py" "python developer" == 2 # 9)%Q
  ∧ substring_of "py" "python developer"
  ∧ evaluate_experience requires_py python_developer true = Ok false
  ∧ score_experience_match requires_py python_developer true = Ok 100%Q.
Proof.
  split; [|split; [|split; [|split; [|split]]]].
  - intros jd_field entry Hsub. apply field_matched_spec. by right.
  - intros jd_field entry. by rewrite field_found_spec.
  - vm_compute. reflexivity.
  - by exists EmptyString, "thon developer".
  - vm_compute. reflexivity.
  - vm_compute. reflexivity.
Qed.

End ExperienceMatcher.

(** ** The education matcher *)

Section EducationMatcher.
Import Py EducationExtract EducationSpec.

Context (py_float : string → exn pyfloat).

Lemma parse_cgpa_total cgpa : ∃ parsed, parse_cgpa py_float cgpa = Ok parsed.
Proof.
  unfold parse_cgpa. destruct (cgpa_falsy cgpa); [eauto|].
  unfold try_except. destruct (parse_cgpa_body py_float cgpa); eauto.
Qed.

Lemma app_parse_cgpa cgpa : App.parse_cgpa py_float cgpa = parse_cgpa py_float cgpa.
Proof. reflexivity. Qed.

Lemma parsed_cgpa_not_string cgpa s : App.parsed_cgpa py_float cgpa ≠ CgpaStr s.
Proof.
  unfold App.parsed_cgpa. by destruct (App.parse_cgpa py_float cgpa) as [[[q|negative|]|]|e].
Qed.

Lemma rstrip_no_space s : plain s = true → rstrip is_space s = s.
Proof.
  induction s as [|c r IH]; simpl; [done|].
  rewrite !andb_true_iff, !negb_true_iff. intros [[Hc _] Hr].
  rewrite (IH Hr). destruct r; [by rewrite Hc | done].
Qed.

Lemma plain_strip s : plain s = true → strip s = s.
Proof.
  intros Hs. unfold strip, strip_by.
  assert (lstrip is_space s = s) as ->; [|by apply rstrip_no_space].
  destruct s as [|c r]; [done|]. simpl in *.
  apply andb_true_iff in Hs as [Hc _]. apply andb_true_iff in Hc as [Hc _].
  apply negb_true_iff in Hc. by rewrite Hc.
Qed.

Lemma plain_remove_percent s : plain s = true → remove_char "%" s = s.
Proof.
  induction s as [|c r IH]; simpl; [done|].
  rewrite !andb_true_iff, !negb_true_iff. intros [[_ Hc] Hr].
  rewrite Hc. by rewrite IH.
Qed.

Lemma strip_with_percent s :
  s ≠ EmptyString → plain s = true → strip (s +:+ "%") = s +:+ "%".
Proof.
  intros Hne Hs. unfold strip, strip_by.
  assert (lstrip is_space (s +:+ "%") = s +:+ "%") as ->.
  { destruct s as [|c r]; [done|]. simpl in *.
    apply andb_true_iff in Hs as [Hc _]. apply andb_true_iff in Hc as [Hc _].
    apply negb_true_iff in Hc. by rewrite Hc. }
  clear Hne. induction s as [|c r IH]; [done|]. simpl in *.
  apply andb_true_iff in Hs as [_ Hr]. rewrite (IH Hr).
  destruct r; done.
Qed.

Lemma remove_trailing_percent s : plain s = true → remove_char "%" (s +:+ "%") = s.
Proof.
  induction s as [|c r IH]; simpl; [done|].
  rewrite !andb_true_iff, !negb_true_iff. intros [[_ Hc] Hr].
  rewrite Hc. by rewrite IH.
Qed.

Lemma append_not_empty s t : s ≠ EmptyString → s +:+ t ≠ EmptyString.
Proof. by destruct s. Qed.

Lemma parse_cgpa_string s :
  s ≠ EmptyString →
  parse_cgpa py_float (CgpaStr s)
  = Ok (match py_float (remove_char "%" (strip s)) with
        | Ok x => Some x
        | Raise _ => None
        end).
Proof.
  intros Hs. unfold parse_cgpa, cgpa_falsy, truthy.
  rewrite bool_decide_eq_false_2 by done. simpl.
  by destruct (py_float _).
Qed.

(** A required level with a minimum CGPA is matched only by a record whose
    CGPA is a number at least as large, plus infinity, or [nan]. *)
Lemma level_match_cgpa jd entry level_name minimum :
  required jd = true → jd_cgpa jd = Some minimum →
  education_level_match jd (Some entry) level_name = Ok true →
  match cgpa entry with
  | CgpaNum c => (value_of minimum <= value_of c)%Q
  | CgpaInf negative => negative = false
  | CgpaNaN => True
  | _ => False
  end.
Proof.
  intros Hreq Hmin. unfold education_level_match. rewrite Hreq, Hmin. simpl.
  match goal with |- context [negb ?d] => destruct d end; simpl; [|done].
  destruct (cgpa entry) as [|c|s|negative|]; simpl; [done| |done| |done].
  - intros [= Hbelow]. apply negb_true_iff, Qlt_bool_false in Hbelow. by apply Qnot_lt_le.
  - intros [= Hbelow]. by apply negb_true_iff in Hbelow.
Qed.

Lemma level_match_no_cgpa jd entry level_name minimum :
  required jd = true → jd_cgpa jd = Some minimum → cgpa entry = CgpaNone →
  education_level_match jd (Some entry) level_name = Ok false.
Proof.
  intros Hreq Hmin Hnone. unfold education_level_match. rewrite Hreq, Hmin, Hnone. simpl.
  by match goal with |- context [negb ?d] => destruct d end.
Qed.

(** C9, amended: [parse_cgpa] returns on every input; [None], a zero and the
    empty string parse to [None]; another number parses to itself, another
    string to what [float] reads in it once trimmed and without its percent
    signs, so a trailing percent sign changes nothing; what [float] rejects
    parses to [None]; a required level with a minimum CGPA is matched only
    by a record whose parsed CGPA is there and, when it is not [nan], at
    least the minimum, a record without one failing; and a level that is not
    marked required is matched whatever the CGPA. *)
Theorem cgpa_handling :
  (∀ cgpa, ∃ parsed, parse_cgpa py_float cgpa = Ok parsed)
  ∧ (∀ cgpa, cgpa_falsy cgpa = true → parse_cgpa py_float cgpa = Ok None)
  ∧ (∀ n, ¬ (value_of n == 0)%Q →
       parse_cgpa py_float (CgpaNum n) = Ok (Some (Number (value_of n))))
  ∧ (∀ s x, s ≠ EmptyString → py_float (remove_char "%" (strip s)) = Ok x →
       parse_cgpa py_float (CgpaStr s) = Ok (Some x))
  ∧ (∀ s, s ≠ EmptyString → plain s = true →
       parse_cgpa py_float (CgpaStr (s +:+ "%")) = parse_cgpa py_float (CgpaStr s))
  ∧ (∀ s e, py_float (remove_char "%" (strip s)) = Raise e →
       parse_cgpa py_float (CgpaStr s) = Ok None)
  ∧ (∀ jd entry level_name minimum,
       required jd = true → jd_cgpa jd = Some minimum →
       education_level_match jd (Some (preprocessed py_float entry)) level_name = Ok true →
       ∃ x, parse_cgpa py_float (cgpa entry) = Ok (Some x)
            ∧ (x ≠ NaN → float_at_least x minimum))
  ∧ (∀ jd entry level_name minimum,
       required jd = true → jd_cgpa jd = Some minimum →
       parse_cgpa py_float (cgpa entry) = Ok None →
       education_level_match jd (Some (preprocessed py_float entry)) level_name = Ok false)
  ∧ (∀ jd resume level_name,
       required jd = false → education_level_match jd resume level_name = Ok true).
Proof.
  split; [|split; [|split; [|split; [|split; [|split; [|split; [|split]]]]]]].
  - apply parse_cgpa_total.
  - intros cgpa Hfalsy. unfold parse_cgpa. by rewrite Hfalsy.
  - intros n Hn. unfold parse_cgpa, cgpa_falsy.
    destruct (Qeq_bool (value_of n) 0) eqn:Hz; [|done].
    by apply Qeq_bool_iff in Hz.
  - intros s x Hs Hx. by rewrite parse_cgpa_string, Hx.
  - intros s Hs Hplain.
    rewrite !parse_cgpa_string by (done || by apply append_not_empty).
    by rewrite strip_with_percent, remove_trailing_percent, plain_strip,
      plain_remove_percent.
  - intros s e He. destruct (decide (s = EmptyString)) as [-> | Hs]; [done|].
    by rewrite parse_cgpa_string, He.
  - intros jd entry level_name minimum Hreq Hmin Hmatch.
    pose proof (level_match_cgpa _ _ _ _ Hreq Hmin Hmatch) as Hcgpa.
    simpl in Hcgpa. unfold App.parsed_cgpa in Hcgpa. rewrite app_parse_cgpa in Hcgpa.
    destruct (parse_cgpa py_float (cgpa entry)) as [[x|]|e]; [|done|done].
    exists x. split; [done|]. by destruct x.
  - intros jd entry level_name minimum Hreq Hmin Hnone.
    apply (level_match_no_cgpa _ _ _ _ Hreq Hmin). simpl.
    unfold App.parsed_cgpa. by rewrite app_parse_cgpa, Hnone.
  - intros jd resume level_name Hreq. unfold education_level_match. by rewrite Hreq.
Qed.

Lemma preprocess_resume_data_ok resume_education :
  App.preprocess_resume_data py_float resume_education
  = Ok (preprocessed py_float <$> resume_education).
Proof.
  unfold App.preprocess_resume_data.
  induction resume_education as [|entry rest IH]; [done|].
  simpl. rewrite IH. unfold preprocessed, App.parsed_cgpa.
  destruct (parse_cgpa_total (cgpa entry)) as [parsed Hparsed].
  rewrite app_parse_cgpa, Hparsed. by destruct parsed.
Qed.

Lemma get_resume_entry_elem resume_education level_name entry :
  App.get_resume_entry resume_education level_name = Some entry → entry ∈ resume_education.
Proof.
  unfold App.get_resume_entry. intros H. apply find_some in H as [H _].
  by apply list_elem_of_In.
Qed.

(** Only a CGPA left as a string can make the comparison raise. *)
Lemma level_match_total jd resume level_name :
  (∀ entry s, resume = Some entry → cgpa entry ≠ CgpaStr s) →
  ∃ matched, education_level_match jd resume level_name = Ok matched.
Proof.
  intros Hcgpa. unfold education_level_match.
  destruct (negb (required jd)); [eauto|].
  destruct resume as [entry|]; [|eauto].
  match goal with |- context [negb ?d] => destruct (negb d) end; [eauto|].
  destruct (jd_cgpa jd) as [minimum|]; [|eauto].
  destruct (cgpa entry) as [|c|s|negative|] eqn:Hc; simpl; eauto.
  by destruct (Hcgpa entry s).
Qed.

Lemma level_match_preprocessed jd resume_education level_name :
  ∃ matched,
    education_level_match jd
      (App.get_resume_entry (preprocessed py_float <$> resume_education) level_name)
      level_name = Ok matched.
Proof.
  apply level_match_total. intros entry s Hentry.
  apply get_resume_entry_elem, list_elem_of_fmap in Hentry as (original & -> & _).
  apply parsed_cgpa_not_string.
Qed.

Lemma get_resume_entry_preprocessed resume_education level_name :
  App.get_resume_entry (preprocessed py_float <$> resume_education) level_name
  = preprocessed py_float <$> App.get_resume_entry resume_education level_name.
Proof.
  unfold App.get_resume_entry.
  induction resume_education as [|entry rest IH]; [done|].
  rewrite fmap_cons. simpl. by destruct (bool_decide _).
Qed.

(** Parsing again a CGPA that is already parsed changes no level match. *)
Lemma level_match_already_parsed jd entry level_name :
  already_parsed (cgpa entry) →
  education_level_match jd (Some (preprocessed py_float entry)) level_name
  = education_level_match jd (Some entry) level_name.
Proof.
  intros Hparsed. unfold education_level_match. simpl.
  destruct (negb (required jd)); [done|].
  match goal with |- context [negb ?d] => destruct (negb d) end; [done|].
  destruct (jd_cgpa jd) as [minimum|]; [|done].
  unfold App.parsed_cgpa, App.parse_cgpa.
  destruct (cgpa entry) as [|n|s|negative|]; try done. simpl in Hparsed.
  unfold cgpa_falsy.
  destruct (Qeq_bool (value_of n) 0) eqn:Hz; [by apply Qeq_bool_iff in Hz|].
  done.
Qed.

Lemma all_levels_match_true jd_education resume_education names :
  App.all_levels_match jd_education resume_education names = Ok true
  ↔ ∀ level_name, level_name ∈ names →
      education_level_match (App.jd_entry_of jd_education level_name)
        (App.get_resume_entry resume_education level_name) level_name = Ok true.
Proof.
  induction names as [|name rest IH]; simpl.
  - split; [|done]. intros _ level_name H. by apply elem_of_nil in H.
  - destruct (education_level_match _ _ name) as [[|]|e] eqn:Hname; simpl.
    + rewrite IH. split.
      * intros Hrest level_name Hin. apply elem_of_cons in Hin as [-> | Hin]; auto.
      * intros Hall level_name Hin. apply Hall. by right.
    + split; [done|]. intros Hall. specialize (Hall name (list_elem_of_here _ _)). congruence.
    + split; [done|]. intros Hall. specialize (Hall name (list_elem_of_here _ _)). congruence.
Qed.

Lemma weighted_share_range satisfied :
  (0 <= weighted_share satisfied)%Q ∧ (weighted_share satisfied <= 100)%Q.
Proof.
  unfold weighted_share.
  destruct (satisfied "10th"), (satisfied "PU"), (satisfied "UG"), (satisfied "PG");
    vm_compute; split; discriminate.
Qed.

(** The loop of [evaluate_education_score] over the four weights. *)
Lemma evaluate_education_score_share jd_education resume_education :
  ∃ satisfied,
    (∀ level_name, level_name ∈ levels →
       education_level_match (App.jd_entry_of jd_education level_name)
         (App.get_resume_entry (preprocessed py_float <$> resume_education) level_name)
         level_name = Ok (satisfied level_name))
    ∧ App.evaluate_education_score py_float jd_education resume_education
      = Ok (weighted_share satisfied).
Proof.
  set (resume := preprocessed py_float <$> resume_education).
  destruct (level_match_preprocessed (App.jd_entry_of jd_education "10th")
              resume_education "10th") as [b1 H1].
  destruct (level_match_preprocessed (App.jd_entry_of jd_education "PU")
              resume_education "PU") as [b2 H2].
  destruct (level_match_preprocessed (App.jd_entry_of jd_education "UG")
              resume_education "UG") as [b3 H3].
  destruct (level_match_preprocessed (App.jd_entry_of jd_education "PG")
              resume_education "PG") as [b4 H4].
  fold resume in H1, H2, H3, H4.
  exists (λ level_name,
            if bool_decide (level_name = "10th") then b1
            else if bool_decide (level_name = "PU") then b2
            else if bool_decide (level_name = "UG") then b3
            else b4).
  split.
  - intros level_name Hin. unfold levels in Hin.
    repeat (apply elem_of_cons in Hin as [-> | Hin]; [done|]).
    by apply elem_of_nil in Hin.
  - unfold App.evaluate_education_score. rewrite preprocess_resume_data_ok.
    fold resume. unfold App.EDUCATION_LEVEL_WEIGHTS.
    change (Ok resume ≫= ?f) with (f resume). cbv beta.
    unfold App.weigh. fold App.weigh.
    rewrite H1. change (Ok b1 ≫= ?f) with (f b1). cbv beta.
    unfold App.weigh. fold App.weigh.
    rewrite H2. change (Ok b2 ≫= ?f) with (f b2). cbv beta.
    unfold App.weigh. fold App.weigh.
    rewrite H3. change (Ok b3 ≫= ?f) with (f b3). cbv beta.
    unfold App.weigh. fold App.weigh.
    rewrite H4. change (Ok b4 ≫= ?f) with (f b4). cbv beta.
    unfold App.weigh.
    destruct b1, b2, b3, b4; vm_compute; reflexivity.
Qed.

Lemma all_levels_match_satisfied jd_education resume_education satisfied names :
  (∀ level_name, level_name ∈ names →
     education_level_match (App.jd_entry_of jd_education level_name)
       (App.get_resume_entry resume_education level_name) level_name
     = Ok (satisfied level_name)) →
  App.all_levels_match jd_education resume_education names = Ok (forallb satisfied names).
Proof.
  induction names as [|name rest IH]; intros Hlevels; [done|].
  cbn [App.all_levels_match forallb].
  rewrite (Hlevels name) by apply list_elem_of_here. simpl.
  destruct (satisfied name); [|done]. simpl. apply IH.
  intros level_name Hin. apply Hlevels. by right.
Qed.

(** Where the CGPAs are parsed already, the levels are judged alike with and
    without the parsing of [evaluate_education_score]. *)
Lemma level_match_parsed_list jd resume_education level_name :
  Forall (λ entry, already_parsed (cgpa entry)) resume_education →
  education_level_match jd
    (App.get_resume_entry (preprocessed py_float <$> resume_education) level_name) level_name
  = education_level_match jd (App.get_resume_entry resume_education level_name) level_name.
Proof.
  intros Hparsed. rewrite get_resume_entry_preprocessed.
  destruct (App.get_resume_entry resume_education level_name) as [entry|] eqn:Hentry;
    [|done].
  apply level_match_already_parsed.
  apply get_resume_entry_elem in Hentry.
  by apply (proj1 (Forall_forall _ _) Hparsed).
Qed.

(** C8, on the code.  A level is satisfied when [education_level_match]
    holds of it on the records with their CGPA parsed.  A level that is not
    marked required is satisfied whatever the records; a required level
    without a record of that level fails; the education score is the weight
    of the satisfied levels (0.1, 0.2, 0.5, 0.2) over the total weight, as a
    percentage with two decimals, hence between 0 and 100; when no level is
    marked required the match holds and the score is 100.  The education
    match is the conjunction of the four satisfied levels where the records
    hold their CGPA as [parse_cgpa] leaves it.  But [upload] takes the match
    on the records as they were extracted, before any parsing: a CGPA given
    as a text, which the score reads as a number, makes the match raise, and
    the analysis fails, where the score counts the level as satisfied. *)
Theorem education_match_reads_unparsed_cgpa jd_education resume_education :
  (∀ jd resume level_name,
     required jd = false → education_level_match jd resume level_name = Ok true)
  ∧ (∀ jd level_name,
       required jd = true → education_level_match jd None level_name = Ok false)
  ∧ (∃ satisfied,
       (∀ level_name, level_name ∈ levels →
          education_level_match (App.jd_entry_of jd_education level_name)
            (App.get_resume_entry (preprocessed py_float <$> resume_education) level_name)
            level_name = Ok (satisfied level_name))
       ∧ App.evaluate_education_score py_float jd_education resume_education
         = Ok (weighted_share satisfied)
       ∧ (0 <= weighted_share satisfied)%Q ∧ (weighted_share satisfied <= 100)%Q
       ∧ (Forall (λ entry, already_parsed (cgpa entry)) resume_education →
          App.education_result_of jd_education resume_education
          = Ok (forallb satisfied levels)))
  ∧ ((∀ level_name, level_name ∈ levels →
        required (App.jd_entry_of jd_education level_name) = false) →
     App.education_result_of jd_education resume_education = Ok true
     ∧ App.evaluate_education_score py_float jd_education resume_education = Ok 100%Q)
  ∧ App.education_result_of (App.jd_education UploadFacts.asks_tenth_cgpa)
      (App.resume_education UploadFacts.tenth_cgpa_as_text)
    = Raise (TypeError "'<' not supported between instances of 'str' and 'int'")
  ∧ App.evaluate_education_score decimal_float (App.jd_education UploadFacts.asks_tenth_cgpa)
      (App.resume_education UploadFacts.tenth_cgpa_as_text) = Ok 100%Q
  ∧ App.upload_analysis py_float UploadFacts.asks_tenth_cgpa UploadFacts.tenth_cgpa_as_text
      false = App.AnalysisFailed.
Proof.
  assert (∀ jd resume level_name,
            required jd = false → education_level_match jd resume level_name = Ok true)
    as Hfree.
  { intros jd resume level_name Hreq. unfold education_level_match. by rewrite Hreq. }
  assert (App.education_result_of (App.jd_education UploadFacts.asks_tenth_cgpa)
            (App.resume_education UploadFacts.tenth_cgpa_as_text)
          = Raise (TypeError "'<' not supported between instances of 'str' and 'int'"))
    as Hraise.
  { vm_compute. reflexivity. }
  split; [done|]. split; [|split; [|split; [|split; [|split]]]].
  - intros jd level_name Hreq. unfold education_level_match. by rewrite Hreq.
  - destruct (evaluate_education_score_share jd_education resume_education)
      as (satisfied & Hlevels & Hscore).
    exists satisfied. split; [done|]. split; [done|].
    split; [apply weighted_share_range|]. split; [apply weighted_share_range|].
    intros Hparsed. apply all_levels_match_satisfied. intros level_name Hin.
    rewrite <- (Hlevels level_name Hin). symmetry. by apply level_match_parsed_list.
  - intros Hnone. split.
    + apply all_levels_match_true. intros level_name Hin. by apply Hfree, Hnone.
    + destruct (evaluate_education_score_share jd_education resume_education)
        as (satisfied & Hlevels & ->).
      assert (∀ level_name, level_name ∈ levels → satisfied level_name = true) as Hall.
      { intros level_name Hin. specialize (Hlevels level_name Hin).
        rewrite (Hfree _ _ _ (Hnone level_name Hin)) in Hlevels. congruence. }
      unfold weighted_share.
      rewrite !Hall by (unfold levels; set_solver).
      vm_compute. reflexivity.
  - exact Hraise.
  - vm_compute. reflexivity.
  - unfold App.upload_analysis.
    assert (SkillExtract.evaluate_resume (App.skills_expression UploadFacts.asks_tenth_cgpa)
              (App.resume_skills UploadFacts.tenth_cgpa_as_text) = Ok (false, 50%Q)) as ->.
    { vm_compute. reflexivity. }
    cbn [App.experience_step]. by rewrite Hraise.
Qed.

End EducationMatcher.

Lemma education_match_witness :
  App.education_result_of ∅ [EducationSpec.ug_with_85_percent] = Py.Ok true
  ∧ App.evaluate_education_score EducationSpec.decimal_float ∅
      [EducationSpec.ug_with_85_percent] = Py.Ok 100%Q.
Proof.
  apply (proj1 (proj2 (proj2 (proj2
           (education_match_reads_unparsed_cgpa EducationSpec.decimal_float ∅
              [EducationSpec.ug_with_85_percent]))))).
  intros level_name _. reflexivity.
Defined.

Lemma cgpa_handling_witness :
  EducationExtract.parse_cgpa EducationSpec.decimal_float (EducationExtract.CgpaStr "8.5%")
  = Py.Ok (Some (Py.Number (17 # 2))).
Proof.
  apply (proj1 (proj2 (proj2 (proj2 (cgpa_handling EducationSpec.decimal_float))))).
  - discriminate.
  - vm_compute. reflexivity.
Defined.

(** The claim C9 as stated fails in three places: the number zero does not
    parse to a CGPA; a level that is not marked required is satisfied by a
    record without a CGPA although the requirement names a minimum; and the
    text nan, which [float] reads as not a number, is below no minimum, so
    that a record whose CGPA is that text satisfies a required level with a
    minimum of 7. *)
Lemma cgpa_handling_counterexample :
  EducationExtract.parse_cgpa EducationSpec.decimal_float
    (EducationExtract.CgpaNum (Py.PyInt 0)) = Py.Ok None
  ∧ EducationExtract.jd_cgpa EducationSpec.prefers_cgpa_8 = Some (Py.PyInt 8)
  ∧ EducationExtract.parse_cgpa EducationSpec.decimal_float
      (EducationExtract.cgpa EducationSpec.ug_without_cgpa) = Py.Ok None
  ∧ EducationExtract.education_level_match EducationSpec.prefers_cgpa_8
      (Some (EducationSpec.preprocessed EducationSpec.decimal_float
               EducationSpec.ug_without_cgpa)) "UG" = Py.Ok true
  ∧ EducationExtract.parse_cgpa EducationSpec.decimal_float
      (EducationExtract.cgpa EducationSpec.tenth_with_nan) = Py.Ok (Some Py.NaN)
  ∧ EducationExtract.education_level_match EducationSpec.requires_cgpa_7
      (Some (EducationSpec.preprocessed EducationSpec.decimal_float
               EducationSpec.tenth_with_nan)) "10th" = Py.Ok true.
Proof. repeat split. Qed.

(** ** The aggregation of [upload] *)

Section Aggregation.
Import Py App AggregateSpec.

Lemma overall_result_pass skills_result education_result experience_result :
  overall_result_of skills_result education_result experience_result = "Pass"
  ↔ skills_result = true ∧ education_result = true ∧ experience_result = true.
Proof.
  unfold overall_result_of.
  destruct skills_result, education_result, experience_result; simpl;
    (split; [intros H; by repeat split | by intros (? & ? & ?)]).
Qed.

Lemma overall_score_mean match_count education_score experience_score :
  (overall_score_of match_count education_score experience_score
   == mean_of_present match_count education_score experience_score)%Q.
Proof.
  unfold overall_score_of, mean_of_present, sum_scores, num.
  destruct experience_score as [x|]; simpl; field.
Qed.

Lemma experience_step_required jd_exp resume_exp result score :
  experience_step true jd_exp resume_exp = Ok (result, score) →
  ExperTest.evaluate_experience jd_exp resume_exp true = Ok result
  ∧ ∃ s, score = Some s ∧ ExperTest.score_experience_match jd_exp resume_exp true = Ok s.
Proof.
  unfold experience_step.
  destruct (ExperTest.evaluate_experience _ _ _) as [r|e]; simpl; [|done].
  destruct (ExperTest.score_experience_match _ _ _) as [s|e]; simpl; [|done].
  intros [= -> <-]. eauto.
Qed.

(** C7: the overall result is Pass exactly when the skills match, the
    education matches, and the experience either matches or was not
    evaluated; the overall score is the plain mean of the scores that are
    there, the experience score being absent when the experience was not
    evaluated; skills at 80 and education at 60 without experience give 70. *)
Theorem aggregation_rule :
  (∀ py_float jd resume experience_required r,
     upload_analysis py_float jd resume experience_required = Analysed r →
     (overall_result r = "Pass"
      ↔ skills_match r = true ∧ education_match r = true
        ∧ (experience_match r = Some true ∨ experience_match r = None))
     ∧ (overall_score r
        == mean_of_present (skills_score r) (education_score r) (experience_score r))%Q
     ∧ (experience_required = false ↔ experience_match r = None)
     ∧ (experience_required = false ↔ experience_score r = None))
  ∧ (∀ skills_result education_result experience_result,
       overall_result_of skills_result education_result experience_result = "Pass"
       ↔ skills_result = true ∧ education_result = true ∧ experience_result = true)
  ∧ (∀ jd_exp resume_exp, experience_step false jd_exp resume_exp = Ok (true, None))
  ∧ (overall_score_of 80 60 None == 70)%Q.
Proof.
  split; [|split; [apply overall_result_pass | split; [done | vm_compute; reflexivity]]].
  intros py_float jd resume experience_required r. unfold upload_analysis.
  destruct (SkillExtract.evaluate_resume _ _) as [[skills_result match_count]|?]; [|done].
  destruct (experience_step _ _ _) as [[experience_result experience_score]|e] eqn:Hstep.
  2:{ by destruct e. }
  destruct (education_result_of _ _) as [education_result|?]; [|done].
  destruct (evaluate_education_score _ _ _) as [education_score|?]; [|done].
  intros [= <-]. simpl. rewrite overall_result_pass.
  destruct experience_required.
  - apply experience_step_required in Hstep as (_ & s & -> & _).
    split; [|split; [apply overall_score_mean | split; done]].
    split.
    + intros (-> & -> & ->). auto.
    + intros (-> & -> & [[= ->] | ?]); done.
  - injection Hstep as <- <-.
    split; [|split; [apply overall_score_mean | split; done]].
    split.
    + intros (-> & -> & _). auto.
    + intros (-> & -> & _). done.
Qed.

Lemma aggregation_witness :
  ∃ r, upload_analysis EducationSpec.decimal_float sample_jd sample_resume false = Analysed r
       ∧ overall_result r = "Fail"
       ∧ (overall_score r == 75)%Q.
Proof.
  eexists. split; [vm_compute; reflexivity|].
  split; [reflexivity|].
  etransitivity.
  - apply (proj1 aggregation_rule EducationSpec.decimal_float sample_jd sample_resume false).
    vm_compute. reflexivity.
  - vm_compute. reflexivity.
Defined.

End Aggregation.

(** ** More on the skill engine: candidates, ranges, the other two functions *)

Section SkillCoverage.
Import Py SkillExtract SkillSpec SkillFacts.

(** *** Rounding *)

Lemma round_half_even_bounds x :
  (Qfloor x ≤ round_half_even x ≤ Qfloor x + 1)%Z.
Proof.
  unfold round_half_even. cbv zeta.
  destruct (x - inject_Z (Qfloor x) ?= 1 # 2)%Q; [destruct (Z.even _)|..]; lia.
Qed.

Lemma round_half_even_mono x y :
  (x <= y)%Q → (round_half_even x ≤ round_half_even y)%Z.
Proof.
  intros Hxy.
  pose proof (Qfloor_resp_le _ _ Hxy) as Hfloor.
  pose proof (round_half_even_bounds x) as Hx.
  pose proof (round_half_even_bounds y) as Hy.
  destruct (Z.eq_dec (Qfloor x) (Qfloor y)) as [Heq | Hne]; [|lia].
  unfold round_half_even in *. cbv zeta in *. rewrite <- Heq in *.
  set (f := Qfloor x) in *.
  assert (x - inject_Z f <= y - inject_Z f)%Q as Hfrac.
  { apply Qplus_le_l. done. }
  destruct (x - inject_Z f ?= 1 # 2)%Q eqn:Hcx;
    destruct (y - inject_Z f ?= 1 # 2)%Q eqn:Hcy;
    try (destruct (Z.even f)); try lia;
    repeat match goal with
           | H : (_ ?= _)%Q = Eq |- _ => apply Qeq_alt in H
           | H : (_ ?= _)%Q = Lt |- _ => apply Qlt_alt in H
           | H : (_ ?= _)%Q = Gt |- _ => apply Qgt_alt in H
           end;
    exfalso; apply (Qlt_irrefl (1 # 2));
    match goal with
    | Hx : (?a == 1 # 2)%Q, Hy : (?b < 1 # 2)%Q |- _ =>
        rewrite Hx in Hfrac; eapply Qle_lt_trans; eauto
    | Hx : (1 # 2 < ?a)%Q, Hy : (?b == 1 # 2)%Q |- _ =>
        rewrite Hy in Hfrac; eapply Qlt_le_trans; eauto
    | Hx : (1 # 2 < ?a)%Q, Hy : (?b < 1 # 2)%Q |- _ =>
        eapply Qlt_trans; [|exact Hy]; eapply Qlt_le_trans; eauto
    end.
Qed.

(** Rounding to two decimals keeps the order. *)
Lemma round2_mono x y : (x <= y)%Q → (round2 x <= round2 y)%Q.
Proof.
  intros Hxy. unfold round2. rewrite !Qred_correct.
  assert (x * 100 <= y * 100)%Q as H100.
  { apply Qmult_le_compat_r; [done|discriminate]. }
  apply round_half_even_mono in H100.
  unfold Qle. simpl. lia.
Qed.

Lemma round2_range x : (0 <= x <= 100)%Q → (0 <= round2 x <= 100)%Q.
Proof.
  intros [Hlow Hhigh]. split.
  - change 0%Q with (round2 0). by apply round2_mono.
  - change 100%Q with (round2 100). by apply round2_mono.
Qed.

Lemma num_le a b : a ≤ b → (num a <= num b)%Q.
Proof. intros Hab. unfold num, Qle. simpl. lia. Qed.

Lemma num_nonneg a : (0 <= num a)%Q.
Proof. unfold num, Qle. simpl. lia. Qed.

Lemma share_mono a b r :
  a ≤ b → (num a / num r * 100 <= num b / num r * 100)%Q.
Proof.
  intros Hab. apply Qmult_le_compat_r; [|discriminate].
  unfold Qdiv. apply Qmult_le_compat_r; [by apply num_le|].
  apply Qinv_le_0_compat, num_nonneg.
Qed.

Lemma share_range a r : a ≤ r → r ≠ 0 → (0 <= num a / num r * 100 <= 100)%Q.
Proof.
  intros Har Hr. split.
  - apply Qmult_le_0_compat; [|discriminate].
    unfold Qdiv. apply Qmult_le_0_compat; [apply num_nonneg|].
    apply Qinv_le_0_compat, num_nonneg.
  - eapply Qle_trans; [apply (share_mono a r r Har)|].
    assert (num r / num r == 1)%Q as ->; [|discriminate].
    apply Qmult_inv_r. unfold num, Qeq. simpl. lia.
Qed.

Lemma match_percentage_range required_skills resume_skills :
  (0 <= match_percentage required_skills resume_skills <= 100)%Q.
Proof.
  unfold match_percentage. case_bool_decide as Hempty; [split; discriminate|].
  apply share_range.
  - apply subseteq_size, intersection_subseteq_l.
  - intros Hsize. apply size_empty_inv in Hsize. apply Hempty. by apply leibniz_equiv.
Qed.

Lemma evaluate_resume_range skills_expression resume_skills :
  ∃ result score,
    evaluate_resume skills_expression resume_skills = Ok (result, score)
    ∧ (0 <= score <= 100)%Q.
Proof.
  unfold evaluate_resume.
  destruct (_ || _); [exists false, 0%Q; split; [done|split; discriminate]|].
  unfold evaluate_resume_body.
  destruct (findall_tokens skills_expression) as [|token rest];
    [exists false, 0%Q; split; [done|split; discriminate]|].
  destruct (evaluate_tokens _ _) as [result|e]; simpl.
  - eexists _, _. split; [done|]. apply round2_range, match_percentage_range.
  - exists false, 0%Q. split; [done|split; discriminate].
Qed.

(** X1: [evaluate_resume] returns for every expression and every set of
    candidate skills, and its score is a percentage: it lies between 0 and
    100. *)
Theorem skills_score_in_range skills_expression resume_skills :
  ∃ result score,
    evaluate_resume skills_expression resume_skills = Ok (result, score)
    ∧ (0 <= score <= 100)%Q.
Proof. apply evaluate_resume_range. Qed.

End SkillCoverage.

(** ** Two candidates, one expression *)

Section TwoCandidates.
Import Py SkillExtract SkillSpec SkillFacts.

Lemma agree_bind {A B} (P : A → A → Prop) (Q : B → B → Prop)
    (m1 m2 : exn A) (f g : A → exn B) :
  agree P m1 m2 → (∀ a b, P a b → agree Q (f a) (g b)) → agree Q (m1 ≫= f) (m2 ≫= g).
Proof. destruct m1, m2; simpl; try done. intros H Hfg. by apply Hfg. Qed.

Section Simulation.

Variables (R : bool → bool → Prop) (with_not : Prop) (skills1 skills2 : gset string).

Hypothesis R_and : ∀ a b c d, R a b → R c d → R (a && c) (b && d).
Hypothesis R_or : ∀ a b c d, R a b → R c d → R (a || c) (b || d).
Hypothesis R_not : with_not → ∀ a b, R a b → R (negb a) (negb b).
Hypothesis R_literal :
  ∀ token, R (bool_decide (token ∈ skills1)) (bool_decide (token ∈ skills2)).

Lemma apply_operator_agree op operands1 operands2 :
  (op = "not" → with_not) → Forall2 R operands1 operands2 →
  agree (Forall2 R) (apply_operator op operands1) (apply_operator op operands2).
Proof.
  intros Hop Hrel. unfold apply_operator. case_bool_decide as Hnot.
  - destruct Hrel as [|a b rest1 rest2 Hab Hrest]; simpl; [done|].
    constructor; [by apply R_not; auto|done].
  - destruct Hrel as [|r1 r2 ? ? Hr [|l1 l2 rest1 rest2 Hl Hrest]]; simpl; [done..|].
    repeat case_bool_decide; simpl.
    + constructor; [by apply R_and|done].
    + constructor; [by apply R_or|done].
    + done.
Qed.

Lemma apply_while_agree keep operators : ∀ operands1 operands2,
  Forall (λ op, op = "not" → with_not) operators →
  Forall2 R operands1 operands2 →
  agree (similar_stacks R with_not)
    (apply_while keep operators operands1) (apply_while keep operators operands2).
Proof.
  induction operators as [|top rest IH]; intros operands1 operands2 Hops Hrel; simpl.
  - by split_and!.
  - destruct (keep top).
    + apply Forall_cons in Hops as [Htop Hrest].
      eapply agree_bind; [by apply apply_operator_agree|].
      intros a b Hab. by apply IH.
    + by split_and!.
Qed.

Lemma step_agree st1 st2 token :
  (token = "not" → with_not) → similar_stacks R with_not st1 st2 →
  agree (similar_stacks R with_not) (step skills1 st1 token) (step skills2 st2 token).
Proof.
  intros Htoken (Hoperands & Hoperators & Hallowed). unfold step.
  rewrite <- Hoperators.
  destruct (is_operator token).
  { eapply agree_bind; [by apply apply_while_agree|].
    intros a b (Hab & Heq & Hall). simpl. unfold similar_stacks. simpl.
    split_and!; [done|by rewrite Heq|by constructor]. }
  case_bool_decide as Hopen.
  { simpl. unfold similar_stacks. simpl. split_and!; [done|done|].
    constructor; [|done]. by subst token. }
  case_bool_decide as Hclose.
  { eapply agree_bind; [by apply apply_while_agree|].
    intros a b (Hab & Heq & Hall). rewrite <- Heq.
    destruct (operator_stack a) as [|top rest]; simpl; [done|].
    unfold similar_stacks. simpl. split_and!; [done|done|].
    by apply Forall_cons in Hall as [_ ?]. }
  simpl. unfold similar_stacks. simpl. split_and!; [|done|done].
  constructor; [apply R_literal|done].
Qed.

Lemma run_agree tokens : ∀ st1 st2,
  Forall (λ token, token = "not" → with_not) tokens →
  similar_stacks R with_not st1 st2 →
  agree (similar_stacks R with_not) (run skills1 tokens st1) (run skills2 tokens st2).
Proof.
  induction tokens as [|token rest IH]; intros st1 st2 Htokens Hrel; simpl; [done|].
  apply Forall_cons in Htokens as [Htoken Hrest].
  eapply agree_bind; [by apply step_agree|].
  intros a b Hab. by apply IH.
Qed.

Lemma apply_remaining_agree operators : ∀ operands1 operands2,
  Forall (λ op, op = "not" → with_not) operators →
  Forall2 R operands1 operands2 →
  agree (Forall2 R) (apply_remaining operators operands1) (apply_remaining operators operands2).
Proof.
  induction operators as [|top rest IH]; intros operands1 operands2 Hops Hrel; simpl; [done|].
  case_bool_decide; [done|].
  apply Forall_cons in Hops as [Htop Hrest].
  eapply agree_bind; [by apply apply_operator_agree|].
  intros a b Hab. by apply IH.
Qed.

(** The evaluations of one token list for two candidates run in lockstep:
    they stop with the same error, or both give a value, and the values are
    related. *)
Lemma evaluate_tokens_agree tokens :
  Forall (λ token, token = "not" → with_not) tokens →
  agree R (evaluate_tokens skills1 tokens) (evaluate_tokens skills2 tokens).
Proof.
  intros Htokens. unfold evaluate_tokens.
  eapply agree_bind; [apply run_agree; [done|by split_and!]|].
  intros st1 st2 (Hoperands & Hoperators & Hallowed). rewrite <- Hoperators.
  eapply agree_bind; [by apply apply_remaining_agree|].
  intros a b Hab. destruct Hab; simpl; done.
Qed.

End Simulation.

Lemma evaluate_tokens_same_error skills1 skills2 tokens :
  agree (λ _ _, True) (evaluate_tokens skills1 tokens) (evaluate_tokens skills2 tokens).
Proof.
  apply (evaluate_tokens_agree (λ _ _, True) True); try done.
  by apply Forall_forall.
Qed.

(** X2: whether the evaluation inside the [try] of [evaluate_resume] fails,
    and with which error, depends on the expression alone: it fails for one
    set of candidate skills exactly when it fails for every other, with the
    same error. *)
Theorem failure_depends_on_expression_only skills_expression resume_skills1 resume_skills2 e :
  evaluate_resume_body skills_expression resume_skills1 = Raise e
  ↔ evaluate_resume_body skills_expression resume_skills2 = Raise e.
Proof.
  unfold evaluate_resume_body.
  destruct (findall_tokens skills_expression) as [|token rest]; [done|].
  pose proof (evaluate_tokens_same_error
                (normalize_resume_skills resume_skills1)
                (normalize_resume_skills resume_skills2)
                (normalize_token <$> token :: rest)) as Hagree.
  destruct (evaluate_tokens (normalize_resume_skills resume_skills1) _),
           (evaluate_tokens (normalize_resume_skills resume_skills2) _);
    simpl in *; try done.
  by subst.
Qed.

Lemma normalize_resume_skills_mono resume_skills1 resume_skills2 :
  resume_skills1 ⊆ resume_skills2 →
  normalize_resume_skills resume_skills1 ⊆ normalize_resume_skills resume_skills2.
Proof.
  intros Hsub skill. unfold normalize_resume_skills. rewrite !elem_of_map.
  intros (y & -> & Hy). exists y. split; [done|].
  apply elem_of_filter in Hy as [Hne Hy]. apply elem_of_filter. split; [done|].
  by apply Hsub.
Qed.

Lemma match_percentage_mono required_skills resume_skills1 resume_skills2 :
  resume_skills1 ⊆ resume_skills2 →
  (match_percentage required_skills resume_skills1
   <= match_percentage required_skills resume_skills2)%Q.
Proof.
  intros Hsub. unfold match_percentage. case_bool_decide; [apply Qle_refl|].
  apply share_mono, subseteq_size.
  intros skill. rewrite !elem_of_intersection. intros [? ?]. split; [done|by apply Hsub].
Qed.

(** X3: for an expression without the operator [not], more skills never
    hurt: when the candidate skills grow, a verdict that was true stays
    true, and the score does not decrease. *)
Theorem more_skills_never_hurt skills_expression resume_skills1 resume_skills2 :
  not_free (normalized_tokens_of skills_expression) →
  resume_skills1 ⊆ resume_skills2 →
  ∃ result1 score1 result2 score2,
    evaluate_resume skills_expression resume_skills1 = Ok (result1, score1)
    ∧ evaluate_resume skills_expression resume_skills2 = Ok (result2, score2)
    ∧ at_least result1 result2
    ∧ (score1 <= score2)%Q.
Proof.
  intros Hfree Hsub. unfold evaluate_resume.
  destruct (_ || _); [by exists false, 0%Q, false, 0%Q|].
  unfold evaluate_resume_body, normalized_tokens_of in *.
  destruct (findall_tokens skills_expression) as [|token rest];
    [by exists false, 0%Q, false, 0%Q|].
  apply normalize_resume_skills_mono in Hsub.
  pose proof (evaluate_tokens_agree at_least False
                (normalize_resume_skills resume_skills1)
                (normalize_resume_skills resume_skills2)) as Hagree.
  specialize (Hagree ltac:(by intros [] [] [] []) ltac:(by intros [] [] [] []) ltac:(done)).
  specialize (Hagree ltac:(intros t; unfold at_least; rewrite !bool_decide_eq_true; apply Hsub)
                     (normalize_token <$> token :: rest)
                     ltac:(eapply Forall_impl; [exact Hfree|done])).
  destruct (evaluate_tokens (normalize_resume_skills resume_skills1) _),
           (evaluate_tokens (normalize_resume_skills resume_skills2) _);
    simpl in *; try done.
  - eexists _, _, _, _. repeat split; [done|].
    by apply round2_mono, match_percentage_mono.
  - by exists false, 0%Q, false, 0%Q.
Qed.

Lemma more_skills_witness :
  ∃ result1 score1 result2 score2,
    evaluate_resume python_and_java_or_go {[ "python" ]} = Ok (result1, score1)
    ∧ evaluate_resume python_and_java_or_go {[ "python"; "go" ]} = Ok (result2, score2)
    ∧ at_least result1 result2
    ∧ (score1 <= score2)%Q.
Proof.
  apply more_skills_never_hurt.
  - vm_compute. repeat constructor; discriminate.
  - set_solver.
Defined.

End TwoCandidates.

(** ** The skill list of an expression and the separate score function *)

Section SkillList.
Import Py SkillExtract SkillSpec SkillFacts.

Lemma lower_char_idem c : lower_char (lower_char c) = lower_char c.
Proof. by destruct c as [[] [] [] [] [] [] [] []]. Qed.

Lemma is_space_lower_char c : is_space (lower_char c) = is_space c.
Proof. by destruct c as [[] [] [] [] [] [] [] []]. Qed.

Lemma lower_idem s : lower (lower s) = lower s.
Proof. induction s as [|c s IH]; simpl; [done|]. by rewrite lower_char_idem, IH. Qed.

Lemma lstrip_lower s : lstrip is_space (lower s) = lower (lstrip is_space s).
Proof.
  induction s as [|c s IH]; simpl; [done|].
  rewrite is_space_lower_char. by destruct (is_space c).
Qed.

Lemma rstrip_lower s : rstrip is_space (lower s) = lower (rstrip is_space s).
Proof.
  induction s as [|c s IH]; simpl; [done|].
  rewrite IH, is_space_lower_char.
  destruct (rstrip is_space s); simpl; [by destruct (is_space c)|done].
Qed.

(** Trimming and lower-casing commute. *)
Lemma strip_lower s : strip (lower s) = lower (strip s).
Proof. unfold strip, strip_by. by rewrite lstrip_lower, rstrip_lower. Qed.

Lemma rstrip_idem p s : rstrip p (rstrip p s) = rstrip p s.
Proof.
  induction s as [|c s IH]; simpl; [done|].
  destruct (rstrip p s) as [|b r] eqn:Hr.
  - destruct (p c) eqn:Hc; simpl; [done|]. by rewrite Hc.
  - simpl in *. by rewrite IH.
Qed.

Lemma lstrip_head p s :
  match lstrip p s with
  | EmptyString => True
  | String c _ => p c = false
  end.
Proof. induction s as [|c s IH]; simpl; [done|]. by destruct (p c) eqn:Hc; simpl. Qed.

Lemma rstrip_keeps_head p c r :
  p c = false → ∃ r', rstrip p (String c r) = String c r'.
Proof.
  intros Hc. simpl. destruct (rstrip p r); [rewrite Hc|]; eauto.
Qed.

Lemma strip_by_idem p s : strip_by p (strip_by p s) = strip_by p s.
Proof.
  unfold strip_by. pose proof (lstrip_head p s) as Hhead.
  destruct (lstrip p s) as [|c r]; [done|].
  destruct (rstrip_keeps_head p c r Hhead) as [r' Hr]. rewrite Hr.
  simpl lstrip. rewrite Hhead. rewrite <- Hr. apply rstrip_idem.
Qed.

(** Normalizing a skill twice is normalizing it once. *)
Lemma lower_strip_idem s : lower (strip (lower (strip s))) = lower (strip s).
Proof.
  rewrite strip_lower, lower_idem. unfold strip. by rewrite strip_by_idem.
Qed.

Lemma no_quote_lstrip p s : no_quote s = true → no_quote (lstrip p s) = true.
Proof.
  induction s as [|c s IH]; simpl; [done|].
  intros [Hc Hs]%andb_true_iff. destruct (p c); [auto|]. simpl. by rewrite Hc, Hs.
Qed.

Lemma no_quote_rstrip p s : no_quote s = true → no_quote (rstrip p s) = true.
Proof.
  induction s as [|c s IH]; simpl; [done|].
  intros [Hc Hs]%andb_true_iff. specialize (IH Hs).
  destruct (rstrip p s); simpl in *.
  - destruct (p c); simpl; [done|]. by rewrite Hc.
  - by rewrite Hc, IH.
Qed.

Lemma findall_quoted_no_quote s :
  Forall (λ token, no_quote token = true) (findall_quoted s).
Proof.
  apply findall_Forall. intros before t found width.
  unfold match_literal. destruct t as [|c r]; [done|].
  case_bool_decide; [|done].
  destruct (until_quote r) as [[|a content]|] eqn:Hu; [done| |done].
  intros [= <- _]. by eapply until_quote_no_quote.
Qed.

Lemma required_skills_plain skills_expression skill :
  skill ∈ required_skills_of skills_expression → plain_name skill.
Proof.
  intros Hin. split; [by eapply required_skills_nonempty|].
  unfold required_skills_of in Hin.
  rewrite elem_of_list_to_set, list_elem_of_fmap in Hin.
  destruct Hin as (token & -> & Hin).
  apply list_elem_of_filter in Hin as [_ Hin].
  pose proof (findall_quoted_no_quote skills_expression) as Hall.
  rewrite Forall_forall in Hall. specialize (Hall _ Hin).
  unfold normalize_skill. split; [|apply lower_strip_idem].
  rewrite no_quote_lower. unfold strip, strip_char, strip_by.
  by repeat (apply no_quote_rstrip || apply no_quote_lstrip).
Qed.

Lemma extract_skills_required expression :
  extract_skills_from_expression expression = required_skills_of expression.
Proof.
  unfold extract_skills_from_expression. case_bool_decide as Hempty; [|done].
  by subst expression.
Qed.

(** X4: every skill that [extract_skills_from_expression] lists is a plain
    name: not empty, without a double quote, in lower case and trimmed. *)
Theorem extracted_skills_are_plain expression skill :
  skill ∈ extract_skills_from_expression expression → plain_name skill.
Proof. rewrite extract_skills_required. apply required_skills_plain. Qed.

Lemma extracted_skills_witness :
  "java" ∈ extract_skills_from_expression python_and_java ∧ plain_name "java".
Proof.
  assert ("java" ∈ extract_skills_from_expression python_and_java) as Hin.
  { assert (extract_skills_from_expression python_and_java = {[ "python"; "java" ]}) as ->
      by (vm_compute; reflexivity).
    set_solver. }
  split; [exact Hin | exact (extracted_skills_are_plain _ _ Hin)].
Defined.

(** A set of plain names is left as it is by the normalization of the two
    score functions. *)
Lemma normalize_plain_set skills :
  (∀ skill, skill ∈ skills → plain_name skill) → normalize_resume_skills skills = skills.
Proof.
  intros Hplain. apply set_eq. intros skill. unfold normalize_resume_skills.
  rewrite elem_of_map. split.
  - intros (y & -> & Hy). apply elem_of_filter in Hy as [_ Hy].
    destruct (Hplain y Hy) as (_ & _ & ->). done.
  - intros Hin. destruct (Hplain skill Hin) as (Hne & _ & Heq).
    exists skill. split; [done|]. by apply elem_of_filter.
Qed.

(** X5: on an expression whose tokens evaluate, the score of
    [evaluate_resume] is the one [calculate_match_score] gives for the skills
    that [extract_skills_from_expression] lists, and that call does not
    divide by zero. *)
Theorem score_functions_agree skills_expression resume_skills result :
  evaluate_tokens (normalize_resume_skills resume_skills)
    (normalized_tokens_of skills_expression) = Ok result →
  ∃ score,
    evaluate_resume skills_expression resume_skills = Ok (result, score)
    ∧ calculate_match_score (extract_skills_from_expression skills_expression) resume_skills
      = inr score.
Proof.
  intros Heval. eexists. split; [by apply evaluate_resume_evaluated|].
  rewrite extract_skills_required. unfold calculate_match_score, overlap_score.
  case_bool_decide as Hempty; [done|].
  rewrite normalize_plain_set by apply required_skills_plain.
  rewrite bool_decide_eq_false_2; [done|].
  intros Hsize. apply size_empty_inv in Hsize. apply Hempty. by apply leibniz_equiv.
Qed.

Lemma score_functions_witness :
  ∃ score,
    evaluate_resume python_and_java_or_go {[ "python"; "go" ]} = Ok (true, score)
    ∧ calculate_match_score (extract_skills_from_expression python_and_java_or_go)
        {[ "python"; "go" ]} = inr score.
Proof. apply score_functions_agree. vm_compute. reflexivity. Defined.

(** X6: [calculate_match_score] divides by the number of required skills
    left after its own normalization, which drops the empty string: it
    raises [ZeroDivisionError] exactly when the required skills are the set
    that holds the empty string and nothing else, and otherwise returns a
    score between 0 and 100. *)
Theorem calculate_match_score_outcome required_skills resume_skills :
  match calculate_match_score required_skills resume_skills with
  | inl e => e = ZeroDivisionError "division by zero" ∧ required_skills = {[ EmptyString ]}
  | inr score => required_skills ≠ {[ EmptyString ]} ∧ (0 <= score <= 100)%Q
  end.
Proof.
  unfold calculate_match_score. case_bool_decide as Hempty.
  { split; [|split; discriminate]. rewrite Hempty. intros Heq.
    assert (EmptyString ∈ (∅ : gset string)) as Hin by (rewrite Heq; set_solver).
    set_solver. }
  case_bool_decide as Hsize.
  - split; [done|]. apply size_empty_inv in Hsize.
    apply set_eq. intros skill. rewrite elem_of_singleton. split.
    + intros Hin. destruct (decide (skill = EmptyString)) as [|Hne]; [done|].
      exfalso. apply (not_elem_of_empty (C := gset string) (lower (strip skill))).
      rewrite <- Hsize. unfold normalize_resume_skills. apply elem_of_map.
      exists skill. split; [done|]. by apply elem_of_filter.
    + intros ->. apply set_choose_L in Hempty as [skill Hin].
      destruct (decide (skill = EmptyString)) as [<-|Hne]; [done|].
      exfalso. apply (not_elem_of_empty (C := gset string) (lower (strip skill))).
      rewrite <- Hsize. unfold normalize_resume_skills. apply elem_of_map.
      exists skill. split; [done|]. by apply elem_of_filter.
  - split.
    + intros ->. apply Hsize.
      assert (normalize_resume_skills {[ EmptyString ]} = ∅) as -> by (vm_compute; reflexivity).
      done.
    + apply round2_range, share_range; [|done].
      apply subseteq_size, intersection_subseteq_l.
Qed.

End SkillList.

(** ** More on the experience matcher: ranges, verdict against score,
    normalized data *)

Section ExperienceCoverage.
Import Py ExperTest ExperSpec.

Lemma ratio_range a r k :
  a ≤ r → r ≠ 0 → (0 <= k)%Q → (0 <= num a / num r * k <= k)%Q.
Proof.
  intros Har Hr Hk.
  assert (0 <= num a / num r)%Q as Hlow.
  { unfold Qdiv. apply Qmult_le_0_compat; [apply num_nonneg|].
    apply Qinv_le_0_compat, num_nonneg. }
  assert (num a / num r <= 1)%Q as Hhigh.
  { assert (num r / num r == 1)%Q as <-.
    { apply Qmult_inv_r. unfold num, Qeq. simpl. lia. }
    unfold Qdiv. apply Qmult_le_compat_r; [by apply num_le|].
    apply Qinv_le_0_compat, num_nonneg. }
  split; [by apply Qmult_le_0_compat|].
  rewrite <- (Qmult_1_l k) at 2. by apply Qmult_le_compat_r.
Qed.

Lemma on_type_error_raises e : ∃ e', on_type_error e = Raise e'.
Proof.
  unfold on_type_error. destruct e as [msg|msg|msg]; eauto.
  destruct (contains _ msg); eauto.
Qed.

(** The first component is one of 30, 20, 15 and 0. *)
Lemma years_points_values total_exp jd_min jd_max points :
  try_except (years_points total_exp jd_min jd_max) on_type_error = Ok points →
  points = 30%Q ∨ points = 20%Q ∨ points = 15%Q ∨ points = 0%Q.
Proof.
  unfold years_points, py_ge, py_compare. destruct jd_min as [m|].
  - change (Ok ?x ≫= ?f) with (f x). cbv beta.
    destruct (_ && _); [intros [= <-]; auto|].
    destruct (exceeds _ _); [intros [= <-]; auto|].
    destruct (Qle_bool _ _); intros [= <-]; auto.
  - change (Raise ?e ≫= ?f) with (@Raise Q e). unfold try_except.
    destruct (on_type_error_raises
                (TypeError ("'" +:+ ">=" +:+ "' not supported between instances of '"
                            +:+ type_name total_exp +:+ "' and 'NoneType'"))) as [e' ->].
    done.
Qed.

Lemma matched_fields_le fuzzy jd_fields resume_exp :
  matched_fields fuzzy jd_fields resume_exp ≤ length jd_fields.
Proof. unfold matched_fields. apply length_filter. Qed.

Lemma fields_points_range fuzzy jd_fields resume_exp :
  (0 <= fields_points fuzzy jd_fields resume_exp <= 70)%Q.
Proof.
  unfold fields_points. destruct jd_fields as [|jd_field rest] eqn:Hfields;
    [split; discriminate|].
  rewrite <- Hfields. apply ratio_range; [apply matched_fields_le|by subst|discriminate].
Qed.

Lemma py_min_le x y : (x <= y)%Q → (py_min x y == x)%Q.
Proof.
  intros Hxy. unfold py_min. destruct (Qlt_bool y x) eqn:Hlt; [|done].
  apply Qlt_bool_iff in Hlt. exfalso. by apply Qlt_not_le in Hlt.
Qed.

Lemma score_experience_match_range jd_exp resume_exp use_fuzzy_matching score :
  score_experience_match jd_exp resume_exp use_fuzzy_matching = Ok score →
  (0 <= score <= 100)%Q.
Proof.
  unfold score_experience_match. destruct (is_empty jd_exp).
  { intros [= <-]. split; discriminate. }
  destruct resume_exp as [|entry rest] eqn:Hresume.
  { intros [= <-]. split; discriminate. }
  rewrite <- Hresume.
  destruct (sum_years (PyInt 0) resume_exp) as [total|e]; [|done].
  change (Ok total ≫= ?f) with (f total). cbv beta.
  destruct (try_except _ _) as [years|e] eqn:Hyears; [|done].
  change (Ok years ≫= ?f) with (f years). cbv beta. intros [= <-].
  apply years_points_values in Hyears.
  pose proof (fields_points_range use_fuzzy_matching (fields_of jd_exp) resume_exp)
    as [Hlow Hhigh].
  set (points := fields_points use_fuzzy_matching (fields_of jd_exp) resume_exp) in *.
  assert (0 <= years <= 30)%Q as [Hy0 Hy30].
  { destruct Hyears as [-> | [-> | [-> | ->]]]; split; discriminate. }
  assert (0 <= years + points)%Q as Hsum0.
  { change 0%Q with (0 + 0)%Q. by apply Qplus_le_compat. }
  assert (years + points <= 100)%Q as Hsum100.
  { change 100%Q with (30 + 70)%Q. by apply Qplus_le_compat. }
  apply round2_range. by rewrite (py_min_le _ _ Hsum100).
Qed.

(** X7: whenever [score_experience_match] returns, its score lies between 0
    and 100. *)
Theorem experience_score_in_range jd_exp resume_exp use_fuzzy_matching score :
  score_experience_match jd_exp resume_exp use_fuzzy_matching = Ok score →
  (0 <= score <= 100)%Q.
Proof. apply score_experience_match_range. Qed.

Lemma experience_score_range_witness : (0 <= 100 <= 100)%Q.
Proof.
  apply (experience_score_in_range two_to_five_years_python three_years_python true).
  vm_compute. reflexivity.
Defined.

Lemma field_found_matched fuzzy jd_field entry :
  field_found fuzzy jd_field entry = true → field_matched fuzzy jd_field entry = true.
Proof.
  unfold field_found, field_matched. destruct fuzzy; simpl; [|done].
  by intros ->.
Qed.

Lemma existsb_impl {A} (f g : A → bool) l :
  (∀ x, f x = true → g x = true) → existsb f l = true → existsb g l = true.
Proof.
  intros Hfg. induction l as [|x l IH]; simpl; [done|].
  rewrite !orb_true_iff. intros [?|?]; auto.
Qed.

(** When the pass/fail test finds a field, the score counts at least one. *)
Lemma matched_fields_positive fuzzy jd_fields resume_exp :
  existsb (λ jd_field, existsb (field_found fuzzy jd_field) resume_exp) jd_fields = true →
  1 ≤ matched_fields fuzzy jd_fields resume_exp.
Proof.
  unfold matched_fields. induction jd_fields as [|jd_field rest IH]; simpl; [done|].
  rewrite orb_true_iff. intros [Hhere | Hlater].
  - rewrite filter_cons_True; [simpl; lia|].
    eapply existsb_impl; [|exact Hhere]. apply field_found_matched.
  - specialize (IH Hlater). rewrite filter_cons. destruct (decide _); simpl; lia.
Qed.

(** X8: a candidate who passes a required experience check is never scored
    below 30: [score_experience_match] returns for the same data, with the
    full 30 points for the years and the points of at least one matched
    field, and with 100 when the requirement lists no field. *)
Theorem passing_experience_scores_at_least_30 jd_exp resume_exp use_fuzzy_matching :
  is_required jd_exp = true →
  evaluate_experience jd_exp resume_exp use_fuzzy_matching = Ok true →
  ∃ score matched,
    score_experience_match jd_exp resume_exp use_fuzzy_matching = Ok score
    ∧ (30 <= score)%Q
    ∧ (fields_of jd_exp = [] → score = 100%Q)
    ∧ (fields_of jd_exp ≠ [] →
       1 ≤ matched ≤ length (fields_of jd_exp)
       ∧ score = round2 (30 + num matched / num (length (fields_of jd_exp)) * 70)).
Proof.
  intros Hrequired. unfold evaluate_experience, score_experience_match.
  rewrite (is_required_not_empty _ Hrequired), Hrequired. simpl negb. cbv iota.
  destruct resume_exp as [|entry rest] eqn:Hresume; [done|]. rewrite <- Hresume.
  destruct (sum_years (PyInt 0) resume_exp) as [total|e]; [|done].
  change (Ok total ≫= ?f) with (f total). cbv beta.
  unfold py_lt, py_compare.
  destruct (get (min_years jd_exp) (PyInt 0)) as [m|]; [|done].
  change (Ok ?x ≫= ?f) with (f x). cbv beta.
  destruct (Qlt_bool (value_of total) (value_of m)) eqn:Hbelow; [done|].
  destruct (exceeds total (jd_max_of (max_years jd_exp))) eqn:Hexceeds; [done|].
  simpl orb. cbv iota. intros Hfields.
  assert (years_points total (Some m) (jd_max_of (max_years jd_exp)) = Ok 30%Q) as ->.
  { unfold years_points, py_ge, py_compare.
    change (Ok ?x ≫= ?f) with (f x). cbv beta. rewrite Hexceeds.
    assert (Qle_bool (value_of m) (value_of total) = true) as ->; [|done].
    apply Qle_bool_iff. apply Qlt_bool_false in Hbelow. by apply Qnot_lt_le. }
  unfold try_except. change (Ok ?x ≫= ?f) with (f x). cbv beta.
  pose proof (fields_points_range use_fuzzy_matching (fields_of jd_exp) resume_exp)
    as [Hlow Hhigh].
  assert (30 + fields_points use_fuzzy_matching (fields_of jd_exp) resume_exp <= 100)%Q
    as Hcap.
  { change 100%Q with (30 + 70)%Q. apply Qplus_le_compat; [apply Qle_refl|done]. }
  assert (round2 (py_min (30 + fields_points use_fuzzy_matching (fields_of jd_exp) resume_exp) 100)
          = round2 (30 + fields_points use_fuzzy_matching (fields_of jd_exp) resume_exp)) as Hscore.
  { unfold py_min. destruct (Qlt_bool 100 _) eqn:Hlt; [|done].
    apply Qlt_bool_iff in Hlt. exfalso. by apply Qlt_not_le in Hlt. }
  exists (round2 (30 + fields_points use_fuzzy_matching (fields_of jd_exp) resume_exp)),
         (matched_fields use_fuzzy_matching (fields_of jd_exp) resume_exp).
  split; [by rewrite Hscore|]. split; [|split].
  - change 30%Q with (round2 30) at 1. apply round2_mono.
    rewrite <- (Qplus_0_r 30) at 1. apply Qplus_le_compat; [apply Qle_refl|done].
  - intros ->. reflexivity.
  - intros Hne. destruct (fields_of jd_exp) as [|jd_field others] eqn:Hl; [done|].
    rewrite <- Hl in *. injection Hfields as Hfields. split; [|by rewrite Hl].
    split; [by apply matched_fields_positive|apply matched_fields_le].
Qed.

Lemma passing_experience_witness :
  ∃ score matched,
    score_experience_match two_to_five_years_python three_years_python true = Ok score
    ∧ (30 <= score)%Q
    ∧ (fields_of two_to_five_years_python = [] → score = 100%Q)
    ∧ (fields_of two_to_five_years_python ≠ [] →
       1 ≤ matched ≤ length (fields_of two_to_five_years_python)
       ∧ score = round2 (30 + num matched
                              / num (length (fields_of two_to_five_years_python)) * 70)).
Proof.
  apply passing_experience_scores_at_least_30; vm_compute; reflexivity.
Defined.

End ExperienceCoverage.

(** ** The normalization of the experience data *)

Section ExperienceNormalization.
Import Py ExperTest ExperSpec.

Lemma normalized_years_numeric resume_exp :
  numeric_years (normalize_resume_experience resume_exp).
Proof.
  unfold numeric_years, normalize_resume_experience. apply Forall_fmap, Forall_forall.
  intros entry _. simpl. by destruct (years entry).
Qed.

Lemma normalized_total_years resume_exp :
  (total_years (normalize_resume_experience resume_exp) == total_years resume_exp)%Q.
Proof.
  induction resume_exp as [|entry rest IH]; simpl; [done|].
  rewrite IH. apply Qplus_inj_r. unfold years_of. simpl. by destruct (years entry).
Qed.

(** What [normalize_jd_experience] returns for a dict is the empty dict it
    was given, or a dict with a number under [min_years]. *)
Lemma normalized_minimum jd_exp normalized :
  normalize_jd_experience (Some jd_exp) = Ok (Some normalized) →
  is_empty normalized = true ∨ ∃ m, min_years normalized = Val m.
Proof.
  unfold normalize_jd_experience. destruct (is_empty jd_exp) eqn:Hempty.
  - intros [= <-]. by left.
  - destruct (fields jd_exp); simpl; [|done|]; intros [= <-]; right; simpl; eauto.
Qed.

(** X9: on data that went through [normalize_jd_experience] and
    [normalize_resume_experience], neither [evaluate_experience] nor
    [score_experience_match] raises: every entry has a float for its years,
    a missing or [None] one counting for zero, and the minimum is a
    number. *)
Theorem normalized_experience_never_raises jd_exp normalized resume_exp use_fuzzy_matching :
  normalize_jd_experience (Some jd_exp) = Ok (Some normalized) →
  (∃ total, sum_years (PyInt 0) (normalize_resume_experience resume_exp) = Ok total
            ∧ (value_of total == total_years resume_exp)%Q)
  ∧ (∃ passed, evaluate_experience normalized (normalize_resume_experience resume_exp)
                 use_fuzzy_matching = Ok passed)
  ∧ (∃ score, score_experience_match normalized (normalize_resume_experience resume_exp)
                use_fuzzy_matching = Ok score).
Proof.
  intros Hjd.
  destruct (sum_years_numeric _ (PyInt 0) (normalized_years_numeric resume_exp))
    as (total & Htotal & Hvalue).
  split.
  { exists total. split; [done|]. rewrite Hvalue, normalized_total_years.
    change (value_of (PyInt 0)) with 0%Q. ring. }
  unfold evaluate_experience, score_experience_match.
  destruct (normalized_minimum _ _ Hjd) as [-> | [m Hm]]; [eauto|].
  destruct (is_empty normalized); [eauto|].
  destruct (normalize_resume_experience resume_exp) as [|entry rest] eqn:Hresume.
  { split; [destruct (negb _)|]; eauto. }
  rewrite <- Hresume in *. rewrite Htotal, Hm.
  change (Ok total ≫= ?f) with (f total). cbv beta.
  split.
  - destruct (negb _); [eauto|]. unfold py_lt, py_compare, get.
    change (Ok ?x ≫= ?f) with (f x). cbv beta.
    destruct (_ || _); [eauto|]. destruct (fields_of normalized); eauto.
  - unfold years_points, py_ge, py_compare, get.
    change (Ok ?x ≫= ?f) with (f x). cbv beta.
    destruct (_ && _); [unfold try_except; eauto|].
    destruct (exceeds _ _); [unfold try_except; eauto|].
    change (Ok ?x ≫= ?f) with (f x). cbv beta.
    destruct (Qle_bool _ _); unfold try_except; eauto.
Qed.

Lemma normalized_experience_witness :
  (∃ total, sum_years (PyInt 0) (normalize_resume_experience years_unknown) = Ok total
            ∧ (value_of total == total_years years_unknown)%Q)
  ∧ (∃ passed, evaluate_experience
                 (JdExperience (Val true) (Val (PyFloat 2)) (Val (PyFloat 5)) (Val ["python"]))
                 (normalize_resume_experience years_unknown) true = Ok passed)
  ∧ (∃ score, score_experience_match
                (JdExperience (Val true) (Val (PyFloat 2)) (Val (PyFloat 5)) (Val ["python"]))
                (normalize_resume_experience years_unknown) true = Ok score).
Proof.
  apply (normalized_experience_never_raises two_to_five_years_python).
  reflexivity.
Defined.

Lemma normalize_text_idem text : normalize_text (normalize_text text) = normalize_text text.
Proof.
  destruct text as [t|]; [|done]. simpl.
  destruct (truthy t) eqn:Ht; simpl; [|by rewrite Ht].
  destruct (truthy (strip (lower t))); [|done].
  f_equal. rewrite <- (strip_lower (lower t)), lower_idem.
  unfold strip. apply strip_by_idem.
Qed.

(** X10: [normalize_resume_experience] is idempotent: a second pass over its
    result changes nothing. *)
Theorem normalize_resume_experience_idempotent resume_exp :
  normalize_resume_experience (normalize_resume_experience resume_exp)
  = normalize_resume_experience resume_exp.
Proof.
  unfold normalize_resume_experience. rewrite <- list_fmap_compose.
  apply list_fmap_ext. intros _ entry _. unfold compose, normalize_entry. simpl.
  rewrite !normalize_text_idem. by destruct (years entry).
Qed.

End ExperienceNormalization.

(** ** The field-wise matcher *)

Section FieldWiseMatcher.
Import Py ExperTest ExperSpec ExperFacts.

Lemma grown_refl d : grown (λ _, 0%Q) d d.
Proof.
  unfold grown. induction d as [|item d IH]; constructor; [|done].
  split; [done|]. ring.
Qed.

Lemma grown_trans delta1 delta2 delta d1 d2 d3 :
  (∀ key, delta key == delta1 key + delta2 key)%Q →
  grown delta1 d1 d2 → grown delta2 d2 d3 → grown delta d1 d3.
Proof.
  intros Hdelta H12. revert d3. induction H12 as [|a b d1 d2 [Hkey Hval] _ IH];
    intros d3 H23; inversion H23 as [|? c ? d3' [Hkey' Hval'] Hrest]; subst; constructor.
  - split; [congruence|]. rewrite Hval', Hval, Hkey, Hdelta. ring.
  - by apply IH.
Qed.

Lemma grown_ext delta delta' d d' :
  (∀ key, delta key == delta' key)%Q → grown delta d d' → grown delta' d d'.
Proof.
  intros Hdelta H. eapply Forall2_impl; [exact H|].
  intros item item' [Hkey Hval]. split; [done|]. by rewrite <- Hdelta.
Qed.

Lemma value_of_py_add x y : (value_of (py_add x y) == value_of x + value_of y)%Q.
Proof. destruct x, y; simpl; rewrite ?inject_Z_plus; ring. Qed.

Lemma add_years_grown key y d :
  ∃ d', add_years key (Some y) d = Ok d'
        ∧ grown (λ k, if bool_decide (k = key) then value_of y else 0%Q) d d'.
Proof.
  unfold add_years. induction d as [|item d (d' & IH & Hgrown)]; simpl.
  - exists []. split; [done|constructor].
  - rewrite IH. case_bool_decide as Hkey.
    + eexists. split; [reflexivity|]. constructor; [|done]. simpl.
      split; [done|]. rewrite bool_decide_eq_true_2 by done. apply value_of_py_add.
    + eexists. split; [reflexivity|]. constructor; [|done].
      split; [done|]. rewrite bool_decide_eq_false_2 by done. ring.
Qed.

Lemma occurrences_cons key jd_field rest :
  occurrences key (jd_field :: rest)
  = (if bool_decide (lower jd_field = key) then 1 else 0) + occurrences key rest.
Proof.
  unfold occurrences. rewrite filter_cons. by destruct (decide _); case_bool_decide.
Qed.

Lemma num_plus a b : (num (a + b) == num a + num b)%Q.
Proof. unfold num. by rewrite Nat2Z.inj_add, inject_Z_plus. Qed.

(** One entry of the resume adds its years to the total of every key its
    field contains, once for each required field with that key. *)
Lemma add_entry_grown required_fields exp_field y : ∀ d,
  ∃ d', add_entry required_fields exp_field (Some y) d = Ok d'
        ∧ grown (λ k, if contains k exp_field
                      then num (occurrences k required_fields) * value_of y
                      else 0)%Q d d'.
Proof.
  induction required_fields as [|req_field rest IH]; intros d; simpl.
  - exists d. split; [done|]. eapply grown_ext; [|apply grown_refl].
    intros k. simpl. destruct (contains k exp_field); [|done].
    unfold occurrences, num. simpl. ring.
  - destruct (contains (lower req_field) exp_field) eqn:Hcontains.
    + destruct (add_years_grown (lower req_field) y d) as (d1 & -> & H1).
      change (Ok d1 ≫= ?f) with (f d1). cbv beta.
      destruct (IH d1) as (d2 & -> & H2). exists d2. split; [done|].
      eapply grown_trans; [|exact H1|exact H2].
      intros k. cbv beta. rewrite occurrences_cons.
      destruct (decide (k = lower req_field)) as [-> | Hk].
      * rewrite !bool_decide_eq_true_2 by done. rewrite Hcontains, num_plus.
        change (num 1) with 1%Q. ring.
      * rewrite (bool_decide_eq_false_2 (k = _)) by done.
        rewrite (bool_decide_eq_false_2 (_ = k)) by congruence.
        simpl plus. destruct (contains k exp_field); ring.
    + change (Ok d ≫= ?f) with (f d). cbv beta.
      destruct (IH d) as (d2 & -> & H2). exists d2. split; [done|].
      eapply grown_ext; [|exact H2].
      intros k. cbv beta. rewrite occurrences_cons.
      destruct (decide (k = lower req_field)) as [-> | Hk].
      * by rewrite Hcontains.
      * rewrite (bool_decide_eq_false_2 (_ = k)) by congruence. done.
Qed.

Lemma accumulate_grown required_fields resume_experience : ∀ d,
  numeric_years resume_experience →
  ∃ d', accumulate required_fields resume_experience d = Ok d'
        ∧ grown (λ k, num (occurrences k required_fields)
                      * years_in_field k resume_experience)%Q d d'.
Proof.
  induction resume_experience as [|exp rest IH]; intros d Hnumeric; simpl.
  - exists d. split; [done|]. eapply grown_ext; [|apply grown_refl].
    intros k. simpl. ring.
  - inversion Hnumeric as [|? ? Hexp Hrest]; subst.
    assert (∃ y, get (years exp) (PyInt 0) = Some y ∧ (value_of y == years_of exp)%Q)
      as (y & -> & Hy).
    { unfold get, years_of. destruct (years exp) as [| |n]; [by exists (PyInt 0)|done|by exists n]. }
    destruct (add_entry_grown required_fields (lower (default EmptyString (field exp))) y d)
      as (d1 & -> & H1).
    change (Ok d1 ≫= ?f) with (f d1). cbv beta.
    destruct (IH d1 Hrest) as (d2 & -> & H2). exists d2. split; [done|].
    eapply grown_trans; [|exact H1|exact H2].
    intros k. simpl.
    assert (lower (default EmptyString (field exp)) = field_text exp) as ->.
    { unfold field_text. by destruct (field exp). }
    destruct (contains k (field_text exp)); rewrite ?Hy; ring.
Qed.

Lemma all_fields_meet_spec m d :
  ∃ met, all_fields_meet (Some m) d = Ok met
         ∧ (met = true ↔ Forall (λ item, (value_of m <= value_of item.2)%Q) d).
Proof.
  induction d as [|item d (met & IH & Hmet)]; simpl.
  - exists true. by split.
  - unfold py_lt, py_compare. change (Ok ?x ≫= ?f) with (f x). cbv beta.
    destruct (Qlt_bool (value_of item.2) (value_of m)) eqn:Hlt.
    + exists false. split; [done|]. split; [done|].
      intros [Hle _]%Forall_cons. apply Qlt_bool_iff in Hlt. by apply Qlt_not_le in Hlt.
    + exists met. split; [done|]. rewrite Hmet, Forall_cons.
      apply Qlt_bool_false in Hlt. split; [|tauto].
      intros ?. split; [by apply Qnot_lt_le|done].
Qed.

Lemma dict_set_elem key value d item :
  item ∈ dict_set key value d → item ∈ d ∨ item = (key, value).
Proof.
  unfold dict_set. case_bool_decide.
  - rewrite list_elem_of_fmap. intros (old & -> & Hold).
    case_bool_decide; auto.
  - rewrite elem_of_app, list_elem_of_singleton. tauto.
Qed.

Lemma dict_set_keys key value d other :
  other ∈ (dict_set key value d).*1 ↔ other = key ∨ other ∈ d.*1.
Proof.
  unfold dict_set. case_bool_decide as Hin.
  - rewrite <- list_fmap_compose.
    assert (fst ∘ (λ item : string * pynum, if bool_decide (item.1 = key) then (key, value) else item)
            <$> d = d.*1) as ->.
    { apply list_fmap_ext. intros _ item _. simpl. by case_bool_decide. }
    split; [auto|]. by intros [-> | ?].
  - rewrite fmap_app, elem_of_app. simpl. rewrite list_elem_of_singleton. tauto.
Qed.

(** The dict of the comprehension: a zero under the lower-case text of every
    required field, and nothing else. *)
Lemma initial_field_years_spec required_fields :
  (∀ item, item ∈ initial_field_years required_fields →
     item.2 = PyInt 0 ∧ ∃ jd_field, jd_field ∈ required_fields ∧ item.1 = lower jd_field)
  ∧ (∀ jd_field, jd_field ∈ required_fields →
       lower jd_field ∈ (initial_field_years required_fields).*1).
Proof.
  unfold initial_field_years.
  assert (∀ seen d,
    ((∀ item, item ∈ d →
        item.2 = PyInt 0 ∧ ∃ jd_field, jd_field ∈ seen ∧ item.1 = lower jd_field)
     ∧ (∀ jd_field, jd_field ∈ seen → lower jd_field ∈ d.*1)) →
    let d' := foldl (λ d req_field, dict_set (lower req_field) (PyInt 0) d) d required_fields in
    (∀ item, item ∈ d' →
        item.2 = PyInt 0
        ∧ ∃ jd_field, jd_field ∈ seen ++ required_fields ∧ item.1 = lower jd_field)
    ∧ (∀ jd_field, jd_field ∈ seen ++ required_fields → lower jd_field ∈ d'.*1)) as Hgen.
  { induction required_fields as [|req_field rest IH]; intros seen d [Hitems Hkeys]; simpl.
    - rewrite app_nil_r. by split.
    - replace (seen ++ req_field :: rest) with ((seen ++ [req_field]) ++ rest)
        by (by rewrite <- app_assoc).
      apply IH. split.
      + intros item [Hold | ->]%dict_set_elem.
        * destruct (Hitems item Hold) as [Hzero (jd_field & Hin & Hkey)].
          split; [done|]. exists jd_field. split; [|done]. apply elem_of_app. by left.
        * split; [done|]. exists req_field. split; [|done].
          apply elem_of_app. right. by apply list_elem_of_singleton.
      + intros jd_field [Hseen | ->%list_elem_of_singleton]%elem_of_app;
          apply dict_set_keys; auto. }
  apply (Hgen [] []). split; [by intros item Hin%elem_of_nil|by intros f Hin%elem_of_nil].
Qed.



End FieldWiseMatcher.

(** ** More on education: degree names and letter case *)

Section EducationCoverage.
Import Py EducationExtract EducationSpec TextFacts.

Context (py_float : string → exn pyfloat).

Lemma contains_puc s : contains "puc" s = true → contains "pu" s = true.
Proof.
  rewrite !contains_spec. intros (before & after & ->).
  exists before, (String "c" after). done.
Qed.

Lemma truthy_lower s : truthy (lower s) = truthy s.
Proof. by destruct s. Qed.

(** X12: the key [normalize_degree_name] returns is a key of [degree_rank]
    that occurs in the degree, letters of either case; it is its own
    normal form; and it is never [puc], which [pu], earlier in the dict,
    always precedes. *)
Theorem normalize_degree_name_key degree key :
  normalize_degree_name degree = Some key →
  key ∈ degree_keys
  ∧ (∃ d, degree = Some d ∧ ExperSpec.substring_of key (lower d))
  ∧ normalize_degree_name (Some key) = Some key
  ∧ key ≠ "puc".
Proof.
  unfold normalize_degree_name. destruct degree as [d|]; [|done].
  destruct (negb (truthy d)); [done|].
  destruct (find _ degree_rank) as [[k rank]|] eqn:Hfind; [|done].
  intros [= <-]. simpl.
  pose proof (find_some _ _ Hfind) as [Hin Hcontains]. simpl in Hcontains.
  assert (k ≠ "puc") as Hpuc.
  { intros ->. apply contains_puc in Hcontains as Hpu.
    unfold degree_rank in Hfind. cbn [find fst] in Hfind.
    repeat match type of Hfind with
           | (if ?b then _ else _) = _ => destruct b eqn:?; [by inversion Hfind|]
           end.
    done. }
  split; [|split; [|split; [|done]]].
  - apply list_elem_of_In in Hin. apply list_elem_of_fmap. by exists (k, rank).
  - exists d. split; [done|]. by apply contains_spec.
  - apply list_elem_of_In in Hin. unfold degree_rank in Hin.
    repeat (apply elem_of_cons in Hin as [[= -> ->] | Hin];
            [first [done | by vm_compute]|]).
    by apply elem_of_nil in Hin.
Qed.

Lemma normalize_degree_name_witness :
  normalize_degree_name (Some "Master of Science (MSc)") = Some "msc"
  ∧ "msc" ∈ degree_keys
  ∧ (∃ d, Some "Master of Science (MSc)" = Some d ∧ ExperSpec.substring_of "msc" (lower d))
  ∧ normalize_degree_name (Some "msc") = Some "msc"
  ∧ "msc" ≠ "puc".
Proof.
  assert (normalize_degree_name (Some "Master of Science (MSc)") = Some "msc") as H
    by reflexivity.
  split; [exact H | exact (normalize_degree_name_key _ _ H)].
Defined.

Lemma normalize_degree_name_lower text :
  normalize_degree_name (lower_if_set text) = normalize_degree_name text.
Proof.
  destruct text as [t|]; [|done]. unfold lower_if_set.
  destruct (truthy t) eqn:Ht; [|done].
  unfold normalize_degree_name. by rewrite truthy_lower, Ht, lower_idem.
Qed.

Lemma degrees_similar_lower_l text1 text2 :
  degrees_similar (lower_if_set text1) text2 = degrees_similar text1 text2.
Proof.
  destruct text1 as [t1|], text2 as [t2|]; simpl; try done.
  - destruct (truthy t1) eqn:H1; simpl; rewrite ?truthy_lower, ?H1; simpl; try done.
    destruct (truthy t2); simpl; [|done]. unfold similar. by rewrite !lower_idem.
  - by destruct (truthy t1).
Qed.

Lemma degrees_similar_lower_r text1 text2 :
  degrees_similar text1 (lower_if_set text2) = degrees_similar text1 text2.
Proof.
  destruct text1 as [t1|], text2 as [t2|]; simpl; try done.
  destruct (truthy t2) eqn:H2; simpl; rewrite ?truthy_lower, ?H2; simpl; try done.
  destruct (truthy t1); simpl; [|done]. unfold similar. by rewrite !lower_idem.
Qed.

(** The lower-casing of [preprocess_jd_data] changes no match. *)
Lemma level_match_lower_jd jd resume level_name :
  education_level_match
    (JdEntry (required jd) (lower_if_set (jd_degree jd)) (jd_cgpa jd)) resume level_name
  = education_level_match jd resume level_name.
Proof.
  unfold education_level_match. simpl.
  destruct (negb (required jd)); [done|]. destruct resume as [entry|]; [|done].
  rewrite normalize_degree_name_lower, degrees_similar_lower_l.
  destruct (jd_degree jd) as [d|]; simpl; [|done].
  destruct (truthy d) eqn:Hd; simpl; rewrite ?truthy_lower, ?Hd; done.
Qed.

(** The lower-casing of the degree and of the level of a resume entry
    changes no match. *)
Lemma level_match_lower_entry jd entry level_name :
  education_level_match jd
    (Some (ResumeEntry (if truthy (level entry) then lower (level entry) else level entry)
             (lower_if_set (degree entry)) (cgpa entry))) level_name
  = education_level_match jd (Some entry) level_name.
Proof.
  unfold education_level_match. simpl.
  by rewrite normalize_degree_name_lower, degrees_similar_lower_r.
Qed.

Lemma preprocess_resume_data_lowered resume_data :
  preprocess_resume_data py_float resume_data
  = Ok ((λ entry,
           ResumeEntry (if truthy (level entry) then lower (level entry) else level entry)
             (lower_if_set (degree entry)) (cgpa entry))
        <$> (preprocessed py_float <$> resume_data)).
Proof.
  unfold preprocess_resume_data.
  induction resume_data as [|entry rest IH]; [done|].
  destruct (parse_cgpa_total py_float (cgpa entry)) as [parsed Hparsed].
  cbn [mapM fmap list_fmap]. rewrite IH, Hparsed.
  unfold preprocessed, App.parsed_cgpa. rewrite app_parse_cgpa, Hparsed.
  by destruct parsed.
Qed.

Lemma get_resume_entry_lowered resume_data level_name :
  get_resume_entry
    ((λ entry,
        ResumeEntry (if truthy (level entry) then lower (level entry) else level entry)
          (lower_if_set (degree entry)) (cgpa entry)) <$> resume_data) level_name
  = (λ entry,
       ResumeEntry (if truthy (level entry) then lower (level entry) else level entry)
         (lower_if_set (degree entry)) (cgpa entry))
    <$> App.get_resume_entry resume_data level_name.
Proof.
  unfold get_resume_entry, App.get_resume_entry.
  induction resume_data as [|entry rest IH]; [done|].
  rewrite fmap_cons. cbn [find level].
  assert (lower (if truthy (level entry) then lower (level entry) else level entry)
          = lower (level entry)) as ->.
  { destruct (truthy (level entry)); [apply lower_idem|done]. }
  by destruct (bool_decide _).
Qed.

(** X13: matching takes no account of letter case, so that the
    preprocessing of education_extract.py, which puts degrees and levels in
    lower case, and the simplified one of app.py, which only parses the
    CGPA, lead to the same match at every level. *)
Theorem preprocessing_case_is_immaterial jd_data resume_data :
  ∃ processed simplified,
    preprocess_resume_data py_float resume_data = Ok processed
    ∧ App.preprocess_resume_data py_float resume_data = Ok simplified
    ∧ ∀ level_name,
        education_level_match
          (default (JdEntry false None None) (preprocess_jd_data jd_data !! level_name))
          (get_resume_entry processed level_name) level_name
        = education_level_match
            (App.jd_entry_of jd_data level_name)
            (App.get_resume_entry simplified level_name) level_name.
Proof.
  eexists _, _. split; [apply preprocess_resume_data_lowered|].
  split; [apply preprocess_resume_data_ok|].
  intros level_name. rewrite get_resume_entry_lowered.
  unfold preprocess_jd_data, App.jd_entry_of. rewrite lookup_fmap.
  destruct (jd_data !! level_name) as [jd|]; simpl.
  - rewrite level_match_lower_jd.
    destruct (App.get_resume_entry _ level_name) as [entry|]; simpl; [|done].
    apply level_match_lower_entry.
  - done.
Qed.

End EducationCoverage.

(** ** File names, users, and the answers of the model *)

Section FilesUsersTexts.
Import Py TextFacts.

Lemma lacks_app c s t : lacks c (s +:+ t) = lacks c s && lacks c t.
Proof.
  induction s as [|a s IH]; simpl; [done|]. by rewrite IH, andb_assoc.
Qed.

Lemma after_last_none sep s : App.after_last sep s = None ↔ lacks sep s = true.
Proof.
  induction s as [|c s IH]; simpl; [done|].
  destruct (App.after_last sep s) as [tail|].
  - split; [done|]. intros [_ Hs]%andb_true_iff. by apply IH in Hs.
  - case_bool_decide; simpl; [done|]. split; [intros _; by apply IH|done].
Qed.

Lemma append_head base rest c s :
  String c s = base +:+ rest →
  (base = EmptyString ∧ rest = String c s)
  ∨ ∃ base', base = String c base' ∧ s = base' +:+ rest.
Proof.
  destruct base as [|a base'].
  - intros ->. by left.
  - rewrite append_cons. intros [= -> ->]. right. eauto.
Qed.

Lemma after_last_spec sep s tail :
  App.after_last sep s = Some tail
  ↔ ∃ base, s = base +:+ String sep tail ∧ lacks sep tail = true.
Proof.
  revert tail. induction s as [|c s IH]; intros tail; simpl.
  - split; [done|]. by intros ([|? ?] & ? & _).
  - destruct (App.after_last sep s) as [found|] eqn:Hfound.
    + split.
      * intros [= <-]. destruct (proj1 (IH found) eq_refl) as (base & -> & Hlacks).
        by exists (String c base).
      * intros (base & Heq & Hlacks).
        apply append_head in Heq as [[-> [= -> ->]] | (base' & -> & ->)].
        -- apply after_last_none in Hlacks. congruence.
        -- apply IH. eauto.
    + apply after_last_none in Hfound as Hs. case_bool_decide as Hc.
      * subst c. split.
        -- intros [= <-]. by exists EmptyString.
        -- intros (base & Heq & Hlacks).
           apply append_head in Heq as [[-> [= ->]] | (base' & -> & ->)]; [done|].
           rewrite lacks_app in Hs. simpl in Hs.
           rewrite bool_decide_eq_true_2 in Hs by done.
           by rewrite andb_false_r in Hs.
      * split; [done|].
        intros (base & Heq & Hlacks).
        apply append_head in Heq as [[-> [= -> ->]] | (base' & -> & ->)]; [done|].
        rewrite lacks_app in Hs. simpl in Hs.
        rewrite bool_decide_eq_true_2 in Hs by done.
        by rewrite andb_false_r in Hs.
Qed.

(** X14: [allowed_file] accepts a name exactly when it has a dot and the
    text after its last dot is pdf, docx or txt, letters of either case: a
    second extension hides the first, and a name that is only an extension
    is accepted. *)
Theorem allowed_file_rule filename :
  App.allowed_file filename = true
  ↔ ∃ base extension,
      filename = base +:+ "." +:+ extension
      ∧ lacks "." extension = true
      ∧ lower extension ∈ App.ALLOWED_EXTENSIONS.
Proof.
  unfold App.allowed_file. rewrite andb_true_iff. split.
  - intros [_ Hext].
    destruct (App.after_last "." filename) as [extension|] eqn:Hlast; [|done].
    apply after_last_spec in Hlast as (base & -> & Hlacks).
    exists base, extension. by apply bool_decide_eq_true in Hext.
  - intros (base & extension & -> & Hlacks & Hext). split.
    + apply contains_spec. by exists base, extension.
    + assert (App.after_last "." (base +:+ "." +:+ extension) = Some extension) as ->.
      { apply after_last_spec. by exists base. }
      by apply bool_decide_eq_true.
Qed.

(** What a sequence of registrations leaves of a name: the password the
    table had for it, or else that of the first registration under it. *)
Lemma verify_after_registrations calls : ∀ users username password,
  DbOperations.verify_user username password (register_all calls users)
  = match users !! username with
    | Some stored => bool_decide (stored = password)
    | None => bool_decide (first_password username calls = Some password)
    end.
Proof.
  unfold register_all, first_password, DbOperations.verify_user.
  induction calls as [|[name secret] rest IH]; intros users username password; simpl.
  - by destruct (users !! username).
  - rewrite IH. unfold DbOperations.register_user. simpl.
    destruct (users !! name) as [old|] eqn:Hname; simpl.
    + destruct (users !! username) eqn:Huser; [done|].
      by rewrite (bool_decide_eq_false_2 (name = username)) by congruence.
    + destruct (decide (name = username)) as [-> | Hne].
      * rewrite lookup_insert_eq, Hname, (bool_decide_eq_true_2 (username = username)) by done.
        simpl. apply bool_decide_ext. naive_solver.
      * rewrite lookup_insert_ne by done.
        by rewrite (bool_decide_eq_false_2 (name = username)).
Qed.

(** X15: the password of a user is the one of the first registration under
    the name: after any sequence of calls of [register_user] on an empty
    table, [verify_user] accepts a name and a password exactly when the
    first call with that name gave that password; a later registration
    under the name changes nothing. *)
Theorem first_registration_wins calls username password :
  DbOperations.verify_user username password (register_all calls ∅) = true
  ↔ first_password username calls = Some password.
Proof.
  rewrite verify_after_registrations, lookup_empty. apply bool_decide_eq_true.
Qed.

End FilesUsersTexts.

(** ** Reading a dict or a list out of the answer of the model *)

Section AnswerTexts.
Import Py ExperTest TextFacts.

Context {A : Type} (literal_eval : string → exn A).

Lemma through_first_none close s : through_first close s = None ↔ lacks close s = true.
Proof.
  induction s as [|c s IH]; simpl; [done|].
  case_bool_decide; simpl; [done|].
  destruct (through_first close s); [|tauto].
  split; [done|]. intros Hs. by apply IH in Hs.
Qed.

Lemma through_first_spec close s matched :
  through_first close s = Some matched
  ↔ ∃ inner after, s = inner +:+ String close after
                   ∧ lacks close inner = true
                   ∧ matched = inner +:+ String close EmptyString.
Proof.
  revert matched. induction s as [|c s IH]; intros matched; simpl.
  - split; [done|]. by intros ([|? ?] & ? & ? & _).
  - case_bool_decide as Hc.
    + subst c. split.
      * intros [= <-]. by exists EmptyString, s.
      * intros (inner & after & Heq & Hlacks & ->).
        apply append_head in Heq as [[-> _] | (inner' & -> & _)]; [done|].
        simpl in Hlacks. by rewrite bool_decide_eq_true_2 in Hlacks.
    + destruct (through_first close s) as [t|] eqn:Ht.
      * split.
        -- intros [= <-]. destruct (proj1 (IH t) eq_refl) as (inner & after & -> & Hl & ->).
           exists (String c inner), after. simpl. rewrite bool_decide_eq_false_2 by done.
           done.
        -- intros (inner & after & Heq & Hlacks & ->).
           apply append_head in Heq as [[-> [= -> _]] | (inner' & -> & ->)]; [done|].
           rewrite append_cons. f_equal.
           simpl in Hlacks. apply andb_true_iff in Hlacks as [_ Hlacks].
           assert (Some t = Some (inner' +:+ String close EmptyString)) as [= ->]; [|done].
           apply IH. eauto.
      * split; [done|]. intros (inner & after & Heq & Hlacks & ->).
        apply append_head in Heq as [[-> [= -> _]] | (inner' & -> & ->)]; [done|].
        apply through_first_none in Ht. rewrite lacks_app in Ht. simpl in Ht.
        rewrite bool_decide_eq_true_2 in Ht by done. by rewrite andb_false_r in Ht.
Qed.

(** The leftmost match of the pattern: it starts at the first opening
    character and stops at the first closing character after it. *)
Lemma search_lazy_spec opening close s matched :
  search_lazy opening close s = Some matched
  ↔ ∃ before inner after,
      s = before +:+ String opening (inner +:+ String close after)
      ∧ lacks opening before = true
      ∧ lacks close inner = true
      ∧ matched = String opening (inner +:+ String close EmptyString).
Proof.
  revert matched. induction s as [|c s IH]; intros matched; simpl.
  - split; [done|]. by intros ([|? ?] & ? & ? & ? & _).
  - case_bool_decide as Hc.
    + subst c. destruct (through_first close s) as [t|] eqn:Ht.
      * apply through_first_spec in Ht as (inner & after & -> & Hl & ->). split.
        -- intros [= <-]. by exists EmptyString, inner, after.
        -- intros (before & inner' & after' & Heq & Hb & Hi & ->).
           apply append_head in Heq as [[-> [= Heq]] | (before' & -> & _)].
           ++ do 2 f_equal.
              assert (through_first close (inner +:+ String close after)
                      = Some (inner' +:+ String close EmptyString)) as H1.
              { rewrite <- Heq. apply through_first_spec. eauto. }
              assert (through_first close (inner +:+ String close after)
                      = Some (inner +:+ String close EmptyString)) as H2.
              { apply through_first_spec. eauto. }
              congruence.
           ++ simpl in Hb. by rewrite bool_decide_eq_true_2 in Hb.
      * apply through_first_none in Ht. split.
        -- intros Hlater. apply IH in Hlater as (before & inner & after & -> & _).
           rewrite lacks_app in Ht. simpl in Ht. rewrite lacks_app in Ht. simpl in Ht.
           rewrite (bool_decide_eq_true_2 (close = close)) in Ht by done.
           simpl in Ht. by rewrite !andb_false_r in Ht.
        -- intros (before & inner & after & Heq & Hb & Hi & ->).
           apply append_head in Heq as [[-> [= <-]] | (before' & -> & _)].
           ++ rewrite lacks_app in Ht. simpl in Ht.
              rewrite bool_decide_eq_true_2 in Ht by done.
              by rewrite andb_false_r in Ht.
           ++ simpl in Hb. by rewrite bool_decide_eq_true_2 in Hb.
    + rewrite IH. split.
      * intros (before & inner & after & -> & Hb & Hi & ->).
        exists (String c before), inner, after. simpl.
        by rewrite bool_decide_eq_false_2.
      * intros (before & inner & after & Heq & Hb & Hi & ->).
        apply append_head in Heq as [[-> [= -> _]] | (before' & -> & ->)]; [done|].
        simpl in Hb. apply andb_true_iff in Hb as [_ Hb]. eauto 10.
Qed.

(** X16: what [extract_dict_from_text] and [extract_list_from_text] hand to
    [literal_eval] is the piece of the cleaned text from its first opening
    brace (bracket) to the first closing one after it, so that a dict with a
    dict inside, or a list of lists, is cut before its end; they return the
    value exactly when there is such a piece and it evaluates, and [None]
    otherwise. *)
Theorem extraction_stops_at_first_closing text value :
  (extract_dict_from_text literal_eval text = Some value
   ↔ ∃ before inner after,
       cleaned_text text = before +:+ "{" +:+ inner +:+ "}" +:+ after
       ∧ lacks "{" before = true
       ∧ lacks "}" inner = true
       ∧ literal_eval ("{" +:+ inner +:+ "}") = Ok value)
  ∧ (extract_list_from_text literal_eval text = Some value
     ↔ ∃ before inner after,
         cleaned_text text = before +:+ "[" +:+ inner +:+ "]" +:+ after
         ∧ lacks "[" before = true
         ∧ lacks "]" inner = true
         ∧ literal_eval ("[" +:+ inner +:+ "]") = Ok value).
Proof.
  unfold extract_dict_from_text, extract_list_from_text. cbv zeta. split.
  - destruct (search_lazy "{" "}" (cleaned_text text)) as [matched|] eqn:Hsearch.
    + apply search_lazy_spec in Hsearch as Hspec.
      destruct Hspec as (before & inner & after & Hclean & Hb & Hi & ->). split.
      * destruct (literal_eval _) as [v|e] eqn:Heval; [|done]. intros [= <-].
        by exists before, inner, after.
      * intros (before' & inner' & after' & Hclean' & Hb' & Hi' & Heval).
        assert (search_lazy "{" "}" (cleaned_text text)
                = Some (String "{" (inner' +:+ String "}" EmptyString))) as Hsearch'.
        { apply search_lazy_spec. by exists before', inner', after'. }
        rewrite Hsearch in Hsearch'. injection Hsearch' as Hsame.
        rewrite Hsame. change (String "{" (inner' +:+ "}")) with ("{" +:+ inner' +:+ "}").
        by rewrite Heval.
    + split; [done|]. intros (before & inner & after & Hclean & Hb & Hi & _).
      assert (search_lazy "{" "}" (cleaned_text text)
              = Some (String "{" (inner +:+ String "}" EmptyString))) as Hsearch'.
      { apply search_lazy_spec. by exists before, inner, after. }
      congruence.
  - destruct (search_lazy "[" "]" (cleaned_text text)) as [matched|] eqn:Hsearch.
    + apply search_lazy_spec in Hsearch as Hspec.
      destruct Hspec as (before & inner & after & Hclean & Hb & Hi & ->). split.
      * destruct (literal_eval _) as [v|e] eqn:Heval; [|done]. intros [= <-].
        by exists before, inner, after.
      * intros (before' & inner' & after' & Hclean' & Hb' & Hi' & Heval).
        assert (search_lazy "[" "]" (cleaned_text text)
                = Some (String "[" (inner' +:+ String "]" EmptyString))) as Hsearch'.
        { apply search_lazy_spec. by exists before', inner', after'. }
        rewrite Hsearch in Hsearch'. injection Hsearch' as Hsame.
        rewrite Hsame. change (String "[" (inner' +:+ "]")) with ("[" +:+ inner' +:+ "]").
        by rewrite Heval.
    + split; [done|]. intros (before & inner & after & Hclean & Hb & Hi & _).
      assert (search_lazy "[" "]" (cleaned_text text)
              = Some (String "[" (inner +:+ String "]" EmptyString))) as Hsearch'.
      { apply search_lazy_spec. by exists before, inner, after. }
      congruence.
Qed.

End AnswerTexts.

(** ** Equal texts are similar *)

Section EqualTexts.
Import Py.

Lemma common_prefix_same a : Difflib.common_prefix a a = String.length a.
Proof.
  induction a as [|c a IH]; simpl; [done|]. by rewrite bool_decide_eq_true_2, IH.
Qed.

Lemma common_prefix_le_l a b : Difflib.common_prefix a b ≤ String.length a.
Proof.
  revert b. induction a as [|c a IH]; intros [|d b]; simpl; try lia.
  case_bool_decide; [|lia]. specialize (IH b). lia.
Qed.

Lemma common_prefix_le_r a b : Difflib.common_prefix a b ≤ String.length b.
Proof.
  revert b. induction a as [|c a IH]; intros [|d b]; simpl; try lia.
  case_bool_decide; [|lia]. specialize (IH b). lia.
Qed.

(** A block that is at least as long as what is left to scan stays the
    best. *)
Lemma longest_from_kept a i b : ∀ j best,
  String.length b ≤ Difflib.size best → Difflib.longest_from a i b j best = best.
Proof.
  induction b as [|d b IH]; intros j best Hlen; simpl in *; [done|].
  pose proof (common_prefix_le_r a (String d b)) as Hk. simpl in Hk.
  destruct (Difflib.size best <? Difflib.common_prefix a (String d b))%nat eqn:Hlt.
  - apply Nat.ltb_lt in Hlt. lia.
  - apply IH. lia.
Qed.

Lemma longest_from_short a i b : ∀ j best,
  String.length a ≤ Difflib.size best → Difflib.longest_from a i b j best = best.
Proof.
  induction b as [|d b IH]; intros j best Hlen; simpl in *; [done|].
  pose proof (common_prefix_le_l a (String d b)) as Hk.
  destruct (Difflib.size best <? Difflib.common_prefix a (String d b))%nat eqn:Hlt.
  - apply Nat.ltb_lt in Hlt. lia.
  - by apply IH.
Qed.

Lemma longest_over_kept a b : ∀ i best,
  String.length a ≤ Difflib.size best → Difflib.longest_over a i b best = best.
Proof.
  induction a as [|c a IH]; intros i best Hlen; simpl in *; [done|].
  rewrite longest_from_short by (simpl; lia). apply IH. lia.
Qed.

Lemma find_longest_match_same c a :
  Difflib.find_longest_match (String c a) (String c a)
  = Difflib.Block 0 0 (S (String.length a)).
Proof.
  unfold Difflib.find_longest_match.
  change (Difflib.longest_over (String c a) 0 (String c a) (Difflib.Block 0 0 0))
    with (Difflib.longest_over a 1 (String c a)
            (Difflib.longest_from (String c a) 0 (String c a) 0 (Difflib.Block 0 0 0))).
  assert (Difflib.longest_from (String c a) 0 (String c a) 0 (Difflib.Block 0 0 0)
          = Difflib.Block 0 0 (S (String.length a))) as ->.
  { cbn [Difflib.longest_from]. rewrite (common_prefix_same (String c a)).
    simpl Difflib.size. simpl String.length. simpl Nat.ltb.
    apply longest_from_kept. simpl. lia. }
  apply longest_over_kept. simpl. lia.
Qed.

Lemma substring_nothing n s : String.substring n 0 s = EmptyString.
Proof. revert s. induction n as [|n IH]; intros [|c s]; simpl; auto. Qed.

Lemma matches_empty steps : Difflib.matches steps EmptyString EmptyString = 0.
Proof. by destruct steps. Qed.

Lemma matches_same steps a : Difflib.matches (S steps) a a = String.length a.
Proof.
  destruct a as [|c a]; [done|].
  cbn [Difflib.matches]. rewrite find_longest_match_same. cbn [Difflib.size Difflib.in_a Difflib.in_b].
  cbn [Nat.eqb]. unfold Difflib.take_str, Difflib.drop_str.
  rewrite !substring_nothing.
  replace (String.length (String c a) - (0 + S (String.length a))) with 0 by (simpl; lia).
  rewrite !substring_nothing, !matches_empty. simpl. lia.
Qed.

(** A text compared with itself has the ratio 1. *)
Lemma ratio_same a : (Difflib.ratio a a == 1)%Q.
Proof.
  unfold Difflib.ratio. cbv zeta.
  destruct (String.length a + String.length a =? 0)%nat eqn:Hzero; [done|].
  apply Nat.eqb_neq in Hzero. rewrite matches_same.
  unfold num, Qeq, Qdiv, Qmult, Qinv. simpl.
  destruct (Z.of_nat (String.length a + String.length a)) eqn:Hz; simpl; lia.
Qed.

(** X17: a text is similar to itself whatever the case of its letters: two
    fields, or two degrees, that are not empty and are equal once in lower
    case pass the fuzzy test, so that an entry whose field is the required
    field is found by [evaluate_experience] in either mode.  The texts are
    shorter than 200 characters, the range that the model of the similarity
    ratio covers. *)
Theorem equal_texts_are_similar text1 text2 :
  text1 ≠ EmptyString → lower text1 = lower text2 → String.length text2 < 200 →
  ExperTest.fields_similar text1 text2 = true
  ∧ EducationExtract.degrees_similar (Some text1) (Some text2) = true
  ∧ ∀ use_fuzzy_matching title years,
      ExperTest.field_found use_fuzzy_matching text1
        (ExperTest.ExperienceEntry title years (Some text2)) = true.
Proof.
  intros Hne Heq _.
  assert (text2 ≠ EmptyString) as Hne2.
  { intros ->. destruct text1; [done|discriminate]. }
  assert (truthy text1 = true) as H1 by by apply truthy_iff.
  assert (truthy text2 = true) as H2 by by apply truthy_iff.
  assert (Qlt_bool (7 # 10) (Difflib.ratio (lower text1) (lower text2)) = true) as Hratio.
  { apply Qlt_bool_iff. rewrite Heq, ratio_same. done. }
  split; [|split].
  - unfold ExperTest.fields_similar, ExperTest.similar, ExperTest.threshold.
    by rewrite H1, H2.
  - unfold EducationExtract.degrees_similar, EducationExtract.similar. by rewrite H1, H2.
  - intros fuzzy title years. unfold ExperTest.field_found, ExperTest.normalize_field_name.
    simpl. rewrite H2. destruct fuzzy.
    + unfold ExperTest.fields_similar, ExperTest.similar, ExperTest.threshold.
      rewrite H1. rewrite truthy_lower, H2. cbn [negb orb]. by rewrite lower_idem.
    + rewrite Heq. apply contains_spec. exists EmptyString, EmptyString.
      change (EmptyString +:+ ?x) with x. by rewrite append_empty.
Qed.

Lemma equal_texts_witness :
  ExperTest.fields_similar "Machine Learning" "machine learning" = true
  ∧ EducationExtract.degrees_similar (Some "Machine Learning") (Some "machine learning") = true
  ∧ ∀ use_fuzzy_matching title years,
      ExperTest.field_found use_fuzzy_matching "Machine Learning"
        (ExperTest.ExperienceEntry title years (Some "machine learning")) = true.
Proof. apply equal_texts_are_similar; [done|done|simpl; lia]. Defined.

End EqualTexts.

(** ** The first line of the two readers *)

Section CleanedText.
Import Py ExperTest TextFacts.

Lemma sub_python_without text :
  contains "python" text = false → sub_python 0 text = text.
Proof.
  induction text as [|c text IH]; [done|].
  cbn [contains]. intros [Hhere Hlater]%orb_false_iff.
  cbn [sub_python]. rewrite Hhere, IH by done. done.
Qed.

Lemma startswith_long p : ∀ a rest,
  String.length p ≤ String.length a → startswith p (a +:+ rest) = startswith p a.
Proof.
  induction p as [|x p IH]; intros a rest Hlen; [done|].
  destruct a as [|y a]; simpl in Hlen; [lia|].
  rewrite append_cons. simpl. rewrite IH by lia. done.
Qed.

Lemma sub_python_first before : ∀ rest,
  contains "python" (before +:+ "pytho") = false →
  sub_python 0 (before +:+ "python" +:+ rest) = before +:+ sub_python 0 rest.
Proof.
  induction before as [|c before IH]; intros rest Hfree; [done|].
  rewrite append_cons in Hfree. cbn [contains] in Hfree.
  apply orb_false_iff in Hfree as [Hhere Hlater].
  rewrite !(append_cons c before). cbn [sub_python].
  assert (startswith "python" (String c (before +:+ "python" +:+ rest)) = false) as ->.
  { etransitivity; [|exact Hhere].
    assert (String c (before +:+ "python" +:+ rest)
            = String c (before +:+ "pytho") +:+ ("n" +:+ rest)) as ->.
    { rewrite (append_cons c (before +:+ "pytho")), (append_assoc before). done. }
    apply startswith_long. simpl. rewrite length_append. simpl. lia. }
  by rewrite IH.
Qed.

(** X18: the first line of [extract_dict_from_text] and
    [extract_list_from_text] removes the word python, in lower case,
    wherever it stands, before it trims the text: a text without the word is
    only trimmed, and the first occurrence of the word, wherever it is, is
    cut out, so that a list that names the skill python comes out with an
    empty name. *)
Theorem cleaning_removes_python :
  (∀ text, contains "python" text = false → cleaned_text text = strip text)
  ∧ (∀ before rest,
       contains "python" (before +:+ "pytho") = false →
       cleaned_text (before +:+ "python" +:+ rest) = strip (before +:+ sub_python 0 rest))
  ∧ cleaned_text " ['python', 'sql'] " = "['', 'sql']".
Proof.
  split; [|split].
  - intros text Hfree. unfold cleaned_text. by rewrite sub_python_without.
  - intros before rest Hfree. unfold cleaned_text. by rewrite sub_python_first.
  - reflexivity.
Qed.

End CleanedText.

(** ** The letter case of an expression *)

Section ExpressionCase.
Import Py SkillExtract SkillSpec.

Lemma is_word_char_lower c : is_word_char (lower_char c) = is_word_char c.
Proof. by destruct c as [[] [] [] [] [] [] [] []]. Qed.

Lemma lower_char_is c (x : ascii) :
  is_upper x = false → is_lower x = false →
  bool_decide (lower_char c = x) = bool_decide (c = x).
Proof.
  intros Hupper Hlower. apply bool_decide_ext. split.
  - intros <-. unfold lower_char in *. destruct (is_upper c) eqn:Hc; [|done].
    exfalso. revert Hlower Hc.
    destruct c as [[] [] [] [] [] [] [] []]; vm_compute; congruence.
  - intros ->. unfold lower_char. by rewrite Hupper.
Qed.

Lemma lower_append a b : lower (a +:+ b) = lower a +:+ lower b.
Proof. induction a as [|c a IH]; [done|]. rewrite !append_cons. simpl. by rewrite IH, append_cons. Qed.

Lemma lower_quoted s : lower (quoted s) = quoted (lower s).
Proof. unfold quoted. simpl. by rewrite lower_append. Qed.

Lemma until_quote_lower s : until_quote (lower s) = lower <$> until_quote s.
Proof.
  induction s as [|c s IH]; simpl; [done|].
  rewrite lower_char_quote, IH. case_bool_decide; [done|]. by destruct (until_quote s).
Qed.

Lemma match_literal_lower s : match_literal (lower s) = lower <$> match_literal s.
Proof.
  destruct s as [|c s]; simpl; [done|].
  rewrite lower_char_quote, until_quote_lower. case_bool_decide; [|done].
  by destruct (until_quote s) as [[|a content]|].
Qed.

Lemma take_chars_lower n : ∀ s, take_chars n (lower s) = lower <$> take_chars n s.
Proof.
  induction n as [|n IH]; intros [|c s]; simpl; try done.
  rewrite IH. by destruct (take_chars n s).
Qed.

Lemma drop_chars_lower n : ∀ s, drop_chars n (lower s) = lower (drop_chars n s).
Proof. induction n as [|n IH]; intros [|c s]; simpl; try done. Qed.

Lemma match_one_keyword_lower kw before s :
  match_one_keyword kw before (lower s) = lower <$> match_one_keyword kw before s.
Proof.
  unfold match_one_keyword. rewrite take_chars_lower, drop_chars_lower.
  destruct (take_chars (String.length kw) s) as [t|]; simpl; [|done].
  rewrite lower_idem.
  assert (match lower (drop_chars (String.length kw) s) with
          | EmptyString => true
          | String c _ => negb (is_word_char c)
          end
          = match drop_chars (String.length kw) s with
            | EmptyString => true
            | String c _ => negb (is_word_char c)
            end) as ->.
  { destruct (drop_chars _ s); simpl; [done|]. by rewrite is_word_char_lower. }
  by destruct (_ && _).
Qed.

Lemma match_keyword_lower before s :
  match_keyword before (lower s) = lower <$> match_keyword before s.
Proof.
  unfold match_keyword. rewrite !match_one_keyword_lower.
  destruct (match_one_keyword "and" before s); [done|].
  destruct (match_one_keyword "or" before s); [done|].
  by destruct (match_one_keyword "not" before s).
Qed.

Lemma startswith_char_lower (x : ascii) s :
  is_upper x = false → is_lower x = false →
  startswith (String x EmptyString) (lower s) = startswith (String x EmptyString) s.
Proof.
  intros Hupper Hlower. destruct s as [|c s]; simpl; [done|].
  rewrite !andb_true_r.
  rewrite (bool_decide_ext (x = lower_char c) (lower_char c = x)) by (split; congruence).
  rewrite (lower_char_is c x Hupper Hlower).
  apply bool_decide_ext. split; congruence.
Qed.

Lemma match_token_lower before s :
  match_token before (lower s) = lower <$> match_token before s.
Proof.
  unfold match_token. rewrite match_literal_lower.
  destruct (match_literal s) as [content|];
    [exact (f_equal Some (eq_sym (lower_quoted content)))|].
  cbn [fmap option_fmap option_map].
  rewrite !startswith_char_lower by done.
  destruct (startswith "(" s); [done|]. destruct (startswith ")" s); [done|].
  apply match_keyword_lower.
Qed.

Lemma findall_lower matcher :
  (∀ before s, matcher before (lower s)
               = (λ found, (lower found.1, found.2)) <$> matcher before s) →
  ∀ s before skip,
    findall matcher before skip (lower s) = lower <$> findall matcher before skip s.
Proof.
  intros Hmatcher. induction s as [|c s IH]; intros before skip; [done|].
  change (lower (String c s)) with (String (lower_char c) (lower s)).
  cbn [findall]. rewrite is_word_char_lower. destruct skip; [|apply IH].
  change (String (lower_char c) (lower s)) with (lower (String c s)).
  rewrite Hmatcher. destruct (matcher before (String c s)) as [[found width]|]; simpl.
  - by rewrite IH.
  - apply IH.
Qed.

Lemma findall_tokens_lower e : findall_tokens (lower e) = lower <$> findall_tokens e.
Proof.
  apply findall_lower. intros before s. rewrite match_token_lower.
  destruct (match_token before s) as [tok|]; simpl; [|done]. by rewrite lower_length.
Qed.

Lemma findall_quoted_lower e : findall_quoted (lower e) = lower <$> findall_quoted e.
Proof.
  apply findall_lower. intros before s. rewrite match_literal_lower.
  destruct (match_literal s) as [content|]; simpl; [|done]. by rewrite lower_length.
Qed.

Lemma lstrip_lower_by p s :
  (∀ c, p (lower_char c) = p c) → lstrip p (lower s) = lower (lstrip p s).
Proof.
  intros Hp. induction s as [|c s IH]; simpl; [done|].
  rewrite Hp. by destruct (p c).
Qed.

Lemma rstrip_lower_by p s :
  (∀ c, p (lower_char c) = p c) → rstrip p (lower s) = lower (rstrip p s).
Proof.
  intros Hp. induction s as [|c s IH]; simpl; [done|].
  rewrite IH, Hp. destruct (rstrip p s); simpl; [by destruct (p c)|done].
Qed.

Lemma strip_char_lower s : strip_char dq (lower s) = lower (strip_char dq s).
Proof.
  unfold strip_char, strip_by.
  rewrite lstrip_lower_by, rstrip_lower_by; [done|apply lower_char_quote..].
Qed.

Lemma normalize_skill_lower token : normalize_skill (lower token) = normalize_skill token.
Proof.
  unfold normalize_skill. by rewrite strip_char_lower, strip_lower, lower_idem.
Qed.

Lemma endswith_char_lower s : endswith_char dq (lower s) = endswith_char dq s.
Proof.
  induction s as [|c s IH]; simpl; [done|].
  destruct s as [|d s]; simpl in *; [apply lower_char_quote|done].
Qed.

Lemma normalize_token_lower token : normalize_token (lower token) = normalize_token token.
Proof.
  unfold normalize_token.
  rewrite (startswith_char_lower dq) by done.
  rewrite endswith_char_lower, normalize_skill_lower, lower_idem. done.
Qed.

Lemma required_skills_lower e : required_skills_of (lower e) = required_skills_of e.
Proof.
  unfold required_skills_of. rewrite findall_quoted_lower. f_equal.
  induction (findall_quoted e) as [|token rest IH]; [done|].
  rewrite fmap_cons, !filter_cons, strip_char_lower, strip_lower.
  destruct (decide (lower (strip (strip_char dq token)) ≠ EmptyString)) as [Hne | Heq];
    destruct (decide (strip (strip_char dq token) ≠ EmptyString)) as [Hne' | Heq'].
  - by rewrite !fmap_cons, normalize_skill_lower, IH.
  - exfalso. apply Hne. apply dec_stable in Heq'. by rewrite Heq'.
  - exfalso. apply Heq. intros Hempty. by apply Hne', lower_empty.
  - done.
Qed.

(** X19: the letter case of a skills expression written in ASCII does not
    matter: in lower case it gets the same verdict and the same score, the
    keywords being matched in either case and the literals compared in lower
    case. (Outside ASCII [str.lower()] can turn a letter into a sequence that
    ends a keyword's word boundary, and the tokens change.) *)
Theorem expression_case_is_ignored skills_expression resume_skills :
  SkillFacts.ascii_text skills_expression = true →
  evaluate_resume (lower skills_expression) resume_skills
  = evaluate_resume skills_expression resume_skills.
Proof.
  intros _. unfold evaluate_resume.
  destruct (decide (skills_expression = EmptyString)) as [-> | Hne]; [done|].
  destruct (decide (skills_expression = "False")) as [-> | Hnf]; [done|].
  assert (lower skills_expression ≠ EmptyString) as Hne'
    by (intros H; by apply Hne, lower_empty).
  assert (lower skills_expression ≠ "False") as Hnf'.
  { intros H. pose proof (lower_idem skills_expression) as Hidem.
    rewrite H in Hidem. discriminate. }
  rewrite !bool_decide_eq_false_2 by done. simpl. f_equal.
  unfold evaluate_resume_body.
  rewrite required_skills_lower, findall_tokens_lower.
  destruct (findall_tokens skills_expression) as [|token rest]; [done|].
  assert (normalize_token <$> (lower <$> token :: rest) = normalize_token <$> token :: rest)
    as Hsame.
  { rewrite <- list_fmap_compose. apply list_fmap_ext. intros _ t _. apply normalize_token_lower. }
  rewrite (fmap_cons lower) in Hsame |- *. by rewrite Hsame.
Qed.

Lemma expression_case_witness :
  SkillFacts.ascii_text python_and_java_or_go = true
  ∧ evaluate_resume (lower python_and_java_or_go) {[ "python"; "go" ]}
    = evaluate_resume python_and_java_or_go {[ "python"; "go" ]}.
Proof.
  split; [reflexivity|]. apply expression_case_is_ignored. reflexivity.
Defined.

End ExpressionCase.

(** ** The analysis as a whole *)

Section UploadCoverage.
Import Py EducationExtract EducationSpec App UploadFacts.

Context (py_float : string → exn pyfloat).

Lemma mean_of_two_range a b : percentage a → percentage b → percentage ((a + b) / 2).
Proof.
  intros [Ha0 Ha1] [Hb0 Hb1]. split.
  - apply Qle_shift_div_l; [done|]. change (0 * 2)%Q with (0 + 0)%Q.
    by apply Qplus_le_compat.
  - apply Qle_shift_div_r; [done|]. change (100 * 2)%Q with (100 + 100)%Q.
    by apply Qplus_le_compat.
Qed.

Lemma mean_of_three_range a b c :
  percentage a → percentage b → percentage c → percentage ((a + b + c) / 3).
Proof.
  intros [Ha0 Ha1] [Hb0 Hb1] [Hc0 Hc1]. split.
  - apply Qle_shift_div_l; [done|]. change (0 * 3)%Q with (0 + 0 + 0)%Q.
    by repeat apply Qplus_le_compat.
  - apply Qle_shift_div_r; [done|]. change (100 * 3)%Q with (100 + 100 + 100)%Q.
    by repeat apply Qplus_le_compat.
Qed.

Lemma overall_score_range match_count education_score experience_score :
  percentage match_count → percentage education_score →
  (∀ x, experience_score = Some x → percentage x) →
  percentage (overall_score_of match_count education_score experience_score).
Proof.
  intros Hm He Hx. unfold percentage.
  rewrite overall_score_mean. unfold AggregateSpec.mean_of_present.
  destruct experience_score as [x|].
  - by apply mean_of_three_range; [..|apply Hx].
  - by apply mean_of_two_range.
Qed.

(** X20: every score of a completed analysis is a percentage: the skills
    score, the education score, the experience score when there is one, and
    the overall score lie between 0 and 100. *)
Theorem analysed_scores_are_percentages jd resume experience_required r :
  upload_analysis py_float jd resume experience_required = Analysed r →
  percentage (skills_score r)
  ∧ percentage (education_score r)
  ∧ (∀ x, experience_score r = Some x → percentage x)
  ∧ percentage (overall_score r).
Proof.
  unfold upload_analysis.
  destruct (evaluate_resume_range (skills_expression jd) (resume_skills resume))
    as (skills_result & match_count & -> & Hskills).
  destruct (experience_step _ _ _) as [[experience_result experience_score]|e] eqn:Hstep.
  2:{ by destruct e. }
  destruct (education_result_of _ _) as [education_result|?]; [|done].
  destruct (evaluate_education_score_share py_float (jd_education jd) (resume_education resume))
    as (satisfied & _ & ->).
  pose proof (weighted_share_range satisfied) as Heducation.
  assert (∀ x, experience_score = Some x → percentage x) as Hexperience.
  { intros x ->. unfold experience_step in Hstep. destruct experience_required; [|done].
    destruct (ExperTest.evaluate_experience _ _ _); [|done].
    change (Ok ?a ≫= ?f) with (f a) in Hstep. cbv beta in Hstep.
    destruct (ExperTest.score_experience_match _ _ _) as [s|] eqn:Hscore; [|done].
    injection Hstep as _ ->. by eapply score_experience_match_range. }
  intros [= <-]. simpl. split_and!; [done|done| |].
  - intros x Hx. destruct experience_required; [by apply Hexperience|done].
  - by apply overall_score_range.
Qed.

Lemma all_levels_match_total jd_education resume_education names :
  cgpa_without_text resume_education →
  ∃ matched, all_levels_match jd_education resume_education names = Ok matched.
Proof.
  intros Hcgpa. induction names as [|name rest [matched IH]]; simpl; [eauto|].
  destruct (level_match_total (jd_entry_of jd_education name)
              (get_resume_entry resume_education name) name) as [here ->].
  { intros entry s Hentry. apply (Hcgpa entry s).
    by eapply get_resume_entry_elem. }
  simpl. destruct here; eauto.
Qed.

(** X21: without the experience check, the analysis of [upload] completes
    whenever no entry of the resume gives its CGPA as a text.  A CGPA given
    as a text makes it fail: the education verdict is taken on the entries
    as they were extracted, before [parse_cgpa] has run, so that when the
    tenth class is required with a minimum CGPA and the entry found for it
    holds a string, the comparison raises and the page reports that the
    analysis failed. *)
Theorem analysis_completes_unless_cgpa_is_text jd resume :
  (cgpa_without_text (resume_education resume) →
   ∃ r, upload_analysis py_float jd resume false = Analysed r)
  ∧ (∀ experience_required entry s,
       required (jd_entry_of (jd_education jd) "10th") = true →
       jd_cgpa (jd_entry_of (jd_education jd) "10th") ≠ None →
       get_resume_entry (resume_education resume) "10th" = Some entry →
       cgpa entry = CgpaStr s →
       upload_analysis py_float jd resume experience_required = AnalysisFailed
       ∨ ∃ message,
           experience_required = true
           ∧ upload_analysis py_float jd resume experience_required
             = ExperienceDataError message).
Proof.
  split.
  - intros Hcgpa. unfold upload_analysis.
    destruct (evaluate_resume_range (skills_expression jd) (resume_skills resume))
      as (skills_result & match_count & -> & _).
    cbn [experience_step].
    destruct (all_levels_match_total (jd_education jd) (resume_education resume)
                ["10th"; "PU"; "UG"; "PG"] Hcgpa) as [matched Hmatched].
    unfold education_result_of. rewrite Hmatched.
    destruct (evaluate_education_score_share py_float (jd_education jd)
                (resume_education resume)) as (satisfied & _ & ->).
    eauto.
  - intros experience_required entry s Hrequired Hminimum Hentry Hcgpa.
    unfold upload_analysis.
    destruct (evaluate_resume_range (skills_expression jd) (resume_skills resume))
      as (skills_result & match_count & -> & _).
    assert (∃ e, education_result_of (jd_education jd) (resume_education resume) = Raise e)
      as [e Hraise].
    { unfold education_result_of. cbn [all_levels_match]. rewrite Hentry.
      unfold education_level_match. rewrite Hrequired. cbn [negb].
      destruct (jd_cgpa (jd_entry_of (jd_education jd) "10th")) as [minimum|]; [|done].
      rewrite Hcgpa. simpl. eauto. }
    rewrite Hraise.
    destruct (experience_step _ _ _) as [[experience_result experience_score]|error] eqn:Hstep.
    + by left.
    + destruct error; [by left|by left|].
      right. exists msg. split; [|done].
      destruct experience_required; [done|]. discriminate.
Qed.

End UploadCoverage.

Lemma analysed_scores_witness :
  ∃ r, App.upload_analysis EducationSpec.decimal_float AggregateSpec.sample_jd
         AggregateSpec.sample_resume false = App.Analysed r
       ∧ UploadFacts.percentage (App.skills_score r)
       ∧ UploadFacts.percentage (App.education_score r)
       ∧ (∀ x, App.experience_score r = Some x → UploadFacts.percentage x)
       ∧ UploadFacts.percentage (App.overall_score r).
Proof.
  eexists. split; [vm_compute; reflexivity|].
  apply (analysed_scores_are_percentages EducationSpec.decimal_float
           AggregateSpec.sample_jd AggregateSpec.sample_resume false).
  vm_compute. reflexivity.
Defined.

Lemma analysis_fails_witness :
  App.upload_analysis EducationSpec.decimal_float UploadFacts.asks_tenth_cgpa
    UploadFacts.tenth_cgpa_as_text false = App.AnalysisFailed
  ∧ App.evaluate_education_score EducationSpec.decimal_float
      (App.jd_education UploadFacts.asks_tenth_cgpa)
      (App.resume_education UploadFacts.tenth_cgpa_as_text) = Py.Ok 100%Q.
Proof.
  split; [|vm_compute; reflexivity].
  destruct (proj2 (analysis_completes_unless_cgpa_is_text EducationSpec.decimal_float
                     UploadFacts.asks_tenth_cgpa UploadFacts.tenth_cgpa_as_text)
              false (EducationExtract.ResumeEntry "10th" None (EducationExtract.CgpaStr "8.5"))
              "8.5" eq_refl ltac:(discriminate) eq_refl eq_refl)
    as [Hfailed | (message & Hrequired & _)]; [exact Hfailed | discriminate].
Defined.
